(** * MySQL auth-state store: a shallow embedding of [src/Mysql/index.ts]

    The module keeps the authentication state of a messaging session in one
    MySQL table.  This development embeds the connection manager
    ([connection]), the retrying executor ([query]), the key-value
    operations ([readData], [writeData], [removeData], [clearAll],
    [removeAll]) and the facade returned by [useMySQLAuthState], and proves
    the properties the specification states about them.

    Asynchronous code is embedded as explicit state passing over a [world]
    that holds the module-level connection variable, the database server,
    the failures the environment will inject and a trace of the calls made
    to the driver and to the timer.  A call of [connection] is also given
    by its stages between [await]s, for calls that overlap. *)

From Stdlib Require Import ZArith Lia ZifyNat List Ascii String DecimalString.
From Stdlib Require Import Strings.Byte.
From stdpp Require Import gmap strings list fin_maps.
Import ListNotations.

Local Open Scope string_scope.
Local Open Scope Z_scope.

Set Warnings "-register-all".

(* ===================================================================== *)
(** ** Base64 *)
(* ===================================================================== *)

Module Base64.

Local Open Scope nat_scope.

Definition alphabet : list ascii :=
  list_ascii_of_string
    "ABCDEFGHIJKLMNOPQRSTUVWXYZabcdefghijklmnopqrstuvwxyz0123456789+/".

(** The character of a sextet. *)
Definition char_of (n : nat) : ascii := nth n alphabet "A"%char.

Fixpoint position (c : ascii) (l : list ascii) (i : nat) : option nat :=
  match l with
  | [] => None
  | x :: l' => if Ascii.eqb c x then Some i else position c l' (S i)
  end.

(** The sextet of a character of the alphabet. *)
Definition index_of (c : ascii) : option nat := position c alphabet 0.

(** The sextet a decoder reads in a character: the alphabet above, and
    ["-"] and ["_"] of the URL-safe alphabet for 62 and 63; [None] for any
    other character, the padding ["="] included. *)
Definition sextet_of (c : ascii) : option nat :=
  match index_of c with
  | Some i => Some i
  | None =>
      if Ascii.eqb c "-" then Some 62
      else if Ascii.eqb c "_" then Some 63
      else None
  end.

Definition byte_of (n : nat) : byte :=
  match Byte.of_nat n with Some b => b | None => x00 end.

(** [Buffer.toString('base64')]: three bytes become four characters; a
    last group of one or two bytes is padded with ["="]. *)
Fixpoint encode (l : list byte) : string :=
  match l with
  | [] => EmptyString
  | [a] =>
      let x := Byte.to_nat a in
      String (char_of (x / 4)) (String (char_of (x mod 4 * 16)) "==")
  | [a; b] =>
      let x := Byte.to_nat a in
      let y := Byte.to_nat b in
      String (char_of (x / 4))
        (String (char_of (x mod 4 * 16 + y / 16))
           (String (char_of (y mod 16 * 4)) "="))
  | a :: b :: c :: r =>
      let x := Byte.to_nat a in
      let y := Byte.to_nat b in
      let z := Byte.to_nat c in
      String (char_of (x / 4))
        (String (char_of (x mod 4 * 16 + y / 16))
           (String (char_of (y mod 16 * 4 + z / 64))
              (String (char_of (z mod 64)) (encode r))))
  end.

(** The sextets a decoder reads in a string: it skips every character
    that has none (white space, line breaks, anything else) and stops at
    the first ["="]. *)
Fixpoint sextets (s : string) : list nat :=
  match s with
  | EmptyString => []
  | String c r =>
      if Ascii.eqb c "=" then []
      else match sextet_of c with
           | Some i => i :: sextets r
           | None => sextets r
           end
  end.

(** The bytes of a run of sextets: four give three bytes; a last group of
    two gives one byte, of three gives two, and a single sextet gives
    none. *)
Fixpoint bytes_of (l : list nat) : list byte :=
  match l with
  | i1 :: i2 :: i3 :: i4 :: r =>
      byte_of (i1 * 4 + i2 / 16)
        :: byte_of (i2 mod 16 * 16 + i3 / 4)
        :: byte_of (i3 mod 4 * 64 + i4) :: bytes_of r
  | [i1; i2; i3] =>
      [byte_of (i1 * 4 + i2 / 16); byte_of (i2 mod 16 * 16 + i3 / 4)]
  | [i1; i2] => [byte_of (i1 * 4 + i2 / 16)]
  | _ => []
  end.

(** [Buffer.from(s, 'base64')].  Decoding never fails and asks for no
    padding. *)
Definition decode (s : string) : list byte := bytes_of (sextets s).

End Base64.

(* ===================================================================== *)
(** ** Values, JSON documents and JSON text *)
(* ===================================================================== *)

(** A JSON document: what a JSON column holds and what [JSON.parse]
    returns when it is given no reviver.  Numbers are integers; objects are
    association lists in property order. *)
Inductive json : Type :=
| JNull
| JBool (b : bool)
| JNum (n : Z)
| JStr (s : string)
| JArr (items : list json)
| JObj (fields : list (string * json)).

(** A value of the program: a JSON-like structure whose leaves may also be
    raw byte sequences, as a [Buffer] holds them.  [VNull] stands for
    [null] and for [undefined], which the code never tells apart. *)
Inductive value : Type :=
| VNull
| VBool (b : bool)
| VNum (n : Z)
| VStr (s : string)
| VArr (items : list value)
| VObj (fields : list (string * value))
| VBuf (bytes : list byte).

(** A string used as JSON text.  The concrete syntax belongs to the
    JavaScript engine and to the server: a text that one of them printed
    from a document is kept as that document, any other string by its
    characters. *)
Inductive text : Type :=
| Text (doc : json)
| Chars (s : string).

(** JavaScript truthiness, as tested by [if (value)] and [!x]. *)
Definition truthy (v : value) : bool :=
  match v with
  | VNull => false
  | VBool b => b
  | VNum n => negb (n =? 0)
  | VStr s => negb (String.eqb s "")
  | VArr _ | VObj _ | VBuf _ => true
  end.

Definition json_truthy (d : json) : bool :=
  match d with
  | JNull => false
  | JBool b => b
  | JNum n => negb (n =? 0)
  | JStr s => negb (String.eqb s "")
  | JArr _ | JObj _ => true
  end.

(** Property access [o.k] on an association list: the first binding. *)
Fixpoint assoc {A : Type} (k : string) (l : list (string * A)) : option A :=
  match l with
  | [] => None
  | (k', a) :: l' => if String.eqb k k' then Some a else assoc k l'
  end.

(* ===================================================================== *)
(** ** Configuration and connection options *)
(* ===================================================================== *)

(** [MySQLConfig]: every option may be left out. *)
Module Config.
Record t : Type := {
  database : option string;
  host : option string;
  port : option Z;
  user : option string;
  password : option string;
  password1 : option string;
  password2 : option string;
  password3 : option string;
  ssl : option string;
  localAddress : option string;
  socketPath : option string;
  insecureAuth : option bool;
  isServer : option bool;
  tableName : option string;
  retryRequestDelayMs : option Z;
  maxtRetries : option Z
}.
End Config.

(** [x || d]: the operand when it is truthy, the default otherwise. *)
Definition or_string (x : option string) (d : string) : string :=
  match x with
  | Some s => if String.eqb s "" then d else s
  | None => d
  end.

Definition or_number (x : option Z) (d : Z) : Z :=
  match x with
  | Some n => if n =? 0 then d else n
  | None => d
  end.

Definition or_bool (x : option bool) (d : bool) : bool :=
  match x with
  | Some true => true
  | _ => d
  end.

(** The object handed to [createConnection]. *)
Record ConnectionOptions : Type := {
  opt_database : string;
  opt_host : string;
  opt_port : Z;
  opt_user : string;
  opt_password : option string;
  opt_password1 : option string;
  opt_password2 : option string;
  opt_password3 : option string;
  opt_enableKeepAlive : bool;
  opt_keepAliveInitialDelay : Z;
  opt_ssl : option string;
  opt_localAddress : option string;
  opt_socketPath : option string;
  opt_insecureAuth : bool;
  opt_isServer : bool
}.

Definition connection_options (config : Config.t) : ConnectionOptions :=
  {| opt_database := or_string (Config.database config) "base";
     opt_host := or_string (Config.host config) "localhost";
     opt_port := or_number (Config.port config) 3306;
     opt_user := or_string (Config.user config) "root";
     opt_password := Config.password config;
     opt_password1 := Config.password1 config;
     opt_password2 := Config.password2 config;
     opt_password3 := Config.password3 config;
     opt_enableKeepAlive := true;
     opt_keepAliveInitialDelay := 5000;
     opt_ssl := Config.ssl config;
     opt_localAddress := Config.localAddress config;
     opt_socketPath := Config.socketPath config;
     opt_insecureAuth := or_bool (Config.insecureAuth config) false;
     opt_isServer := or_bool (Config.isServer config) false |}.

(** A connection handle: the options it was opened with, and an identity. *)
Record sqlConnection : Type := {
  conn_id : nat;
  conn_options : ConnectionOptions
}.

(** The database a handle talks to. *)
Definition target_of (c : sqlConnection) : string * Z * string :=
  (opt_host (conn_options c), opt_port (conn_options c),
   opt_database (conn_options c)).

(* ===================================================================== *)
(** ** Statements, result sets and the server *)
(* ===================================================================== *)

(** The statements the module sends, by their SQL text. *)
Inductive statement : Type :=
| CreateTable (tbl : string)
    (* CREATE TABLE IF NOT EXISTS `tbl` (`id` VARCHAR(80) NOT NULL PRIMARY KEY,
       `value` JSON DEFAULT NULL) ENGINE=MyISAM *)
| Select (tbl id : string)
    (* SELECT value FROM tbl WHERE id = ? *)
| Upsert (tbl id : string) (inserted updated : text)
    (* INSERT INTO tbl (id, value) VALUES (?, ?) ON DUPLICATE KEY UPDATE value = ? *)
| Delete (tbl id : string)
    (* DELETE FROM tbl WHERE id = ? *)
| DeleteOthers (tbl : string)
    (* DELETE FROM tbl WHERE id != 'creds' *)
| DeleteAll (tbl : string)
    (* DELETE FROM tbl *)
| DropTable (tbl : string)
    (* DROP TABLE IF EXISTS tbl *)
| Raw (sql : string) (values : list string).
    (* any other text, through the exported [query] *)

(** What the driver hands back for the [value] column of a row. *)
Inductive cell : Type :=
| CNull                 (* SQL NULL, or the JSON document null once parsed *)
| CStr (t : text)       (* a string: the column as raw text, or a parsed JSON string *)
| CData (d : json).     (* parsed structured data, a number or a boolean *)

(** [sqlData]: the rows of a SELECT, or the header of a statement that
    returns no rows. *)
Inductive sqlData : Type :=
| RowSet (rows : list (list (string * cell)))
| ResultSetHeader.

Inductive error : Type :=
| ConnectionError
| QueryError
| SyntaxError
| TypeError.

Inductive result (A : Type) : Type :=
| Ok (a : A)
| Throw (e : error).
Arguments Ok {A} a.
Arguments Throw {A} e.

(** The results of a list of computations, or the first throw. *)
Fixpoint collect {A : Type} (l : list (result A)) : result (list A) :=
  match l with
  | [] => Ok []
  | Ok a :: r =>
      match collect r with
      | Ok l' => Ok (a :: l')
      | Throw e => Throw e
      end
  | Throw e :: _ => Throw e
  end.

(** The calls that leave the process. *)
Inductive event : Type :=
| EvConnect (o : ConnectionOptions) (ok : bool)
    (* createConnection(o) *)
| EvStatement (c : nat) (s : statement) (outcome : option sqlData)
    (* one statement sent on handle c; [None] when the driver throws *)
| EvSleep (ms : Z).
    (* setTimeout(r, ms) *)

(** A table of the schema above: the [value] column by [id]; [None] is SQL
    NULL.  The server is a map from (host, port, database, table name). *)
Abbreviation table := (gmap string (option json)).
Abbreviation tables := (gmap (string * Z * string * string) (gmap string (option json))).

(** The state the code runs in. *)
Record world : Type := {
  conn : option sqlConnection;   (* the module-level [let conn] *)
  next_id : nat;                 (* identity of the next handle *)
  closing : list nat;            (* handles whose [_closing] flag is set *)
  server : tables;
  json_as_text : bool;           (* the driver returns JSON columns unparsed *)
  refused : list bool;           (* the coming [createConnection] calls that fail *)
  faults : list bool;            (* the coming statements the driver throws on *)
  thereafter : bool;             (* ... and every one after those *)
  entropy : nat;                 (* the randomness [initAuthCreds] draws on *)
  trace : list event
}.

Definition set_conn (c : option sqlConnection) (w : world) : world :=
  {| conn := c; next_id := next_id w; closing := closing w;
     server := server w; json_as_text := json_as_text w;
     refused := refused w; faults := faults w; thereafter := thereafter w;
     entropy := entropy w; trace := trace w |}.

Definition set_next_id (n : nat) (w : world) : world :=
  {| conn := conn w; next_id := n; closing := closing w;
     server := server w; json_as_text := json_as_text w;
     refused := refused w; faults := faults w; thereafter := thereafter w;
     entropy := entropy w; trace := trace w |}.

Definition set_server (db : tables) (w : world) : world :=
  {| conn := conn w; next_id := next_id w; closing := closing w;
     server := db; json_as_text := json_as_text w;
     refused := refused w; faults := faults w; thereafter := thereafter w;
     entropy := entropy w; trace := trace w |}.

Definition set_refused (l : list bool) (w : world) : world :=
  {| conn := conn w; next_id := next_id w; closing := closing w;
     server := server w; json_as_text := json_as_text w;
     refused := l; faults := faults w; thereafter := thereafter w;
     entropy := entropy w; trace := trace w |}.

Definition set_faults (l : list bool) (w : world) : world :=
  {| conn := conn w; next_id := next_id w; closing := closing w;
     server := server w; json_as_text := json_as_text w;
     refused := refused w; faults := l; thereafter := thereafter w;
     entropy := entropy w; trace := trace w |}.

Definition set_entropy (n : nat) (w : world) : world :=
  {| conn := conn w; next_id := next_id w; closing := closing w;
     server := server w; json_as_text := json_as_text w;
     refused := refused w; faults := faults w; thereafter := thereafter w;
     entropy := n; trace := trace w |}.

Definition emit (e : event) (w : world) : world :=
  {| conn := conn w; next_id := next_id w; closing := closing w;
     server := server w; json_as_text := json_as_text w;
     refused := refused w; faults := faults w; thereafter := thereafter w;
     entropy := entropy w; trace := trace w ++ [e] |}.

(* ===================================================================== *)
(** ** Asynchronous code as state passing *)
(* ===================================================================== *)

(** An [async] function: it runs from a world, ends in a world, and either
    returns or throws.  What it did before throwing stays done. *)
Definition M (A : Type) : Type := world -> result A * world.

Definition ret {A : Type} (a : A) : M A := fun w => (Ok a, w).

Definition throw {A : Type} (e : error) : M A := fun w => (Throw e, w).

(** A computation that touches nothing. *)
Definition lift {A : Type} (r : result A) : M A := fun w => (r, w).

Definition bind {A B : Type} (m : M A) (k : A -> M B) : M B :=
  fun w =>
    match m w with
    | (Ok a, w') => k a w'
    | (Throw e, w') => (Throw e, w')
    end.

(** [try { m } catch (e) { h }]. *)
Definition try_catch {A : Type} (m : M A) (h : error -> M A) : M A :=
  fun w =>
    match m w with
    | (Ok a, w') => (Ok a, w')
    | (Throw e, w') => h e w'
    end.

Notation "'let*' x ':=' m 'in' k" := (bind m (fun x => k))
  (at level 10, x name, m at level 100, k at level 200).

(* ===================================================================== *)
(** ** What the module takes from outside *)
(* ===================================================================== *)

(** Code the module calls and that is not its own: the server's reading of
    SQL text other than the statements above, the engine's [JSON.parse] on
    strings that did not come out of [JSON.stringify] (the string of a
    plain object, ["[object Object]"], is no JSON text), the engine's
    conversion to a number of a value that is not one, [Buffer.from] on an
    object that is neither an array nor a [Buffer], and the two helpers
    imported from [../Utils].  [initAuthCreds] is declared to return an
    [AuthenticationCreds] object, so it is given by the fields of that
    object, drawn from the randomness it is run with. *)
Class Externals : Type := {
  raw_sql : string * Z * string -> string -> list string -> tables ->
            option (sqlData * tables);
  JSON_parse_string : string -> option json;
  JSON_parse_object_string : JSON_parse_string "[object Object]" = None;
  ToNumber : value -> Z;
  Buffer_from_object : list (string * value) -> result (list byte);
  fromObject : value -> value;
  initAuthCreds_fields : nat -> list (string * value)
}.

(* ===================================================================== *)
(** ** The codec ([BufferJSON], from [../Utils]) *)
(* ===================================================================== *)

Section Codec.

Context `{Externals}.

(** The byte an element of an array becomes in [Buffer.from(array)]: its
    number, wrapped to 0..255. *)
Definition to_uint8 (v : value) : byte :=
  Base64.byte_of
    (Z.to_nat ((match v with VNum n => n | _ => ToNumber v end) mod 256)).

(** [Buffer.from(array)]. *)
Definition Buffer_from_array (items : list value) : list byte :=
  map to_uint8 items.

(** [Buffer.prototype.toJSON()]: the bytes as an array of numbers, under
    the type ['Buffer']. *)
Definition Buffer_toJSON (b : list byte) : list (string * value) :=
  [("type", VStr "Buffer");
   ("data", VArr (map (fun x => VNum (Z.of_nat (Byte.to_nat x))) b))].

(** What [JSON.stringify] hands to its replacer for a value: the value, or
    the result of its [toJSON] method when it has one, as a byte sequence
    has. *)
Definition toJSON (v : value) : value :=
  match v with
  | VBuf b => VObj (Buffer_toJSON b)
  | _ => v
  end.

(** Modelled from the spec: how the codec of [../Utils] knows the marker
    of section 4.1, and what [toJSON] makes of a byte sequence: by
    [o.type === 'Buffer']. *)
Definition tagged (fields : list (string * value)) : bool :=
  match assoc "type" fields with
  | Some (VStr t) => String.eqb t "Buffer"
  | _ => false
  end.

(** Modelled from the spec: the object of section 4.1 that stands for a
    raw byte sequence in the stored text, "a recognizable marker object
    containing the encoded bytes".  The encoding is base64. *)
Definition marker (b : list byte) : list (string * value) :=
  [("type", VStr "Buffer"); ("data", VStr (Base64.encode b))].

(** Modelled from the spec: what [BufferJSON.replacer] of [../Utils], a
    file of this repository that is not under [src/], takes for a raw byte
    sequence.  The replacer is called with what [toJSON] made of the byte
    sequence, so it knows one by the type ['Buffer'] over an array of
    bytes, and any object of that form is a byte sequence to it. *)
Definition replaced_bytes (v : value) : option (list byte) :=
  match v with
  | VObj fields =>
      match assoc "data" fields with
      | Some (VArr items) =>
          if tagged fields then Some (Buffer_from_array items) else None
      | _ => None
      end
  | _ => None
  end.

(** Modelled from the spec: [BufferJSON.replacer].  Section 4.1: a raw
    byte sequence is tagged with the marker object; everything else is left
    as it is. *)
Definition BufferJSON_replacer (v : value) : value :=
  match replaced_bytes v with
  | Some b => VObj (marker b)
  | None => v
  end.

(** [Buffer.from(data, 'base64')], as the reviver calls it on the [data]
    of a marker: a string is decoded, an array and a [Buffer] are taken byte
    by byte, and [undefined], [null], a number and a boolean are refused
    with a TypeError. *)
Definition Buffer_from (data : option value) : result value :=
  match data with
  | Some (VStr s) => Ok (VBuf (Base64.decode s))
  | Some (VArr items) => Ok (VBuf (Buffer_from_array items))
  | Some (VBuf b) => Ok (VBuf b)
  | Some (VObj fields) =>
      match Buffer_from_object fields with
      | Ok b => Ok (VBuf b)
      | Throw e => Throw e
      end
  | _ => Throw TypeError
  end.

(** Modelled from the spec: [BufferJSON.reviver] of [../Utils].  Section
    4.1: deserialization "must detect this marker and reconstruct the
    original byte sequence"; "no error is raised for values without
    markers; they pass through as plain structured data".  The marker is
    known by its type ['Buffer']. *)
Definition BufferJSON_reviver (v : value) : result value :=
  match v with
  | VObj fields => if tagged fields then Buffer_from (assoc "data" fields) else Ok v
  | _ => Ok v
  end.

(** [JSON.stringify(value)] with no replacer.  A [Buffer] prints through
    its [toJSON], as the list of its bytes. *)
Fixpoint plain (v : value) : json :=
  match v with
  | VNull => JNull
  | VBool b => JBool b
  | VNum n => JNum n
  | VStr s => JStr s
  | VArr l => JArr (map plain l)
  | VObj f => JObj (map (fun kv => (fst kv, plain (snd kv))) f)
  | VBuf b =>
      JObj [("type", JStr "Buffer");
            ("data", JArr (map (fun x => JNum (Z.of_nat (Byte.to_nat x))) b))]
  end.

(** [JSON.stringify(value, BufferJSON.replacer)].  Every value, from the
    top down, goes through its [toJSON] and then through the replacer
    before it is printed; the marker the replacer returns is printed as it
    is (its two fields are strings, which the replacer leaves). *)
Fixpoint stringify (v : value) : json :=
  match replaced_bytes (toJSON v) with
  | Some b => plain (VObj (marker b))
  | None =>
      match v with
      | VArr l => JArr (map stringify l)
      | VObj f => JObj (map (fun kv => (fst kv, stringify (snd kv))) f)
      | _ => plain v
      end
  end.

Definition JSON_stringify_replacer (v : value) : text := Text (stringify v).

(** [JSON.stringify(x)] with no replacer, on parsed structured data. *)
Definition JSON_stringify (d : json) : text := Text d.

(** The value [JSON.parse(text, reviver)] builds from a document: the
    reviver is applied bottom-up, to the children first, and what it
    throws is thrown by [JSON.parse]. *)
Fixpoint revive (reviver : value -> result value) (d : json) : result value :=
  match d with
  | JNull => reviver VNull
  | JBool b => reviver (VBool b)
  | JNum n => reviver (VNum n)
  | JStr s => reviver (VStr s)
  | JArr l =>
      match collect (map (revive reviver) l) with
      | Ok items => reviver (VArr items)
      | Throw e => Throw e
      end
  | JObj f =>
      match
        collect
          (map (fun kv =>
                  match revive reviver (snd kv) with
                  | Ok v => Ok (fst kv, v)
                  | Throw e => Throw e
                  end) f)
      with
      | Ok fields => reviver (VObj fields)
      | Throw e => Throw e
      end
  end.

(** The values the codec is injective on: no plain object inside has the
    type ['Buffer']. *)
Fixpoint marker_free (v : value) : bool :=
  match v with
  | VArr l => forallb marker_free l
  | VObj f => negb (tagged f) && forallb (fun kv => marker_free (snd kv)) f
  | _ => true
  end.

(** [typeof v === 'object'] for a non-null value. *)
Definition is_object (v : value) : bool :=
  match v with
  | VArr _ | VObj _ | VBuf _ => true
  | _ => false
  end.

End Codec.

Section Model.

Context `{Externals}.

(* ------------------------------------------------------------------- *)
(** *** The server and the driver *)

(** What the driver returns for a stored column. *)
Definition cell_of (unparsed : bool) (stored : option json) : cell :=
  match stored with
  | None => CNull
  | Some d =>
      if unparsed then CStr (Text d)
      else match d with
           | JNull => CNull
           | JStr s => CStr (Chars s)
           | _ => CData d
           end
  end.

(** [JSON.parse] with no reviver; [None] when it throws a SyntaxError. *)
Definition JSON_parse_plain (t : text) : option json :=
  match t with
  | Text d => Some d
  | Chars s => JSON_parse_string s
  end.

(** The server runs one statement on the database [t]; [None] is an SQL
    error.  Every statement but the two on the table itself fails when the
    table does not exist; an [id] longer than the column is refused; a
    text that is not JSON is refused by the JSON column.  Ids are compared
    character by character, and a document is kept as it was sent: the
    collation of the server and the layout it gives to a stored document
    are outside the module. *)
Definition run (unparsed : bool) (t : string * Z * string) (s : statement)
    (db : tables) : option (sqlData * tables) :=
  match s with
  | CreateTable tbl =>
      match db !! (t, tbl) with
      | Some _ => Some (ResultSetHeader, db)
      | None => Some (ResultSetHeader, <[(t, tbl) := ∅]> db)
      end
  | Select tbl id =>
      match db !! (t, tbl) with
      | Some rows =>
          match rows !! id with
          | Some stored => Some (RowSet [[("value", cell_of unparsed stored)]], db)
          | None => Some (RowSet [], db)
          end
      | None => None
      end
  | Upsert tbl id inserted updated =>
      match db !! (t, tbl) with
      | Some rows =>
          if (String.length id <=? 80)%nat then
            match JSON_parse_plain
                    (match rows !! id with Some _ => updated | None => inserted end)
            with
            | Some d => Some (ResultSetHeader, <[(t, tbl) := <[id := Some d]> rows]> db)
            | None => None
            end
          else None
      | None => None
      end
  | Delete tbl id =>
      match db !! (t, tbl) with
      | Some rows => Some (ResultSetHeader, <[(t, tbl) := delete id rows]> db)
      | None => None
      end
  | DeleteOthers tbl =>
      match db !! (t, tbl) with
      | Some rows =>
          Some (ResultSetHeader,
                <[(t, tbl) := filter (fun kv => fst kv = "creds") rows]> db)
      | None => None
      end
  | DeleteAll tbl =>
      match db !! (t, tbl) with
      | Some rows => Some (ResultSetHeader, <[(t, tbl) := ∅]> db)
      | None => None
      end
  | DropTable tbl => Some (ResultSetHeader, delete (t, tbl) db)
  | Raw sql values => raw_sql t sql values db
  end.

Definition is_closing (c : sqlConnection) (w : world) : bool :=
  existsb (Nat.eqb (conn_id c)) (closing w).

(** The next statement's fault, taken off the script. *)
Definition next_fault (w : world) : bool * world :=
  match faults w with
  | b :: l => (b, set_faults l w)
  | [] => (thereafter w, w)
  end.

(** One statement on a handle ([conn.execute], [sqlConn.query]).  It
    throws when the handle is closed, when the environment injects a
    fault, and when the server reports an error. *)
Definition send (c : sqlConnection) (s : statement) : M sqlData :=
  fun w =>
    if is_closing c w then
      (Throw QueryError, emit (EvStatement (conn_id c) s None) w)
    else
      let (fault, w1) := next_fault w in
      if fault then
        (Throw QueryError, emit (EvStatement (conn_id c) s None) w1)
      else
        match run (json_as_text w1) (target_of c) s (server w1) with
        | Some (r, db) =>
            (Ok r, emit (EvStatement (conn_id c) s (Some r)) (set_server db w1))
        | None =>
            (Throw QueryError, emit (EvStatement (conn_id c) s None) w1)
        end.

(** [createConnection(o)]: a fresh handle, or a throw. *)
Definition createConnection (o : ConnectionOptions) : M sqlConnection :=
  fun w =>
    match refused w with
    | true :: l =>
        (Throw ConnectionError, emit (EvConnect o false) (set_refused l w))
    | _ =>
        let c := {| conn_id := next_id w; conn_options := o |} in
        (Ok c, emit (EvConnect o true)
                 (set_next_id (S (next_id w)) (set_refused (tl (refused w)) w)))
    end.

(** [await new Promise(r => setTimeout(r, ms))]. *)
Definition sleep (ms : Z) : M unit :=
  fun w => (Ok tt, emit (EvSleep ms) w).

(* ------------------------------------------------------------------- *)
(** *** The connection manager *)

(** [!!conn?.connection?._closing]. *)
Definition ended (w : world) : bool :=
  match conn w with
  | Some c => is_closing c w
  | None => false
  end.

(** The handle the module-level [conn] holds when the code uses it.  It
    is used only where it is defined: behind the test [conn === undefined]
    or behind an assignment, and nothing ever unsets it. *)
Definition the_conn : M sqlConnection :=
  fun w =>
    match conn w with
    | Some c => (Ok c, w)
    | None => (Throw TypeError, w)
    end.

(** [conn = await createConnection({...})]. *)
Definition assign_conn (config : Config.t) : M unit :=
  let* c := createConnection (connection_options config) in
  fun w => (Ok tt, set_conn (Some c) w).

(** [await conn.execute(`CREATE TABLE IF NOT EXISTS ...`)]. *)
Definition create_table (config : Config.t) (c : sqlConnection) : M unit :=
  let* _ := send c (CreateTable (or_string (Config.tableName config) "auth")) in
  ret tt.

(** A call of [connection] that no other call of [connection] overlaps:
    nothing else runs at its [await]s. *)
Definition connection (config : Config.t) (force : bool) : M sqlConnection :=
  fun w =>
    let ended := ended w in
    let newConnection := match conn w with None => true | Some _ => false end in
    (let* _ := (if newConnection || ended || force then
                  let* _ := assign_conn config in
                  if newConnection then
                    let* c := the_conn in
                    create_table config c
                  else ret tt
                else ret tt) in
     the_conn) w.

(** Where a call of [connection] stands.  At each [await] the call stops
    and whatever else is running goes on, other calls of [connection]
    included, until the promise it waits for settles. *)
Inductive connecting : Type :=
| Creating (newConnection : bool)
    (* at [await createConnection({...})] *)
| Executing (c : sqlConnection)
    (* at [await conn.execute(...)], which was called on [c] *)
| Returned (c : sqlConnection).
    (* the call has returned [c] *)

(** The call from its start to its first [await], or to its [return]
    when it needs no new handle. *)
Definition connection_enter (config : Config.t) (force : bool) : M connecting :=
  fun w =>
    let ended := ended w in
    let newConnection := match conn w with None => true | Some _ => false end in
    if newConnection || ended || force then (Ok (Creating newConnection), w)
    else (let* c := the_conn in ret (Returned c)) w.

(** The call from the [await] it stands at, once that promise has
    settled, to its next [await] or to its [return]. *)
Definition connection_resume (config : Config.t) (at_await : connecting)
  : M connecting :=
  match at_await with
  | Creating newConnection =>
      let* _ := assign_conn config in
      let* c := the_conn in
      if newConnection then ret (Executing c) else ret (Returned c)
  | Executing c =>
      let* _ := create_table config c in
      let* c' := the_conn in
      ret (Returned c')
  | Returned c => ret (Returned c)
  end.


(* ------------------------------------------------------------------- *)
(** *** The closures of [useMySQLAuthState] *)

(** The constants the closures capture. *)
Record scope : Type := {
  sqlConn : sqlConnection;
  tableName : string;
  retryRequestDelayMs : Z;
  maxtRetries : Z
}.

Definition scope_of (config : Config.t) (c : sqlConnection) : scope :=
  {| sqlConn := c;
     tableName := or_string (Config.tableName config) "auth";
     retryRequestDelayMs := or_number (Config.retryRequestDelayMs config) 200;
     maxtRetries := or_number (Config.maxtRetries config) 10 |}.

(** The body of [for (let x = 0; x < maxtRetries; x++)], with [n] the
    number of iterations still to run. *)
Fixpoint query_loop (sc : scope) (n : nat) (sql : statement) : M sqlData :=
  match n with
  | O => ret (RowSet [])
  | S n' =>
      try_catch (send (sqlConn sc) sql)
        (fun _ =>
           let* _ := sleep (retryRequestDelayMs sc) in
           query_loop sc n' sql)
  end.

Definition query (sc : scope) (sql : statement) : M sqlData :=
  query_loop sc (Z.to_nat (maxtRetries sc)) sql.

(** [data[0]?.value]; [None] is [undefined]. *)
Definition first_value (data : sqlData) : option cell :=
  match data with
  | RowSet (r :: _) => assoc "value" r
  | _ => None
  end.

(** [!x] on a cell. *)
Definition cell_truthy (c : cell) : bool :=
  match c with
  | CNull => false
  | CStr (Text _) => true
  | CStr (Chars s) => negb (String.eqb s "")
  | CData d => json_truthy d
  end.

(** [typeof x === 'object']. *)
Definition typeof_object (c : cell) : bool :=
  match c with
  | CNull => true
  | CStr _ => false
  | CData d =>
      match d with
      | JNull | JArr _ | JObj _ => true
      | _ => false
      end
  end.

(** The document of a cell that holds parsed data. *)
Definition parsed (c : cell) : json :=
  match c with
  | CData d => d
  | _ => JNull
  end.

(** An integer in decimal notation. *)
Definition decimal (n : Z) : string := NilZero.string_of_int (Z.to_int n).

(** [String(x)] of an element of an array, as [Array.prototype.join]
    takes it: nothing for [null]. *)
Fixpoint element_string (d : json) : string :=
  match d with
  | JNull => ""
  | JBool true => "true"
  | JBool false => "false"
  | JNum n => decimal n
  | JStr s => s
  | JArr l => String.concat "," (map element_string l)
  | JObj _ => "[object Object]"
  end.

(** The string [JSON.parse] reads in its argument: a string as it is,
    anything else through [String(x)].  The string of a number or of a
    boolean is its JSON text; the string of an object is
    ["[object Object]"] and that of an array joins its elements with
    commas, neither of which is the text of that object or array. *)
Definition ToString (c : cell) : text :=
  match c with
  | CNull => Text JNull
  | CStr t => t
  | CData (JObj _) => Chars "[object Object]"
  | CData (JArr l) => Chars (String.concat "," (map element_string l))
  | CData (JStr s) => Chars s
  | CData d => Text d
  end.

(** [typeof x === 'object' ? JSON.stringify(x) : x]. *)
Definition raw_of (c : cell) : cell :=
  if typeof_object c then CStr (JSON_stringify (parsed c)) else c.

(** [JSON.parse(raw, BufferJSON.reviver)]. *)
Definition JSON_parse_reviver (raw : cell) : result value :=
  match JSON_parse_plain (ToString raw) with
  | Some d => revive BufferJSON_reviver d
  | None => Throw SyntaxError
  end.

Definition readData (sc : scope) (id : string) : M value :=
  let* data := query sc (Select (tableName sc) id) in
  match first_value data with
  | Some c =>
      if cell_truthy c then lift (JSON_parse_reviver (raw_of c)) else ret VNull
  | None => ret VNull
  end.

Definition writeData (sc : scope) (id : string) (v : value) : M unit :=
  let valueFixed := JSON_stringify_replacer v in
  let* _ := query sc (Upsert (tableName sc) id valueFixed valueFixed) in
  ret tt.

Definition removeData (sc : scope) (id : string) : M unit :=
  let* _ := query sc (Delete (tableName sc) id) in
  ret tt.

Definition clearAll (sc : scope) : M unit :=
  let* _ := query sc (DeleteOthers (tableName sc)) in
  ret tt.

Definition removeAll (sc : scope) : M unit :=
  let* _ := query sc (DeleteAll (tableName sc)) in
  ret tt.

(** Modelled from the spec: [initAuthCreds] of [../Utils], which is not
    under [src/].  Section 4.5: it "synthesizes a fresh default credential
    bundle"; the bundle is an object, whose fields are left open, and each
    call draws new randomness. *)
Definition initAuthCreds : M value :=
  fun w => (Ok (VObj (initAuthCreds_fields (entropy w))),
            set_entropy (S (entropy w)) w).

(* ------------------------------------------------------------------- *)
(** *** The facade *)

(** The object [useMySQLAuthState] returns: the constants its closures
    capture, the in-memory credentials (the property [state.creds]), and
    the constant [creds] of line 95 as the closure of [saveCreds] holds
    it.  The property is set to the constant, so both are one object and an
    update made in place shows in both; the caller may also assign another
    bundle to [state.creds], which leaves the constant as it is. *)
Record AuthState : Type := {
  closure : scope;
  creds : value;
  captured_creds : value
}.

Definition useMySQLAuthState (config : Config.t) : M AuthState :=
  let* sqlConn := connection config false in
  let sc := scope_of config sqlConn in
  let* stored := readData sc "creds" in
  let* creds := (if truthy stored then ret stored else initAuthCreds) in
  ret {| closure := sc; creds := creds; captured_creds := creds |}.

(** [data[id] = value] on an object made by [{}], given by its own
    entries.  The assignment adds or replaces the entry [id], except for
    the id ["__proto__"]: that name is the accessor of the prototype, the
    assignment goes to the accessor and the object gets no entry. *)
Definition assign (id : string) (v : value) (data : gmap string value)
  : gmap string value :=
  if String.eqb id "__proto__" then data else <[id := v]> data.

(** [state.keys.get(type, ids)]: the loop over [ids], filling [data]. *)
Fixpoint keys_get_loop (sc : scope) (type : string) (ids : list string)
    (data : gmap string value) : M (gmap string value) :=
  match ids with
  | [] => ret data
  | id :: ids' =>
      let* value := readData sc (type ++ "-" ++ id) in
      let value :=
        if String.eqb type "app-state-sync-key" && truthy value
        then fromObject value else value in
      keys_get_loop sc type ids' (assign id value data)
  end.

Definition keys_get (st : AuthState) (type : string) (ids : list string)
  : M (gmap string value) :=
  keys_get_loop (closure st) type ids ∅.

(** [state.keys.set(data)]: the inner loop, over the ids of a category.
    An object is given by its properties in the order [for ... in]
    enumerates them. *)
Fixpoint keys_set_category (sc : scope) (category : string)
    (entries : list (string * value)) : M unit :=
  match entries with
  | [] => ret tt
  | (id, value) :: entries' =>
      let key := category ++ "-" ++ id in
      let* _ := (if truthy value then writeData sc key value
                 else removeData sc key) in
      keys_set_category sc category entries'
  end.

Fixpoint keys_set_loop (sc : scope)
    (data : list (string * list (string * value))) : M unit :=
  match data with
  | [] => ret tt
  | (category, entries) :: data' =>
      let* _ := keys_set_category sc category entries in
      keys_set_loop sc data'
  end.

Definition keys_set (st : AuthState)
    (data : list (string * list (string * value))) : M unit :=
  keys_set_loop (closure st) data.

Definition saveCreds (st : AuthState) : M unit :=
  writeData (closure st) "creds" (captured_creds st).

Definition clear (st : AuthState) : M unit := clearAll (closure st).

Definition removeCreds (st : AuthState) : M unit := removeAll (closure st).

Definition dropTable (st : AuthState) : M unit :=
  let* _ := query (closure st) (DropTable (tableName (closure st))) in
  ret tt.

End Model.

(* ===================================================================== *)
(** ** Vocabulary of the properties *)
(* ===================================================================== *)

Section Vocabulary.

Context `{Externals}.

(** The table a store reads and writes, if it exists. *)
Definition table_at (sc : scope) (w : world) : option table :=
  server w !! (target_of (sqlConn sc), tableName sc).

(** What the driver would return for the row [id] of the store's table. *)
Definition stored_cell (sc : scope) (id : string) (w : world) : option cell :=
  match table_at sc w with
  | Some rows =>
      match rows !! id with
      | Some stored => Some (cell_of (json_as_text w) stored)
      | None => None
      end
  | None => None
  end.

(** What [read(id)] returns from a store that works: [null] for no row
    and for an empty value, the decoded row otherwise. *)
Definition read_result (sc : scope) (id : string) (w : world) : result value :=
  match stored_cell sc id w with
  | Some c => if cell_truthy c then JSON_parse_reviver (raw_of c) else Ok VNull
  | None => Ok VNull
  end.

(** Two worlds of one process in front of one environment: they differ
    at most in the server's tables, the faults still to come and the
    trace. *)
Definition same_process (w w' : world) : Prop :=
  conn w' = conn w /\ next_id w' = next_id w /\ closing w' = closing w /\
  json_as_text w' = json_as_text w /\ refused w' = refused w /\
  thereafter w' = thereafter w /\ entropy w' = entropy w.

(** No run of [n] consecutive faults is scripted; [cur] faults of the
    current run have been seen. *)
Fixpoint runs_below (n cur : nat) (l : list bool) : bool :=
  match l with
  | [] => true
  | true :: l' => (S cur <? n)%nat && runs_below n (S cur) l'
  | false :: l' => runs_below n 0 l'
  end.

(** The store works: its handle is open, its table exists, and the
    driver never fails as many times in a row as the executor tries. *)
Definition healthy (sc : scope) (w : world) : bool :=
  negb (is_closing (sqlConn sc) w)
  && (0 <? maxtRetries sc)
  && runs_below (Z.to_nat (maxtRetries sc)) 0 (faults w)
  && negb (thereafter w)
  && match table_at sc w with Some _ => true | None => false end.

(** Every statement sent on the store's handle fails, now and later: the
    handle is closed, or the driver faults on each one. *)
Definition unreachable (sc : scope) (w : world) : bool :=
  is_closing (sqlConn sc) w || (forallb id (faults w) && thereafter w).

(** [k] failed attempts of [sql] on the handle [c], each followed by a
    wait of [ms]. *)
Fixpoint failed_attempts (c : nat) (ms : Z) (sql : statement) (k : nat)
  : list event :=
  match k with
  | O => []
  | S k' => EvStatement c sql None :: EvSleep ms :: failed_attempts c ms sql k'
  end.

(** The string holds the separator of [`${category}-${id}`]. *)
Fixpoint has_dash (s : string) : bool :=
  match s with
  | EmptyString => false
  | String c s' => Ascii.eqb c "-"%char || has_dash s'
  end.

(** The statements of the facade that are not the write of [saveCreds]:
    no write to the id ["creds"], and no SQL text of the caller's. *)
Definition spares_creds (sql : statement) : Prop :=
  match sql with
  | Upsert _ id _ _ => id <> "creds"
  | Raw _ _ => False
  | _ => True
  end.

(** The mapping [keys.get] returns when every read gives [null]. *)
Definition all_null (ids : list string) : gmap string value :=
  foldl (fun data id => assign id VNull data) ∅ ids.

(** The handle is open and the driver never fails as many times in a row
    as the executor tries: every statement the server accepts gets
    through. *)
Definition steady (sc : scope) (w : world) : bool :=
  negb (is_closing (sqlConn sc) w)
  && (0 <? maxtRetries sc)
  && runs_below (Z.to_nat (maxtRetries sc)) 0 (faults w)
  && negb (thereafter w).

(** What [keys.get] puts in its result for a value it read: the value,
    through [fromObject] when the type is ['app-state-sync-key'] and the
    value is truthy. *)
Definition keys_get_value (type : string) (v : value) : value :=
  if String.eqb type "app-state-sync-key" && truthy v then fromObject v else v.

(** What [keys.get] puts in its result for [id] on a store that works. *)
Definition keys_get_entry (sc : scope) (type : string) (w : world) (id : string)
  : value :=
  match read_result sc (type ++ "-" ++ id) w with
  | Ok v => keys_get_value type v
  | Throw _ => VNull
  end.


(** The handle the next successful [createConnection] returns. *)
Definition fresh_handle (config : Config.t) (w : world) : sqlConnection :=
  {| conn_id := next_id w; conn_options := connection_options config |}.

(** The world after [conn = await createConnection({...})] went through. *)
Definition connected (config : Config.t) (w : world) : world :=
  set_conn (Some (fresh_handle config w))
    (emit (EvConnect (connection_options config) true)
       (set_next_id (S (next_id w)) (set_refused (tl (refused w)) w))).

(** The calls of [createConnection] in a trace. *)
Fixpoint connects (l : list event) : nat :=
  match l with
  | [] => O
  | EvConnect _ _ :: l' => S (connects l')
  | _ :: l' => connects l'
  end.

(** A step of the process that leaves the connection alone: the
    module-level handle, the handles' flags and what the environment holds
    in store for connections are as before, and no [createConnection] was
    called. *)
Definition quiet (w w' : world) : Prop :=
  same_process w w' /\ connects (trace w') = connects (trace w).

(** An operation that leaves the connection alone, however it ends. *)
Definition Quiet {A : Type} (m : M A) : Prop :=
  forall w, quiet w (snd (m w)).

End Vocabulary.

(* ===================================================================== *)
(** ** Scenarios *)
(* ===================================================================== *)

(** A setting to run the model in: a server that refuses any SQL text it
    does not know, an engine that parses no stray string, counts what is
    not a number as 0 and makes a [Buffer] of no plain object, the identity
    for [fromObject], and a two-field credential bundle. *)
Definition plain_externals : Externals :=
  {| raw_sql := fun _ _ _ _ => None;
     JSON_parse_string := fun _ => None;
     JSON_parse_object_string := eq_refl;
     ToNumber := fun _ => 0;
     Buffer_from_object := fun _ => Throw TypeError;
     fromObject := fun v => v;
     initAuthCreds_fields := fun n =>
       [("registrationId", VNum (Z.of_nat n)); ("noiseKey", VBuf [x01; x02; xff])] |}.

Definition no_config : Config.t :=
  {| Config.database := None; Config.host := None; Config.port := None;
     Config.user := None; Config.password := None; Config.password1 := None;
     Config.password2 := None; Config.password3 := None; Config.ssl := None;
     Config.localAddress := None; Config.socketPath := None;
     Config.insecureAuth := None; Config.isServer := None;
     Config.tableName := None; Config.retryRequestDelayMs := None;
     Config.maxtRetries := None |}.

Definition config_for (h : string) : Config.t :=
  {| Config.database := None; Config.host := Some h; Config.port := None;
     Config.user := None; Config.password := None; Config.password1 := None;
     Config.password2 := None; Config.password3 := None; Config.ssl := None;
     Config.localAddress := None; Config.socketPath := None;
     Config.insecureAuth := None; Config.isServer := None;
     Config.tableName := None; Config.retryRequestDelayMs := None;
     Config.maxtRetries := None |}.

(** A process that has opened nothing, in front of an empty server; the
    first statements fail as scripted. *)
Definition boot (script : list bool) : world :=
  {| conn := None; next_id := 0; closing := []; server := ∅;
     json_as_text := false; refused := []; faults := script;
     thereafter := false; entropy := 7; trace := [] |}.

(** The store and the world after [useMySQLAuthState] on [boot]. *)
Definition opened (config : Config.t) (script : list bool)
  : result AuthState * world :=
  @useMySQLAuthState plain_externals config (boot script).

(** The handle the first open creates, and the store it returns. *)
Definition first_handle (config : Config.t) : sqlConnection :=
  {| conn_id := 0; conn_options := connection_options config |}.

Definition first_scope : scope := scope_of no_config (first_handle no_config).

Definition first_store : AuthState :=
  {| closure := first_scope;
     creds := VObj (initAuthCreds_fields (Externals := plain_externals) 7);
     captured_creds :=
       VObj (initAuthCreds_fields (Externals := plain_externals) 7) |}.

(** The world after the first open went through, with [script] the faults
    of the statements to come. *)
Definition ready (script : list bool) : world :=
  set_faults script (snd (opened no_config [])).

(** The same, with the driver failing on every statement from now on. *)
Definition outage : world :=
  {| conn := conn (ready []); next_id := next_id (ready []);
     closing := []; server := server (ready []);
     json_as_text := false; refused := []; faults := [true; true];
     thereafter := true; entropy := entropy (ready []); trace := [] |}.

(** A bundle of key material: nested objects, byte sequences, scalars. *)
Definition sample : value :=
  VObj [("keyPair", VObj [("public", VBuf [x05; xa0; x00; xff]);
                          ("private", VBuf [x10; x20; x30; x40; x50])]);
        ("registrationId", VNum 42);
        ("label", VStr "primary");
        ("history", VArr [VNull; VBool true; VBuf []])].

(** The world after [sample] was written under ["pre-key-17"] and the
    credentials were saved; [script] as in [ready]. *)
Definition stocked (script : list bool) : world :=
  set_faults script
    (snd (@saveCreds plain_externals first_store
            (snd (@writeData plain_externals first_scope "pre-key-17" sample
                    (ready []))))).

(** The same process in front of a driver that returns JSON columns as
    text. *)
Definition with_text_driver (w : world) : world :=
  {| conn := conn w; next_id := next_id w; closing := closing w;
     server := server w; json_as_text := true; refused := refused w;
     faults := faults w; thereafter := thereafter w; entropy := entropy w;
     trace := trace w |}.

(** An id of 81 characters, one more than the column takes. *)
Definition long_id : string :=
  "sender-key-0123456789012345678901234567890123456789012345678901234567890123456789".

(** The stocked store after its handle has closed. *)
Definition closed (script : list bool) : world :=
  {| conn := conn (stocked script); next_id := next_id (stocked script);
     closing := [0%nat]; server := server (stocked script);
     json_as_text := false; refused := []; faults := script;
     thereafter := false; entropy := entropy (stocked script);
     trace := trace (stocked script) |}.

(** The stocked store while the driver fails on every statement. *)
Definition stocked_outage : world :=
  {| conn := conn (stocked []); next_id := next_id (stocked []);
     closing := []; server := server (stocked []);
     json_as_text := false; refused := []; faults := [true];
     thereafter := true; entropy := entropy (stocked []);
     trace := trace (stocked []) |}.

(** The stocked store with one statement to get through before the driver
    fails for good. *)
Definition last_gasp : world :=
  {| conn := conn (stocked []); next_id := next_id (stocked []);
     closing := []; server := server (stocked []);
     json_as_text := false; refused := []; faults := [false; true];
     thereafter := true; entropy := entropy (stocked []);
     trace := trace (stocked []) |}.

(** A process that has opened nothing, in front of a server that refuses
    the first connection. *)
Definition refusing : world :=
  {| conn := None; next_id := 0; closing := []; server := ∅;
     json_as_text := false; refused := [true]; faults := [];
     thereafter := false; entropy := 7; trace := [] |}.

(** The stocked store with a row that holds a JSON string. *)
Definition with_string_row : world :=
  snd (@writeData plain_externals first_scope "session-bad" (VStr "abc")
         (stocked [])).

(** A configuration that names another table. *)
Definition config_table (tbl : string) : Config.t :=
  {| Config.database := None; Config.host := None; Config.port := None;
     Config.user := None; Config.password := None; Config.password1 := None;
     Config.password2 := None; Config.password3 := None; Config.ssl := None;
     Config.localAddress := None; Config.socketPath := None;
     Config.insecureAuth := None; Config.isServer := None;
     Config.tableName := Some tbl; Config.retryRequestDelayMs := None;
     Config.maxtRetries := None |}.



(** A plain object of the form a byte sequence prints as. *)
Definition marker_shaped : value :=
  VObj [("type", VStr "Buffer"); ("data", VArr [VNum 1; VNum 2; VNum 3])].

(* ===================================================================== *)
(** * Proofs *)
(* ===================================================================== *)

(** ** Base64 is lossless *)

Lemma byte_of_to_nat (b : byte) : Base64.byte_of (Byte.to_nat b) = b.
Proof. unfold Base64.byte_of. now rewrite Byte.of_to_nat. Qed.

Lemma sextet_of_char_of (n : nat) :
  (n < 64)%nat ->
  Ascii.eqb (Base64.char_of n) "=" = false /\
  Base64.sextet_of (Base64.char_of n) = Some n.
Proof.
  intros Hn.
  do 64 (destruct n as [|n]; [split; reflexivity|]).
  lia.
Qed.

(** The sextets of a character of the alphabet followed by a string. *)
Lemma sextets_char_of (n : nat) (r : string) :
  (n < 64)%nat ->
  Base64.sextets (String (Base64.char_of n) r) = n :: Base64.sextets r.
Proof.
  intros Hn. destruct (sextet_of_char_of n Hn) as [Hpad Hsextet].
  cbn [Base64.sextets]. now rewrite Hpad, Hsextet.
Qed.

(** Lists three elements at a time. *)
Lemma list_ind3 {A : Type} (P : list A -> Prop) :
  P [] ->
  (forall a, P [a]) ->
  (forall a b, P [a; b]) ->
  (forall a b c r, P r -> P (a :: b :: c :: r)) ->
  forall l, P l.
Proof.
  intros H0 H1 H2 H3.
  fix IH 1.
  intros [|a [|b [|c r]]];
    [apply H0 | apply H1 | apply H2 | apply H3, IH].
Qed.

Lemma base64_decode_encode (l : list byte) :
  Base64.decode (Base64.encode l) = l.
Proof.
  induction l as [|a|a b|a b c r IH] using list_ind3.
  - reflexivity.
  - pose proof (Byte.to_nat_bounded a) as Ha.
    unfold Base64.decode. cbn [Base64.encode].
    rewrite !sextets_char_of by lia.
    cbn [Base64.sextets Ascii.eqb Bool.eqb Base64.bytes_of].
    replace (_ / 4 * 4 + _ / 16)%nat with (Byte.to_nat a) by lia.
    now rewrite byte_of_to_nat.
  - pose proof (Byte.to_nat_bounded a) as Ha.
    pose proof (Byte.to_nat_bounded b) as Hb.
    unfold Base64.decode. cbn [Base64.encode].
    rewrite !sextets_char_of by lia.
    cbn [Base64.sextets Ascii.eqb Bool.eqb Base64.bytes_of].
    replace (_ / 4 * 4 + _ / 16)%nat with (Byte.to_nat a) by lia.
    replace (_ mod 16 * 16 + _ / 4)%nat with (Byte.to_nat b) by lia.
    now rewrite !byte_of_to_nat.
  - pose proof (Byte.to_nat_bounded a) as Ha.
    pose proof (Byte.to_nat_bounded b) as Hb.
    pose proof (Byte.to_nat_bounded c) as Hc.
    unfold Base64.decode in *. cbn [Base64.encode].
    rewrite !sextets_char_of by lia.
    cbn [Base64.bytes_of].
    replace (_ / 4 * 4 + _ / 16)%nat with (Byte.to_nat a) by lia.
    replace (_ mod 16 * 16 + _ / 4)%nat with (Byte.to_nat b) by lia.
    replace (_ mod 4 * 64 + _)%nat with (Byte.to_nat c) by lia.
    now rewrite !byte_of_to_nat, IH.
Qed.

Example base64_encode_abc :
  Base64.encode [x4d; x61; x6e] = "TWFu".
Proof. reflexivity. Qed.

Example base64_encode_pad :
  Base64.encode [x4d; x61] = "TWE=" /\ Base64.encode [x4d] = "TQ==".
Proof. split; reflexivity. Qed.

Example base64_decode_pad :
  Base64.decode "TWE=" = [x4d; x61] /\ Base64.decode "TQ==" = [x4d].
Proof. split; reflexivity. Qed.

(** Text without padding, in the URL-safe alphabet, or broken by white
    space decodes all the same. *)
Example base64_decode_lenient :
  Base64.decode "TWE" = [x4d; x61] /\
  Base64.decode "-_8" = [xfb; xff] /\
  Base64.decode "+/8=" = [xfb; xff] /\
  Base64.decode "TW Fu" = [x4d; x61; x6e].
Proof. repeat split; reflexivity. Qed.

(** ** The codec *)

(** Induction on values, with the hypothesis on every element of an array
    and every field of an object. *)
Lemma value_ind_nested (P : value -> Prop) :
  P VNull ->
  (forall b, P (VBool b)) ->
  (forall n, P (VNum n)) ->
  (forall s, P (VStr s)) ->
  (forall l, Forall P l -> P (VArr l)) ->
  (forall f, Forall (fun kv => P (snd kv)) f -> P (VObj f)) ->
  (forall b, P (VBuf b)) ->
  forall v, P v.
Proof.
  intros Hnull Hbool Hnum Hstr Harr Hobj Hbuf.
  fix IH 1.
  intros [| b | n | s | l | f | b].
  - apply Hnull.
  - apply Hbool.
  - apply Hnum.
  - apply Hstr.
  - apply Harr. induction l as [|x l IHl]; constructor; [apply IH | apply IHl].
  - apply Hobj. induction f as [|[k x] f IHf]; constructor; [apply IH | apply IHf].
  - apply Hbuf.
Qed.

Section Codec_round_trip.

Context `{Externals}.

Lemma to_uint8_byte (x : byte) : to_uint8 (VNum (Z.of_nat (Byte.to_nat x))) = x.
Proof.
  unfold to_uint8. pose proof (Byte.to_nat_bounded x) as Hx.
  rewrite Z.mod_small by lia. rewrite Nat2Z.id. apply byte_of_to_nat.
Qed.

(** The bytes of a byte sequence come back from its [toJSON]. *)
Lemma Buffer_from_array_toJSON (b : list byte) :
  Buffer_from_array (map (fun x => VNum (Z.of_nat (Byte.to_nat x))) b) = b.
Proof.
  unfold Buffer_from_array.
  induction b as [|x b IH]; [reflexivity|].
  cbn [map]. now rewrite to_uint8_byte, IH.
Qed.

(** A byte sequence is printed as its marker. *)
Lemma stringify_buffer (b : list byte) :
  stringify (VBuf b) = plain (VObj (marker b)).
Proof.
  cbn [stringify toJSON replaced_bytes Buffer_toJSON assoc tagged].
  cbn. now rewrite Buffer_from_array_toJSON.
Qed.

(** A byte sequence comes back from its marker. *)
Lemma revive_buffer (b : list byte) :
  revive BufferJSON_reviver (stringify (VBuf b)) = Ok (VBuf b).
Proof.
  rewrite stringify_buffer. cbn.
  now rewrite base64_decode_encode.
Qed.

(** An object that is not of the type ['Buffer'] is left by the replacer
    and by the reviver. *)
Lemma replaced_bytes_untagged (f : list (string * value)) :
  tagged f = false -> replaced_bytes (VObj f) = None.
Proof.
  intros Hf. cbn [replaced_bytes]. rewrite Hf.
  destruct (assoc "data" f) as [[]|]; reflexivity.
Qed.

(** Deserialization inverts serialization on every value that holds no
    plain object of the type ['Buffer']. *)
Lemma revive_stringify (v : value) :
  marker_free v = true ->
  revive BufferJSON_reviver (stringify v) = Ok v.
Proof.
  induction v as [| b | n | s | l IH | f IH | b] using value_ind_nested;
    intros Hfree; try reflexivity.
  - cbn [stringify toJSON replaced_bytes revive].
    cbn [marker_free] in Hfree.
    assert (Hl : collect (map (revive BufferJSON_reviver) (map stringify l))
                 = Ok l).
    { induction l as [|x l IHl]; [reflexivity|].
      cbn [forallb] in Hfree. apply andb_prop in Hfree as [Hx Hl].
      inversion IH as [|? ? IHx IHl']; subst.
      cbn [map collect]. rewrite IHx by assumption. now rewrite IHl. }
    now rewrite Hl.
  - cbn [marker_free] in Hfree. apply andb_prop in Hfree as [Htag Hfree].
    apply negb_true_iff in Htag.
    cbn [stringify toJSON]. rewrite (replaced_bytes_untagged f Htag).
    cbn [revive].
    assert (Hf : collect
                   (map (fun kv : string * json =>
                           match revive BufferJSON_reviver (snd kv) with
                           | Ok v => Ok (fst kv, v)
                           | Throw e => Throw e
                           end)
                      (map (fun kv : string * value => (fst kv, stringify (snd kv))) f))
                 = Ok f).
    { clear Htag. induction f as [|[k x] f IHf]; [reflexivity|].
      cbn [forallb snd] in Hfree. apply andb_prop in Hfree as [Hx Hf].
      inversion IH as [|? ? IHx IHf']; subst.
      cbn [map collect fst snd]. cbn [snd] in IHx. rewrite IHx by assumption.
      now rewrite IHf. }
    rewrite Hf. cbn [BufferJSON_reviver]. now rewrite Htag.
  - apply revive_buffer.
Qed.

(** What is written for an object, an array or a byte sequence is an
    object or an array. *)
Lemma stringify_object (v : value) :
  is_object v = true ->
  (exists f, stringify v = JObj f) \/ (exists l, stringify v = JArr l).
Proof.
  destruct v as [| | | | l | f | b]; try discriminate; intros _.
  - right. eexists. reflexivity.
  - left. cbn [stringify toJSON].
    destruct (replaced_bytes (VObj f)); eexists; reflexivity.
  - left. rewrite stringify_buffer. eexists. reflexivity.
Qed.

End Codec_round_trip.

(** A plain object of the form a byte sequence prints as does not come
    back: it is written as a marker and read as bytes. *)
Example revive_marker_shaped :
  @stringify plain_externals marker_shaped
  = @stringify plain_externals (VBuf [x01; x02; x03]) /\
  revive (@BufferJSON_reviver plain_externals)
    (@stringify plain_externals marker_shaped)
  = Ok (VBuf [x01; x02; x03]).
Proof. split; reflexivity. Qed.

(** ** The driver and the executor *)

Section Executor.

Context `{Externals}.

Lemma same_process_refl w : same_process w w.
Proof. repeat split. Qed.

Lemma same_process_trans w1 w2 w3 :
  same_process w1 w2 -> same_process w2 w3 -> same_process w1 w3.
Proof.
  unfold same_process. intros (?&?&?&?&?&?&?) (?&?&?&?&?&?&?).
  repeat split; congruence.
Qed.

Lemma is_closing_same c w w' :
  same_process w w' -> is_closing c w' = is_closing c w.
Proof. intros (?&?&Hc&?). unfold is_closing. now rewrite Hc. Qed.

(** One statement leaves one event, whatever its outcome. *)
Lemma send_trace c s w :
  trace (snd (send c s w))
  = (trace w ++ [EvStatement (conn_id c) s
                   (match fst (send c s w) with Ok r => Some r | Throw _ => None end)])%list.
Proof.
  unfold send. destruct (is_closing c w); [reflexivity|].
  unfold next_fault. destruct (faults w) as [|[] l]; cbn [fst snd].
  - destruct (thereafter w); [reflexivity|].
    destruct (run _ _ _ _) as [[r db]|]; reflexivity.
  - reflexivity.
  - destruct (run _ _ _ _) as [[r db]|]; reflexivity.
Qed.

Lemma send_conn c s w : conn (snd (send c s w)) = conn w.
Proof.
  unfold send. destruct (is_closing c w); [reflexivity|].
  unfold next_fault. destruct (faults w) as [|[] l]; cbn [fst snd].
  - destruct (thereafter w); [reflexivity|].
    destruct (run _ _ _ _) as [[r db]|]; reflexivity.
  - reflexivity.
  - destruct (run _ _ _ _) as [[r db]|]; reflexivity.
Qed.

Lemma send_error c s w e : fst (send c s w) = Throw e -> e = QueryError.
Proof.
  unfold send. destruct (is_closing c w); [now intros [= <-]|].
  unfold next_fault. destruct (faults w) as [|[] l]; cbn [fst snd].
  - destruct (thereafter w); [now intros [= <-]|].
    destruct (run _ _ _ _) as [[r db]|]; [discriminate | now intros [= <-]].
  - now intros [= <-].
  - destruct (run _ _ _ _) as [[r db]|]; [discriminate | now intros [= <-]].
Qed.

(** A statement that throws changes no table. *)
Lemma send_throw c s w e w' :
  send c s w = (Throw e, w') ->
  server w' = server w /\ same_process w w' /\
  (faults w' = faults w \/ faults w' = tl (faults w)).
Proof.
  unfold send. destruct (is_closing c w).
  { intros [= <- <-]. repeat split. now left. }
  unfold next_fault. destruct (faults w) as [|[] l] eqn:Hf.
  - destruct (thereafter w).
    { intros [= <- <-]. repeat split. now left. }
    destruct (run _ _ _ _) as [[r db]|]; [discriminate|].
    intros [= <- <-]. repeat split. now left.
  - intros [= <- <-]. repeat split. now right.
  - cbn [set_faults json_as_text server].
    destruct (run _ _ _ _) as [[r db]|]; [discriminate|].
    intros [= <- <-]. repeat split. now right.
Qed.

(** A statement that returns is the server's answer. *)
Lemma send_ok c s w r w' :
  send c s w = (Ok r, w') ->
  run (json_as_text w) (target_of c) s (server w) = Some (r, server w') /\
  same_process w w' /\ is_closing c w = false /\
  (faults w' = faults w \/ faults w' = tl (faults w)).
Proof.
  unfold send. destruct (is_closing c w); [discriminate|].
  unfold next_fault. destruct (faults w) as [|[] l] eqn:Hf.
  - destruct (thereafter w); [discriminate|].
    destruct (run _ _ _ _) as [[r0 db]|] eqn:Hrun; [|discriminate].
    intros [= <- <-]. repeat split. now left.
  - discriminate.
  - cbn [set_faults json_as_text server].
    destruct (run _ _ _ _) as [[r0 db]|] eqn:Hrun; [|discriminate].
    intros [= <- <-]. repeat split. now right.
Qed.

(** The executor never throws. *)
Lemma query_loop_total sc n sql w :
  exists r w', query_loop sc n sql w = (Ok r, w').
Proof.
  revert w. induction n as [|n IH]; intros w.
  - now exists (RowSet []), w.
  - cbn [query_loop]. unfold try_catch.
    destruct (send (sqlConn sc) sql w) as [[r|e] w1].
    + now exists r, w1.
    + unfold bind, sleep. apply IH.
Qed.


Lemma healthy_spec sc w :
  healthy sc w = true <->
  is_closing (sqlConn sc) w = false /\ 0 < maxtRetries sc /\
  runs_below (Z.to_nat (maxtRetries sc)) 0 (faults w) = true /\
  thereafter w = false /\ exists rows, table_at sc w = Some rows.
Proof.
  unfold healthy.
  rewrite !andb_true_iff, !negb_true_iff, Z.ltb_lt.
  destruct (table_at sc w) as [rows|]; split.
  - intros ((((?&?)&?)&?)&_). repeat split; eauto.
  - intros (?&?&?&?&_). repeat split; auto.
  - intros (_&?). discriminate.
  - intros (_&_&_&_&[rows ?]). discriminate.
Qed.

(** With fewer consecutive faults than iterations left, the loop ends in
    the server's answer. *)
Lemma query_loop_steady sc N sql r db n :
  forall cur w,
    is_closing (sqlConn sc) w = false ->
    thereafter w = false ->
    runs_below N cur (faults w) = true ->
    (cur + n = N)%nat -> (0 < n)%nat ->
    run (json_as_text w) (target_of (sqlConn sc)) sql (server w) = Some (r, db) ->
    exists w',
      query_loop sc n sql w = (Ok r, w') /\ server w' = db /\
      same_process w w' /\ runs_below N 0 (faults w') = true.
Proof.
  induction n as [|n IH]; intros cur w Hopen Hlater Hruns Hsum Hpos Hrun; [lia|].
  cbn [query_loop]. unfold try_catch, send. rewrite Hopen.
  unfold next_fault. destruct (faults w) as [|[] l] eqn:Hf.
  - rewrite Hlater, Hrun. eexists. split; [reflexivity|].
    cbn. rewrite Hf. repeat split.
  - cbn [runs_below] in Hruns. apply andb_prop in Hruns as [Hlt Hruns].
    apply Nat.ltb_lt in Hlt.
    unfold bind, sleep.
    edestruct (IH (S cur)) as (w' & Hq & Hdb & Hsame & Hr'); cycle 6.
    { exists w'. split; [exact Hq|]. split; [exact Hdb|]. split; [|exact Hr'].
      eapply same_process_trans; [|exact Hsame]. repeat split. }
    all: cbn; try assumption; try lia.
  - cbn [set_faults json_as_text server]. rewrite Hrun.
    eexists. split; [reflexivity|]. cbn. repeat split. exact Hruns.
Qed.

(** On a store that works the executor returns the server's answer, and
    the store keeps working as long as its table is there. *)
Lemma query_healthy sc sql w r db :
  healthy sc w = true ->
  run (json_as_text w) (target_of (sqlConn sc)) sql (server w) = Some (r, db) ->
  exists w',
    query sc sql w = (Ok r, w') /\ server w' = db /\ same_process w w' /\
    (is_Some (db !! (target_of (sqlConn sc), tableName sc)) ->
     healthy sc w' = true).
Proof.
  intros (Hopen & Hmax & Hruns & Hlater & _)%healthy_spec Hrun.
  destruct (query_loop_steady sc (Z.to_nat (maxtRetries sc)) sql r db
              (Z.to_nat (maxtRetries sc)) O w)
    as (w' & Hq & Hdb & Hsame & Hr'); try assumption; try lia.
  exists w'. repeat split; try assumption.
  - apply Hsame.
  - apply Hsame.
  - apply Hsame.
  - apply Hsame.
  - apply Hsame.
  - apply Hsame.
  - apply Hsame.
  - intros [rows Hrows]. apply healthy_spec.
    rewrite (is_closing_same _ _ _ Hsame).
    destruct Hsame as (_&_&_&_&_&Hth&_). rewrite Hth.
    repeat split; try assumption.
    exists rows. unfold table_at. now rewrite Hdb.
Qed.

(** On a store that cannot be reached the executor gives up with the
    empty result, and no table changes. *)
Lemma query_loop_unreachable sc sql n :
  forall w,
    unreachable sc w = true ->
    exists w',
      query_loop sc n sql w = (Ok (RowSet []), w') /\ server w' = server w /\
      same_process w w' /\ unreachable sc w' = true.
Proof.
  induction n as [|n IH]; intros w Hdown.
  - exists w. repeat split. exact Hdown.
  - cbn [query_loop]. unfold try_catch, send.
    unfold unreachable in Hdown.
    destruct (is_closing (sqlConn sc) w) eqn:Hc.
    + unfold bind, sleep.
      edestruct IH as (w' & Hq & Hdb & Hsame & Hdown'); cycle 1.
      { exists w'. split; [exact Hq|]. split; [exact Hdb|]. split; [|exact Hdown'].
        eapply same_process_trans; [|exact Hsame]. repeat split. }
      unfold unreachable, is_closing in *. cbn. now rewrite Hc.
    + cbn [orb] in Hdown. apply andb_prop in Hdown as [Hall Hlater].
      unfold next_fault. destruct (faults w) as [|b l] eqn:Hf.
      * rewrite Hlater. unfold bind, sleep.
        edestruct IH as (w' & Hq & Hdb & Hsame & Hdown'); cycle 1.
        { exists w'. split; [exact Hq|]. split; [exact Hdb|]. split; [|exact Hdown'].
          eapply same_process_trans; [|exact Hsame]. repeat split. }
        unfold unreachable, is_closing in *. cbn.
        rewrite Hc, Hf, Hlater. reflexivity.
      * cbn [forallb] in Hall. apply andb_prop in Hall as [Hb Hl].
        unfold id in Hb. subst b. unfold bind, sleep.
        edestruct IH as (w' & Hq & Hdb & Hsame & Hdown'); cycle 1.
        { exists w'. split; [exact Hq|]. split; [exact Hdb|]. split; [|exact Hdown'].
          eapply same_process_trans; [|exact Hsame]. repeat split. }
        unfold unreachable, is_closing in *. cbn.
        rewrite Hc, Hl, Hlater. reflexivity.
Qed.

End Executor.

(** ** The key-value operations *)

Section Store.

Context `{Externals}.

(** In any environment, the executor either gives up with the empty
    result, no table changed, or returns what the server answered, from
    the tables as they were, to one statement. *)
Lemma query_loop_cases sc sql n :
  forall w,
  exists w',
    same_process w w' /\
    ((query_loop sc n sql w = (Ok (RowSet []), w') /\ server w' = server w)
     \/ (exists r,
            query_loop sc n sql w = (Ok r, w') /\
            run (json_as_text w) (target_of (sqlConn sc)) sql (server w)
            = Some (r, server w'))).
Proof.
  induction n as [|n IH]; intros w.
  - exists w. split; [apply same_process_refl|]. left. now split.
  - cbn [query_loop]. unfold try_catch.
    destruct (send (sqlConn sc) sql w) as [[r|e] w1] eqn:Hsend.
    + apply send_ok in Hsend as (Hrun & Hsame & _).
      exists w1. split; [exact Hsame|]. right. now exists r.
    + apply send_throw in Hsend as (Hdb & Hsame & _).
      unfold bind, sleep.
      destruct (IH (emit (EvSleep (retryRequestDelayMs sc)) w1))
        as (w' & Hsame' & Hcases).
      exists w'. split.
      { eapply same_process_trans; [exact Hsame|].
        eapply same_process_trans; [|exact Hsame']. repeat split. }
      cbn [emit server json_as_text] in Hcases.
      destruct Hsame as (_&_&_&Hflag&_).
      rewrite Hdb, Hflag in Hcases. exact Hcases.
Qed.

Lemma run_select (flag : bool) (t : string * Z * string) (tbl id : string)
    (db : tables) (rows : table) :
  db !! (t, tbl) = Some rows ->
  run flag t (Select tbl id) db
  = Some (RowSet (match rows !! id with
                  | Some stored => [[("value", cell_of flag stored)]]
                  | None => []
                  end), db).
Proof. intros Hrows. cbn [run]. rewrite Hrows. now destruct (rows !! id). Qed.

Lemma read_result_same sc (id : string) w w' :
  server w' = server w -> json_as_text w' = json_as_text w ->
  read_result sc id w' = read_result sc id w.
Proof.
  intros Hdb Hflag. unfold read_result, stored_cell, table_at.
  now rewrite Hdb, Hflag.
Qed.

(** What [readData] makes of the rows of its SELECT. *)
Lemma readData_of_rows sc (id : string) w (rows : table) :
  table_at sc w = Some rows ->
  (match first_value
           (RowSet (match rows !! id with
                    | Some stored => [[("value", cell_of (json_as_text w) stored)]]
                    | None => []
                    end))
   with
   | Some c =>
       if cell_truthy c then lift (JSON_parse_reviver (raw_of c)) else ret VNull
   | None => ret VNull
   end) = lift (read_result sc id w).
Proof.
  intros Hrows. unfold read_result, stored_cell. rewrite Hrows.
  destruct (rows !! id) as [stored|]; [|reflexivity].
  cbn [first_value assoc]. rewrite String.eqb_refl.
  now destruct (cell_truthy _).
Qed.

(** A read on a store that works. *)
Lemma readData_healthy sc (id : string) w :
  healthy sc w = true ->
  exists w',
    readData sc id w = (read_result sc id w, w') /\ server w' = server w /\
    same_process w w' /\ healthy sc w' = true.
Proof.
  intros Hw.
  pose proof Hw as (_ & _ & _ & _ & rows & Hrows)%healthy_spec.
  destruct (query_healthy sc (Select (tableName sc) id) w _ _ Hw
              (run_select _ _ _ id _ _ Hrows))
    as (w' & Hq & Hdb & Hsame & Hw').
  exists w'. unfold readData, bind. rewrite Hq.
  rewrite (readData_of_rows sc id w rows Hrows).
  repeat split; try assumption; try apply Hsame.
  apply Hw'. unfold table_at in Hrows. now rewrite Hrows.
Qed.

(** A read in any environment: [null], or what a working store gives. *)
Lemma readData_cases sc (id : string) w :
  exists w',
    server w' = server w /\ same_process w w' /\
    (readData sc id w = (Ok VNull, w')
     \/ readData sc id w = (read_result sc id w, w')).
Proof.
  destruct (query_loop_cases sc (Select (tableName sc) id)
              (Z.to_nat (maxtRetries sc)) w)
    as (w' & Hsame & [[Hq Hdb] | (r & Hq & Hrun)]).
  - exists w'. repeat split; try assumption; try apply Hsame.
    left. unfold readData, bind, query. now rewrite Hq.
  - cbn [run] in Hrun.
    destruct (server w !! (target_of (sqlConn sc), tableName sc))
      as [rows|] eqn:Hrows; [|discriminate].
    assert (Hr : r = RowSet (match rows !! id with
                             | Some stored => [[("value", cell_of (json_as_text w) stored)]]
                             | None => []
                             end) /\ server w' = server w).
    { destruct (rows !! id); inversion Hrun; now subst. }
    destruct Hr as [-> Hdb].
    exists w'. repeat split; try assumption; try apply Hsame.
    right. unfold readData, bind, query. rewrite Hq.
    now rewrite (readData_of_rows sc id w rows Hrows).
Qed.

(** A statement that replaces the store's table by [rows'], on a store
    that works. *)
Lemma update_healthy sc sql w (rows' : table) :
  healthy sc w = true ->
  run (json_as_text w) (target_of (sqlConn sc)) sql (server w)
  = Some (ResultSetHeader,
          <[(target_of (sqlConn sc), tableName sc) := rows']> (server w)) ->
  exists w',
    query sc sql w = (Ok ResultSetHeader, w') /\
    server w' = <[(target_of (sqlConn sc), tableName sc) := rows']> (server w) /\
    table_at sc w' = Some rows' /\
    same_process w w' /\ healthy sc w' = true.
Proof.
  intros Hw Hrun.
  destruct (query_healthy sc sql w _ _ Hw Hrun) as (w' & Hq & Hdb & Hsame & Hw').
  exists w'. repeat split; try assumption; try apply Hsame.
  - unfold table_at. rewrite Hdb. apply lookup_insert_eq.
  - apply Hw'. rewrite lookup_insert_eq. eauto.
Qed.

Lemma writeData_healthy sc (id : string) v w (rows : table) :
  healthy sc w = true ->
  table_at sc w = Some rows ->
  (String.length id <= 80)%nat ->
  exists w',
    writeData sc id v w = (Ok tt, w') /\
    server w'
    = <[(target_of (sqlConn sc), tableName sc) := <[id := Some (stringify v)]> rows]>
        (server w) /\
    table_at sc w' = Some (<[id := Some (stringify v)]> rows) /\
    same_process w w' /\ healthy sc w' = true.
Proof.
  intros Hw Hrows Hlen.
  destruct (update_healthy sc
              (Upsert (tableName sc) id (JSON_stringify_replacer v)
                 (JSON_stringify_replacer v)) w
              (<[id := Some (stringify v)]> rows) Hw)
    as (w' & Hq & Hrest).
  { cbn [run]. unfold table_at in Hrows. rewrite Hrows.
    apply Nat.leb_le in Hlen. rewrite Hlen.
    now destruct (rows !! id). }
  exists w'. split; [|exact Hrest].
  unfold writeData, bind. now rewrite Hq.
Qed.

Lemma removeData_healthy sc (id : string) w (rows : table) :
  healthy sc w = true ->
  table_at sc w = Some rows ->
  exists w',
    removeData sc id w = (Ok tt, w') /\
    server w'
    = <[(target_of (sqlConn sc), tableName sc) := delete id rows]> (server w) /\
    table_at sc w' = Some (delete id rows) /\
    same_process w w' /\ healthy sc w' = true.
Proof.
  intros Hw Hrows.
  destruct (update_healthy sc (Delete (tableName sc) id) w (delete id rows) Hw)
    as (w' & Hq & Hrest).
  { cbn [run]. unfold table_at in Hrows. now rewrite Hrows. }
  exists w'. split; [|exact Hrest].
  unfold removeData, bind. now rewrite Hq.
Qed.

Lemma clearAll_healthy sc w (rows : table) :
  healthy sc w = true ->
  table_at sc w = Some rows ->
  exists w',
    clearAll sc w = (Ok tt, w') /\
    table_at sc w' = Some (filter (fun kv => fst kv = "creds") rows) /\
    same_process w w' /\ healthy sc w' = true.
Proof.
  intros Hw Hrows.
  destruct (update_healthy sc (DeleteOthers (tableName sc)) w
              (filter (fun kv => fst kv = "creds") rows) Hw)
    as (w' & Hq & _ & Hrest).
  { cbn [run]. unfold table_at in Hrows. now rewrite Hrows. }
  exists w'. split; [|exact Hrest].
  unfold clearAll, bind. now rewrite Hq.
Qed.

Lemma removeAll_healthy sc w (rows : table) :
  healthy sc w = true ->
  table_at sc w = Some rows ->
  exists w',
    removeAll sc w = (Ok tt, w') /\
    table_at sc w' = Some ∅ /\
    same_process w w' /\ healthy sc w' = true.
Proof.
  intros Hw Hrows.
  destruct (update_healthy sc (DeleteAll (tableName sc)) w ∅ Hw)
    as (w' & Hq & _ & Hrest).
  { cbn [run]. unfold table_at in Hrows. now rewrite Hrows. }
  exists w'. split; [|exact Hrest].
  unfold removeAll, bind. now rewrite Hq.
Qed.

(** What a read finds for a row that was written, whichever way the
    driver returns JSON columns. *)
Lemma read_back sc (id : string) w (rows : table) v :
  table_at sc w = Some rows ->
  rows !! id = Some (Some (stringify v)) ->
  is_object v = true ->
  read_result sc id w = revive BufferJSON_reviver (stringify v).
Proof.
  intros Hrows Hid Hobj. unfold read_result, stored_cell.
  rewrite Hrows, Hid.
  destruct (stringify_object v Hobj) as [[f ->] | [l ->]];
    destruct (json_as_text w); reflexivity.
Qed.

Lemma read_absent sc (id : string) w (rows : table) :
  table_at sc w = Some rows ->
  rows !! id = None ->
  read_result sc id w = Ok VNull.
Proof.
  intros Hrows Hid. unfold read_result, stored_cell. now rewrite Hrows, Hid.
Qed.

End Store.

(** ** The retrying executor *)

Section Retry.

Context `{Externals}.



(** With nothing configured the bound is 10 attempts and the wait 200 ms;
    a configured 0 is read as nothing configured. *)
Lemma scope_defaults (c : sqlConnection) (config : Config.t) :
  (Config.maxtRetries config = None \/ Config.maxtRetries config = Some 0 ->
   maxtRetries (scope_of config c) = 10) /\
  (Config.retryRequestDelayMs config = None
   \/ Config.retryRequestDelayMs config = Some 0 ->
   retryRequestDelayMs (scope_of config c) = 200).
Proof.
  split; intros [Hc | Hc]; cbn; now rewrite Hc.
Qed.

(** The result of an exhausted executor is the result of a SELECT that
    found no row. *)
Lemma exhausted_like_absent sc (id : string) w w0 (rows : table) :
  unreachable sc w = true ->
  healthy sc w0 = true -> table_at sc w0 = Some rows -> rows !! id = None ->
  fst (query sc (Select (tableName sc) id) w)
  = fst (query sc (Select (tableName sc) id) w0).
Proof.
  intros Hdown Hw0 Hrows Hid.
  destruct (query_loop_unreachable sc (Select (tableName sc) id)
              (Z.to_nat (maxtRetries sc)) w Hdown) as (w' & Hq & _).
  destruct (query_healthy sc (Select (tableName sc) id) w0 _ _ Hw0
              (run_select _ _ _ id _ _ Hrows)) as (w0' & Hq0 & _).
  unfold query in *. rewrite Hq, Hq0. cbn. now rewrite Hid.
Qed.

End Retry.

(** ** The connection manager *)

Section Connection.

Context `{Externals}.

Lemma assign_conn_accepted (config : Config.t) (w : world) :
  hd false (refused w) = false ->
  assign_conn config w = (Ok tt, connected config w).
Proof.
  intros Href. unfold assign_conn, bind, createConnection, connected, fresh_handle.
  destruct (refused w) as [|[] l]; try discriminate; reflexivity.
Qed.

Lemma assign_conn_refused (config : Config.t) (w : world) (l : list bool) :
  refused w = true :: l ->
  assign_conn config w
  = (Throw ConnectionError,
     emit (EvConnect (connection_options config) false) (set_refused l w)).
Proof.
  intros Href. unfold assign_conn, bind, createConnection. now rewrite Href.
Qed.

(** A live handle is handed out as it is. *)
Lemma connection_live (config : Config.t) (w : world) (c : sqlConnection) :
  conn w = Some c ->
  is_closing c w = false ->
  connection config false w = (Ok c, w).
Proof.
  intros Hc Hopen. unfold connection, ended, bind, ret, the_conn.
  rewrite Hc, Hopen. cbn [orb]. now rewrite Hc.
Qed.

(** A call that needs a handle and is refused one. *)
Lemma connection_refused (config : Config.t) (force : bool) (w : world)
    (l : list bool) :
  conn w = None \/ ended w = true \/ force = true ->
  refused w = true :: l ->
  connection config force w
  = (Throw ConnectionError,
     emit (EvConnect (connection_options config) false) (set_refused l w)).
Proof.
  intros Hneed Href. unfold connection, bind.
  assert (Hcreate : (match conn w with None => true | Some _ => false end)
                    || ended w || force = true).
  { destruct Hneed as [-> | [-> | ->]]; [reflexivity| |];
      rewrite ?orb_true_r; reflexivity. }
  rewrite Hcreate, (assign_conn_refused config w l Href). reflexivity.
Qed.

(** A call that replaces the handle there is. *)
Lemma connection_reconnect (config : Config.t) (force : bool) (w : world)
    (c : sqlConnection) :
  conn w = Some c ->
  is_closing c w = true \/ force = true ->
  hd false (refused w) = false ->
  connection config force w = (Ok (fresh_handle config w), connected config w).
Proof.
  intros Hc Hneed Href. unfold connection, ended, bind. rewrite Hc.
  assert (Hcreate : false || is_closing c w || force = true).
  { destruct Hneed as [-> | ->]; rewrite ?orb_true_r; reflexivity. }
  rewrite Hcreate, (assign_conn_accepted config w Href). reflexivity.
Qed.

(** The first call: the handle, then the CREATE TABLE statement on it. *)
Lemma connection_first (config : Config.t) (force : bool) (w : world) :
  conn w = None ->
  hd false (refused w) = false ->
  connection config force w
  = (match fst (send (fresh_handle config w)
                  (CreateTable (or_string (Config.tableName config) "auth"))
                  (connected config w))
     with
     | Ok _ => Ok (fresh_handle config w)
     | Throw e => Throw e
     end,
     snd (send (fresh_handle config w)
            (CreateTable (or_string (Config.tableName config) "auth"))
            (connected config w))).
Proof.
  intros Hnone Href. unfold connection, bind. rewrite Hnone. cbn [orb].
  rewrite (assign_conn_accepted config w Href).
  unfold the_conn at 1. cbn [connected set_conn conn].
  unfold create_table, bind.
  pose proof (send_conn (fresh_handle config w)
                (CreateTable (or_string (Config.tableName config) "auth"))
                (connected config w)) as Hconn.
  destruct (send _ _ _) as [[r|e] w2]; cbn [fst snd] in *; [|reflexivity].
  unfold ret, the_conn. rewrite Hconn. reflexivity.
Qed.

(** C8 (connection): a call that no other call overlaps creates a handle
    exactly when there is none yet, when the one there is reports itself
    closed (its [_closing] flag is set), or when the caller forces it;
    otherwise nothing is sent and the handle there is is returned.  The
    CREATE TABLE IF NOT EXISTS statement follows the creation at once,
    and only when there was no handle before: never after a reconnect. *)
Theorem connection_lifecycle (config : Config.t) (force : bool) (w : world) :
  let accepted := negb (hd false (refused w)) in
  let fresh := {| conn_id := next_id w;
                  conn_options := connection_options config |} in
  let tbl := or_string (Config.tableName config) "auth" in
  (conn w = None ->
   exists outcome,
     trace (snd (connection config force w))
     = (trace w ++ EvConnect (connection_options config) accepted
          :: (if accepted
              then [EvStatement (next_id w) (CreateTable tbl) outcome]
              else []))%list /\
     conn (snd (connection config force w))
     = (if accepted then Some fresh else None) /\
     fst (connection config force w)
     = (if accepted
        then match outcome with
             | Some _ => Ok fresh
             | None => Throw QueryError
             end
        else Throw ConnectionError)) /\
  (forall c,
      conn w = Some c ->
      is_closing c w = true \/ force = true ->
      trace (snd (connection config force w))
      = (trace w ++ [EvConnect (connection_options config) accepted])%list /\
      conn (snd (connection config force w))
      = (if accepted then Some fresh else Some c) /\
      fst (connection config force w)
      = (if accepted then Ok fresh else Throw ConnectionError)) /\
  (forall c,
      conn w = Some c ->
      is_closing c w = false ->
      force = false ->
      connection config force w = (Ok c, w)).
Proof.
  intros accepted fresh tbl. split; [|split].
  - intros Hnone. subst accepted.
    destruct (refused w) as [|[] l] eqn:Href; cbn [hd negb].
    + rewrite (connection_first config force w Hnone) by now rewrite Href.
      fold tbl. change (fresh_handle config w) with fresh.
      pose proof (send_trace fresh (CreateTable tbl) (connected config w)) as Ht.
      pose proof (send_conn fresh (CreateTable tbl) (connected config w)) as Hc.
      pose proof (send_error fresh (CreateTable tbl) (connected config w)) as He.
      destruct (send fresh (CreateTable tbl) (connected config w)) as [[r|e] w2];
        cbn [fst snd] in *.
      * exists (Some r). rewrite Ht, Hc. cbn. rewrite <- app_assoc.
        repeat split.
      * exists None. rewrite Ht, Hc, (He e eq_refl). cbn. rewrite <- app_assoc.
        repeat split.
    + rewrite (connection_refused config force w l (or_introl Hnone) Href).
      exists None. cbn. rewrite Hnone. repeat split.
    + rewrite (connection_first config force w Hnone) by now rewrite Href.
      fold tbl. change (fresh_handle config w) with fresh.
      pose proof (send_trace fresh (CreateTable tbl) (connected config w)) as Ht.
      pose proof (send_conn fresh (CreateTable tbl) (connected config w)) as Hc.
      pose proof (send_error fresh (CreateTable tbl) (connected config w)) as He.
      destruct (send fresh (CreateTable tbl) (connected config w)) as [[r|e] w2];
        cbn [fst snd] in *.
      * exists (Some r). rewrite Ht, Hc. cbn. rewrite <- app_assoc.
        repeat split.
      * exists None. rewrite Ht, Hc, (He e eq_refl). cbn. rewrite <- app_assoc.
        repeat split.
  - intros c Hc Hneed. subst accepted.
    destruct (refused w) as [|[] l] eqn:Href; cbn [hd negb].
    + rewrite (connection_reconnect config force w c Hc Hneed)
        by now rewrite Href.
      cbn. repeat split.
    + rewrite (connection_refused config force w l) by
        (try exact Href; right; unfold ended; rewrite Hc; tauto).
      cbn. rewrite Hc. repeat split.
    + rewrite (connection_reconnect config force w c Hc Hneed)
        by now rewrite Href.
      cbn. repeat split.
  - intros c Hc Hopen ->. now apply connection_live.
Qed.

(** Making the connection writes no row: a table is as it was, or it is
    new and empty. *)
Lemma connection_rows (config : Config.t) (force : bool) (w : world) :
  entropy (snd (connection config force w)) = entropy w /\
  json_as_text (snd (connection config force w)) = json_as_text w /\
  forall ref : string * Z * string * string,
    server (snd (connection config force w)) !! ref = server w !! ref
    \/ (server w !! ref = None /\
        server (snd (connection config force w)) !! ref = Some ∅).
Proof.
  assert (Hsend : forall c tbl w1,
             let w2 := snd (send c (CreateTable tbl) w1) in
             entropy w2 = entropy w1 /\ json_as_text w2 = json_as_text w1 /\
             forall ref : string * Z * string * string,
               server w2 !! ref = server w1 !! ref
               \/ (server w1 !! ref = None /\ server w2 !! ref = Some ∅)).
  { intros c tbl w1.
    destruct (send c (CreateTable tbl) w1) as [[r|e] w2] eqn:Hs; cbn [snd].
    - apply send_ok in Hs as (Hrun & Hsame & _).
      destruct Hsame as (_&_&_&Hflag&_&_&Hent).
      split; [exact Hent|]. split; [exact Hflag|].
      intros ref. cbn [run] in Hrun.
      destruct (server w1 !! (target_of c, tbl)) as [rows|] eqn:Hrows.
      + injection Hrun as _ Hdb. left. now rewrite <- Hdb.
      + injection Hrun as _ Hdb. rewrite <- Hdb.
        destruct (decide (ref = (target_of c, tbl))) as [->|Hne].
        * right. split; [exact Hrows|]. apply lookup_insert_eq.
        * left. now apply lookup_insert_ne.
    - apply send_throw in Hs as (Hdb & Hsame & _).
      destruct Hsame as (_&_&_&Hflag&_&_&Hent).
      split; [exact Hent|]. split; [exact Hflag|].
      intros ref. left. now rewrite Hdb. }
  destruct (refused w) as [|b l] eqn:Href.
  - destruct (conn w) as [c|] eqn:Hc.
    + destruct (is_closing c w) eqn:Hclosing.
      * rewrite (connection_reconnect config force w c Hc (or_introl Hclosing))
          by now rewrite Href.
        cbn. repeat split. intros; now left.
      * destruct force.
        -- rewrite (connection_reconnect config true w c Hc (or_intror eq_refl))
             by now rewrite Href.
           cbn. repeat split. intros; now left.
        -- rewrite (connection_live config w c Hc Hclosing).
           cbn. repeat split. intros; now left.
    + rewrite (connection_first config force w Hc) by now rewrite Href.
      cbn [snd]. exact (Hsend _ _ (connected config w)).
  - destruct (conn w) as [c|] eqn:Hc.
    + destruct (is_closing c w) eqn:Hclosing; [|destruct force eqn:Hforce].
      * destruct b.
        -- rewrite (connection_refused config force w l) by
             (try exact Href; right; unfold ended; rewrite Hc; tauto).
           cbn. repeat split. intros; now left.
        -- rewrite (connection_reconnect config force w c Hc (or_introl Hclosing))
             by now rewrite Href.
           cbn. repeat split. intros; now left.
      * destruct b.
        -- rewrite (connection_refused config true w l) by
             (try exact Href; tauto).
           cbn. repeat split. intros; now left.
        -- rewrite (connection_reconnect config true w c Hc (or_intror eq_refl))
             by now rewrite Href.
           cbn. repeat split. intros; now left.
      * rewrite (connection_live config w c Hc Hclosing).
        cbn. repeat split. intros; now left.
    + destruct b.
      * rewrite (connection_refused config force w l (or_introl Hc) Href).
        cbn. repeat split. intros; now left.
      * rewrite (connection_first config force w Hc) by now rewrite Href.
        cbn [snd]. exact (Hsend _ _ (connected config w)).
Qed.

(** A call that is alone runs as its stages one after the other. *)
Lemma connection_alone (config : Config.t) (force : bool) (w : world) :
  connection config force w
  = (let* a := connection_enter config force in
     let* a := connection_resume config a in
     let* a := connection_resume config a in
     match a with
     | Returned c => ret c
     | _ => throw TypeError
     end) w.
Proof.
  unfold connection, connection_enter, bind.
  destruct (_ || _ || force).
  - cbn [connection_resume]. unfold bind.
    destruct (assign_conn config w) as [[[]|e] w1]; [|reflexivity].
    destruct (conn w) as [c|].
    + unfold ret, the_conn.
      destruct (conn w1) as [c1|]; reflexivity.
    + unfold the_conn at 1 3.
      destruct (conn w1) as [c1|]; [|reflexivity].
      cbn [connection_resume ret]. unfold bind.
      destruct (create_table config c1 w1) as [[[]|e] w2]; [|reflexivity].
      unfold the_conn, ret. now destruct (conn w2).
  - unfold ret, the_conn.
    destruct (conn w) as [c|]; reflexivity.
Qed.

(** C9, as the code has it: the handle is one for the whole process.  A
    call of the connection manager that finds no handle creates one for
    the target its own configuration names and makes it the module's
    handle.  A call that starts while the module's handle is there and
    does not report itself closed returns that handle before any [await],
    whatever target its configuration names, and opens nothing; a store
    opened then captures that handle for all its queries. *)
Theorem connection_is_process_wide (config : Config.t) (w : world) :
  (conn w = None ->
   hd false (refused w) = false ->
   exists c,
     conn (snd (connection config false w)) = Some c /\
     conn_options c = connection_options config /\
     target_of c
     = (or_string (Config.host config) "localhost",
        or_number (Config.port config) 3306,
        or_string (Config.database config) "base")) /\
  (forall c,
      conn w = Some c ->
      is_closing c w = false ->
      connection_enter config false w = (Ok (Returned c), w) /\
      connection config false w = (Ok c, w) /\
      forall st w',
        useMySQLAuthState config w = (Ok st, w') ->
        sqlConn (closure st) = c).
Proof.
  split.
  - intros Hnone Href. exists (fresh_handle config w).
    rewrite (connection_first config false w Hnone Href). cbn [snd].
    rewrite send_conn. repeat split.
  - intros c Hc Hopen.
    pose proof (connection_live config w c Hc Hopen) as Hconn.
    split.
    { unfold connection_enter, ended, bind, the_conn, ret. now rewrite Hc, Hopen. }
    split; [exact Hconn|].
    intros st w'. unfold useMySQLAuthState, bind. rewrite Hconn.
    destruct (readData_cases (scope_of config c) "creds" w)
      as (w1 & _ & Hsame & Hread).
    destruct Hsame as (Hc1 & _).
    assert (Hend : forall r,
               readData (scope_of config c) "creds" w = (r, w1) ->
               (let (r0, w2) := readData (scope_of config c) "creds" w in
                match r0 with
                | Ok a =>
                    let (r1, w3) := (if truthy a then ret a else initAuthCreds) w2 in
                    match r1 with
                    | Ok a0 =>
                        ret {| closure := scope_of config c; creds := a0;
                               captured_creds := a0 |} w3
                    | Throw e => (Throw e, w3)
                    end
                | Throw e => (Throw e, w2)
                end) = (Ok st, w') ->
               sqlConn (closure st) = c).
    { intros r Hr. rewrite Hr. destruct r as [a|e]; [|discriminate].
      destruct (truthy a); unfold ret, initAuthCreds; intros [= <- <-];
        reflexivity. }
    destruct Hread as [Hr | Hr]; eapply Hend; exact Hr.
Qed.

End Connection.

(** ** Reading and writing records *)

Section Records.

Context `{Externals}.

(** [JSON.parse] handed an object as the driver parsed it, not its text,
    reads the string ["[object Object]"] and throws. *)
Lemma JSON_parse_of_object (f : list (string * json)) :
  JSON_parse_reviver (CData (JObj f)) = Throw SyntaxError.
Proof.
  unfold JSON_parse_reviver. cbn [ToString JSON_parse_plain].
  now rewrite JSON_parse_object_string.
Qed.

(** C5 (readData): a read returns [null] when there is no row for the id
    and when the stored value is empty (SQL NULL, the empty string, [0],
    [false]), in any environment.  On a store that works it otherwise
    returns the row decoded by [JSON.parse(_, BufferJSON.reviver)]: the
    document of the text when the driver returned text, and the same
    decoding of the document when the driver returned it parsed, as an
    object or an array, because the data is re-serialized first (a number
    or [true] is parsed from its own string); handed the parsed object
    itself, [JSON.parse] would throw. *)
Theorem readData_decodes (sc : scope) (id : string) (w : world) :
  (stored_cell sc id w = None -> fst (readData sc id w) = Ok VNull) /\
  (forall c,
      stored_cell sc id w = Some c ->
      c = CNull \/ c = CStr (Chars "") \/ c = CData (JNum 0)
      \/ c = CData (JBool false) ->
      fst (readData sc id w) = Ok VNull) /\
  (healthy sc w = true ->
   (forall d,
       stored_cell sc id w = Some (CStr (Text d)) ->
       fst (readData sc id w) = revive BufferJSON_reviver d) /\
   (forall s,
       stored_cell sc id w = Some (CStr (Chars s)) -> s <> "" ->
       fst (readData sc id w)
       = match JSON_parse_string s with
         | Some d => revive BufferJSON_reviver d
         | None => Throw SyntaxError
         end) /\
   (forall d,
       stored_cell sc id w = Some (CData d) ->
       (exists f, d = JObj f) \/ (exists l, d = JArr l) ->
       fst (readData sc id w) = revive BufferJSON_reviver d /\
       fst (readData sc id w) = JSON_parse_reviver (CStr (JSON_stringify d))) /\
   (forall d,
       stored_cell sc id w = Some (CData d) ->
       (exists n, d = JNum n /\ n <> 0) \/ d = JBool true ->
       fst (readData sc id w) = revive BufferJSON_reviver d)) /\
  (forall f, JSON_parse_reviver (CData (JObj f)) = Throw SyntaxError).
Proof.
  destruct (readData_cases sc id w) as (w' & _ & _ & Hcases).
  split; [|split; [|split]].
  - intros Hnone. destruct Hcases as [-> | ->]; [reflexivity|].
    cbn [fst]. unfold read_result. now rewrite Hnone.
  - intros c Hc Hempty. destruct Hcases as [-> | ->]; [reflexivity|].
    cbn [fst]. unfold read_result. rewrite Hc.
    destruct Hempty as [-> | [-> | [-> | ->]]]; reflexivity.
  - intros Hw.
    destruct (readData_healthy sc id w Hw) as (w1 & -> & _).
    cbn [fst]. unfold read_result.
    split; [|split; [|split]].
    + intros d ->. reflexivity.
    + intros s -> Hs. apply String.eqb_neq in Hs.
      cbn [cell_truthy]. rewrite Hs. reflexivity.
    + intros d -> [[f ->] | [l ->]]; split; reflexivity.
    + intros d -> [(n & -> & Hn) | ->]; [|reflexivity].
      apply Z.eqb_neq in Hn. cbn [cell_truthy json_truthy]. now rewrite Hn.
  - apply JSON_parse_of_object.
Qed.

(** C3, as the code has it: on a store that works, for an id of at most
    80 characters that has no row yet and an object [v], a write followed
    by a read returns what the codec decodes from what it wrote for [v],
    and that is [v] itself, byte sequences included, when [v] holds no
    plain object of the type ['Buffer']; the write adds the one row. *)
Theorem write_then_read
    (sc : scope) (id : string) (v : value) (w : world) (rows : table) :
  healthy sc w = true ->
  table_at sc w = Some rows ->
  rows !! id = None ->
  (String.length id <= 80)%nat ->
  is_object v = true ->
  exists w1 w2,
    writeData sc id v w = (Ok tt, w1) /\
    readData sc id w1 = (revive BufferJSON_reviver (stringify v), w2) /\
    (marker_free v = true -> readData sc id w1 = (Ok v, w2)) /\
    table_at sc w1 = Some (<[id := Some (stringify v)]> rows) /\
    size (<[id := Some (stringify v)]> rows) = S (size rows).
Proof.
  intros Hw Hrows Hfresh Hlen Hobj.
  destruct (writeData_healthy sc id v w rows Hw Hrows Hlen)
    as (w1 & Hwrite & _ & Hrows1 & _ & Hw1).
  destruct (readData_healthy sc id w1 Hw1) as (w2 & Hread & _).
  rewrite (read_back sc id w1 _ v Hrows1 (lookup_insert_eq _ _ _) Hobj) in Hread.
  exists w1, w2. repeat split; try assumption.
  - intros Hfree. now rewrite Hread, revive_stringify.
  - now apply map_size_insert_None.
Qed.

(** C2, as the code has it: on a store that works, for an id of at most
    80 characters and a second value [v2] that is an object, two writes to
    the id followed by a read return what the codec decodes from what it
    wrote for [v2], and that is [v2] itself when it holds no plain object
    of the type ['Buffer']; the table is the one before with the single
    row of the id set to [v2]: the second write replaces, it adds no
    row. *)
Theorem write_write_read
    (sc : scope) (id : string) (v1 v2 : value) (w : world) (rows : table) :
  healthy sc w = true ->
  table_at sc w = Some rows ->
  (String.length id <= 80)%nat ->
  is_object v2 = true ->
  exists w1 w2 w3,
    writeData sc id v1 w = (Ok tt, w1) /\
    writeData sc id v2 w1 = (Ok tt, w2) /\
    readData sc id w2 = (revive BufferJSON_reviver (stringify v2), w3) /\
    (marker_free v2 = true -> readData sc id w2 = (Ok v2, w3)) /\
    table_at sc w1 = Some (<[id := Some (stringify v1)]> rows) /\
    table_at sc w2 = Some (<[id := Some (stringify v2)]> rows) /\
    size (<[id := Some (stringify v2)]> rows)
    = size (<[id := Some (stringify v1)]> rows).
Proof.
  intros Hw Hrows Hlen Hobj.
  destruct (writeData_healthy sc id v1 w rows Hw Hrows Hlen)
    as (w1 & Hwrite1 & _ & Hrows1 & _ & Hw1).
  destruct (writeData_healthy sc id v2 w1 _ Hw1 Hrows1 Hlen)
    as (w2 & Hwrite2 & _ & Hrows2 & _ & Hw2).
  rewrite insert_insert_eq in Hrows2.
  destruct (readData_healthy sc id w2 Hw2) as (w3 & Hread & _).
  rewrite (read_back sc id w2 _ v2 Hrows2 (lookup_insert_eq _ _ _) Hobj) in Hread.
  exists w1, w2, w3. repeat split; try assumption.
  - intros Hfree. now rewrite Hread, revive_stringify.
  - destruct (rows !! id) as [old|] eqn:Hid.
    + rewrite !map_size_insert_Some; eauto.
    + now rewrite !map_size_insert_None.
Qed.

(** C6 (clear): on a store that works, [clear()] leaves the row of
    ["creds"] and the read of ["creds"] as they were, deletes every other
    row, and makes the read of every other id [null]. *)
Theorem clear_keeps_only_creds (st : AuthState) (w : world) :
  healthy (closure st) w = true ->
  exists w1 (rows rows1 : table),
    clear st w = (Ok tt, w1) /\
    table_at (closure st) w = Some rows /\
    table_at (closure st) w1 = Some rows1 /\
    rows1 !! "creds" = rows !! "creds" /\
    fst (readData (closure st) "creds" w1) = fst (readData (closure st) "creds" w) /\
    forall id : string,
      id <> "creds" ->
      rows1 !! id = None /\ fst (readData (closure st) id w1) = Ok VNull.
Proof.
  intros Hw.
  pose proof Hw as (_ & _ & _ & _ & rows & Hrows)%healthy_spec.
  destruct (clearAll_healthy (closure st) w rows Hw Hrows)
    as (w1 & Hclear & Hrows1 & Hsame & Hw1).
  assert (Hcreds : filter (fun kv : string * option json => fst kv = "creds") rows
                     !! "creds" = rows !! "creds").
  { destruct (rows !! "creds") as [stored|] eqn:Hc.
    - now apply map_lookup_filter_Some.
    - apply map_lookup_filter_None. now left. }
  assert (Hothers : forall id : string,
             id <> "creds" ->
             filter (fun kv : string * option json => fst kv = "creds") rows !! id
             = None).
  { intros id Hid. apply map_lookup_filter_None. right. intros x _ Hx.
    now apply Hid. }
  exists w1, rows, (filter (fun kv : string * option json => fst kv = "creds") rows).
  split; [exact Hclear|]. split; [exact Hrows|]. split; [exact Hrows1|].
  split; [exact Hcreds|]. split.
  - destruct (readData_healthy (closure st) "creds" w Hw) as (w' & -> & _).
    destruct (readData_healthy (closure st) "creds" w1 Hw1) as (w1' & -> & _).
    cbn [fst]. unfold read_result, stored_cell. rewrite Hrows, Hrows1, Hcreds.
    destruct Hsame as (_&_&_&->&_). reflexivity.
  - intros id Hid. split; [now apply Hothers|].
    destruct (readData_healthy (closure st) id w1 Hw1) as (w1' & -> & _).
    cbn [fst]. apply (read_absent _ _ _ _ Hrows1). now apply Hothers.
Qed.

(** [remove(id)] then [read(id)] returns [null]. *)
Lemma remove_then_read (sc : scope) (id : string) (w : world) :
  healthy sc w = true ->
  exists w1 w2,
    removeData sc id w = (Ok tt, w1) /\ readData sc id w1 = (Ok VNull, w2).
Proof.
  intros Hw.
  pose proof Hw as (_ & _ & _ & _ & rows & Hrows)%healthy_spec.
  destruct (removeData_healthy sc id w rows Hw Hrows)
    as (w1 & Hrm & _ & Hrows1 & _ & Hw1).
  destruct (readData_healthy sc id w1 Hw1) as (w2 & Hread & _).
  exists w1, w2. split; [exact Hrm|].
  rewrite Hread. f_equal.
  apply (read_absent _ _ _ _ Hrows1), lookup_delete_eq.
Qed.

(** [removeCreds()] makes every read [null], the one of ["creds"] too. *)
Lemma removeCreds_then_read (st : AuthState) (id : string) (w : world) :
  healthy (closure st) w = true ->
  exists w1 w2,
    removeCreds st w = (Ok tt, w1) /\
    readData (closure st) id w1 = (Ok VNull, w2).
Proof.
  intros Hw.
  pose proof Hw as (_ & _ & _ & _ & rows & Hrows)%healthy_spec.
  destruct (removeAll_healthy (closure st) w rows Hw Hrows)
    as (w1 & Hrm & Hrows1 & _ & Hw1).
  destruct (readData_healthy (closure st) id w1 Hw1) as (w2 & Hread & _).
  exists w1, w2. split; [exact Hrm|].
  rewrite Hread. f_equal.
  apply (read_absent _ _ _ _ Hrows1), lookup_empty.
Qed.

End Records.

(** ** The facade *)

Section Facade.

Context `{Externals}.

(** A statement whose result is not looked at, on a store that cannot be
    reached. *)
Lemma discard_unreachable sc sql w :
  unreachable sc w = true ->
  exists w',
    (let* _ := query sc sql in ret tt) w = (Ok tt, w') /\
    server w' = server w /\ same_process w w' /\ unreachable sc w' = true.
Proof.
  intros Hdown.
  destruct (query_loop_unreachable sc sql (Z.to_nat (maxtRetries sc)) w Hdown)
    as (w' & Hq & Hrest).
  exists w'. split; [|exact Hrest].
  unfold bind, query. now rewrite Hq.
Qed.

Lemma readData_unreachable sc (id : string) w :
  unreachable sc w = true ->
  exists w',
    readData sc id w = (Ok VNull, w') /\
    server w' = server w /\ same_process w w' /\ unreachable sc w' = true.
Proof.
  intros Hdown.
  destruct (query_loop_unreachable sc (Select (tableName sc) id)
              (Z.to_nat (maxtRetries sc)) w Hdown)
    as (w' & Hq & Hrest).
  exists w'. split; [|exact Hrest].
  unfold readData, bind, query. now rewrite Hq.
Qed.

Lemma keys_get_loop_unreachable sc (type : string) (ids : list string) :
  forall (data : gmap string value) w,
    unreachable sc w = true ->
    exists w',
      keys_get_loop sc type ids data w
      = (Ok (foldl (fun d id => assign id VNull d) data ids), w') /\
      server w' = server w /\ unreachable sc w' = true.
Proof.
  induction ids as [|id ids IH]; intros data w Hdown.
  - exists w. now repeat split.
  - destruct (readData_unreachable sc (type ++ "-" ++ id) w Hdown)
      as (w1 & Hread & Hdb & _ & Hdown1).
    destruct (IH (assign id VNull data) w1 Hdown1) as (w' & Hloop & Hdb' & Hdown').
    exists w'. cbn [keys_get_loop foldl]. unfold bind. rewrite Hread.
    cbn [truthy]. rewrite andb_false_r.
    split; [exact Hloop|]. split; [congruence | exact Hdown'].
Qed.

Lemma keys_set_category_unreachable sc (category : string)
    (entries : list (string * value)) :
  forall w,
    unreachable sc w = true ->
    exists w',
      keys_set_category sc category entries w = (Ok tt, w') /\
      server w' = server w /\ unreachable sc w' = true.
Proof.
  induction entries as [|[id v] entries IH]; intros w Hdown.
  - exists w. now repeat split.
  - cbn [keys_set_category]. unfold bind.
    assert (Hstep : exists w1,
               (if truthy v then writeData sc (category ++ "-" ++ id) v
                else removeData sc (category ++ "-" ++ id)) w = (Ok tt, w1) /\
               server w1 = server w /\ unreachable sc w1 = true).
    { destruct (truthy v).
      - destruct (discard_unreachable sc
                    (Upsert (tableName sc) (category ++ "-" ++ id)
                       (JSON_stringify_replacer v) (JSON_stringify_replacer v))
                    w Hdown) as (w1 & Hq & Hdb & _ & Hdown1).
        now exists w1.
      - destruct (discard_unreachable sc
                    (Delete (tableName sc) (category ++ "-" ++ id)) w Hdown)
          as (w1 & Hq & Hdb & _ & Hdown1).
        now exists w1. }
    destruct Hstep as (w1 & -> & Hdb & Hdown1).
    destruct (IH w1 Hdown1) as (w' & Hloop & Hdb' & Hdown').
    exists w'. split; [exact Hloop|]. split; [congruence | exact Hdown'].
Qed.

Lemma keys_set_loop_unreachable sc
    (data : list (string * list (string * value))) :
  forall w,
    unreachable sc w = true ->
    exists w',
      keys_set_loop sc data w = (Ok tt, w') /\
      server w' = server w /\ unreachable sc w' = true.
Proof.
  induction data as [|[category entries] data IH]; intros w Hdown.
  - exists w. now repeat split.
  - cbn [keys_set_loop]. unfold bind.
    destruct (keys_set_category_unreachable sc category entries w Hdown)
      as (w1 & -> & Hdb & Hdown1).
    destruct (IH w1 Hdown1) as (w' & Hloop & Hdb' & Hdown').
    exists w'. split; [exact Hloop|]. split; [congruence | exact Hdown'].
Qed.

(** In any environment the writes, the deletes and the raw query return
    without throwing. *)
Lemma discard_total sc sql w :
  exists w', (let* _ := query sc sql in ret tt) w = (Ok tt, w').
Proof.
  destruct (query_loop_total sc (Z.to_nat (maxtRetries sc)) sql w)
    as (r & w' & Hq).
  exists w'. unfold bind, query. now rewrite Hq.
Qed.

Lemma keys_set_category_total sc (category : string)
    (entries : list (string * value)) :
  forall w, exists w', keys_set_category sc category entries w = (Ok tt, w').
Proof.
  induction entries as [|[id v] entries IH]; intros w.
  - now exists w.
  - cbn [keys_set_category]. unfold bind.
    assert (Hstep : exists w1,
               (if truthy v then writeData sc (category ++ "-" ++ id) v
                else removeData sc (category ++ "-" ++ id)) w = (Ok tt, w1)).
    { destruct (truthy v); apply discard_total. }
    destruct Hstep as (w1 & ->). apply IH.
Qed.

Lemma keys_set_loop_total sc (data : list (string * list (string * value))) :
  forall w, exists w', keys_set_loop sc data w = (Ok tt, w').
Proof.
  induction data as [|[category entries] data IH]; intros w.
  - now exists w.
  - cbn [keys_set_loop]. unfold bind.
    destruct (keys_set_category_total sc category entries w) as (w1 & ->).
    apply IH.
Qed.

(** A read of a table that is not there gives [null], in any
    environment. *)
Lemma readData_no_table sc (id : string) w :
  table_at sc w = None ->
  exists w', readData sc id w = (Ok VNull, w') /\ server w' = server w.
Proof.
  intros Hnone.
  destruct (readData_cases sc id w) as (w' & Hdb & _ & [Hr | Hr]).
  - now exists w'.
  - exists w'. split; [|exact Hdb]. rewrite Hr.
    unfold read_result, stored_cell. now rewrite Hnone.
Qed.

Lemma keys_get_loop_no_table sc (type : string) (ids : list string) :
  forall (data : gmap string value) w,
    table_at sc w = None ->
    exists w',
      keys_get_loop sc type ids data w
      = (Ok (foldl (fun d id => assign id VNull d) data ids), w') /\
      server w' = server w.
Proof.
  induction ids as [|id ids IH]; intros data w Hnone.
  - now exists w.
  - destruct (readData_no_table sc (type ++ "-" ++ id) w Hnone)
      as (w1 & Hread & Hdb).
    destruct (IH (assign id VNull data) w1) as (w' & Hloop & Hdb').
    { unfold table_at in *. now rewrite Hdb. }
    exists w'. cbn [keys_get_loop foldl]. unfold bind. rewrite Hread.
    cbn [truthy]. rewrite andb_false_r.
    split; [exact Hloop | congruence].
Qed.

(** C10 (the facade): the writes, the deletes and the raw [query] of the
    facade return without throwing in every environment, because the
    executor catches the error of each attempt.  When every statement sent
    on the store's handle fails, [keys.get] returns [null] for every id,
    the raw [query] returns the empty row set, the writes and deletes
    return normally, and no table is changed; [keys.get] does the same
    when its statements fail because the table is not there. *)
Theorem facade_swallows_failures
    (st : AuthState) (w : world) (type : string) (ids : list string)
    (data : list (string * list (string * value))) (sql : statement) :
  ((exists w', keys_set st data w = (Ok tt, w')) /\
   (exists w', saveCreds st w = (Ok tt, w')) /\
   (exists w', clear st w = (Ok tt, w')) /\
   (exists w', removeCreds st w = (Ok tt, w')) /\
   (exists w', dropTable st w = (Ok tt, w')) /\
   (exists r w', query (closure st) sql w = (Ok r, w'))) /\
  (table_at (closure st) w = None ->
   exists w', keys_get st type ids w = (Ok (all_null ids), w') /\
              server w' = server w) /\
  (unreachable (closure st) w = true ->
   (exists w', keys_get st type ids w = (Ok (all_null ids), w') /\
               server w' = server w) /\
   (exists w', keys_set st data w = (Ok tt, w') /\ server w' = server w) /\
   (exists w', saveCreds st w = (Ok tt, w') /\ server w' = server w) /\
   (exists w', clear st w = (Ok tt, w') /\ server w' = server w) /\
   (exists w', removeCreds st w = (Ok tt, w') /\ server w' = server w) /\
   (exists w', dropTable st w = (Ok tt, w') /\ server w' = server w) /\
   (exists w', query (closure st) sql w = (Ok (RowSet []), w') /\
               server w' = server w)).
Proof.
  split; [|split].
  { split; [apply keys_set_loop_total|].
    split; [apply discard_total|].
    split; [apply discard_total|].
    split; [apply discard_total|].
    split; [apply discard_total|].
    apply query_loop_total. }
  { intros Hnone. apply keys_get_loop_no_table. exact Hnone. }
  intros Hdown. repeat split.
  - destruct (keys_get_loop_unreachable (closure st) type ids ∅ w Hdown)
      as (w' & Hq & Hdb & _).
    now exists w'.
  - destruct (keys_set_loop_unreachable (closure st) data w Hdown)
      as (w' & Hq & Hdb & _).
    now exists w'.
  - destruct (discard_unreachable (closure st)
                (Upsert (tableName (closure st)) "creds"
                   (JSON_stringify_replacer (captured_creds st))
                   (JSON_stringify_replacer (captured_creds st))) w Hdown)
      as (w' & Hq & Hdb & _).
    now exists w'.
  - destruct (discard_unreachable (closure st)
                (DeleteOthers (tableName (closure st))) w Hdown)
      as (w' & Hq & Hdb & _).
    now exists w'.
  - destruct (discard_unreachable (closure st)
                (DeleteAll (tableName (closure st))) w Hdown)
      as (w' & Hq & Hdb & _).
    now exists w'.
  - destruct (discard_unreachable (closure st)
                (DropTable (tableName (closure st))) w Hdown)
      as (w' & Hq & Hdb & _).
    now exists w'.
  - destruct (query_loop_unreachable (closure st) sql
                (Z.to_nat (maxtRetries (closure st))) w Hdown)
      as (w' & Hq & Hdb & _).
    now exists w'.
Qed.

(** An assignment under any other id is an entry. *)
Lemma assign_entry (id : string) (v : value) (data : gmap string value) :
  id <> "__proto__" -> assign id v data = <[id := v]> data.
Proof.
  intros Hid. unfold assign. apply String.eqb_neq in Hid. now rewrite Hid.
Qed.

(** [keys.get] of one id, on a store that works and has no row for it:
    the object it returns holds what was assigned under the id. *)
Lemma keys_get_absent (st : AuthState) (category id : string) (w : world) :
  healthy (closure st) w = true ->
  stored_cell (closure st) (category ++ "-" ++ id) w = None ->
  exists w', keys_get st category [id] w = (Ok (assign id VNull ∅), w').
Proof.
  intros Hw Hnone.
  destruct (readData_healthy (closure st) (category ++ "-" ++ id) w Hw)
    as (w' & Hread & _).
  exists w'. unfold keys_get. cbn [keys_get_loop]. unfold bind.
  rewrite Hread. unfold read_result. rewrite Hnone.
  cbn [truthy]. rewrite andb_false_r. reflexivity.
Qed.

(** C4, as the code has it (keys.set, keys.get): on a store that works,
    setting a record to [null], or to any falsy value, deletes its row,
    and a [keys.get] of the id, when it is not ["__proto__"], then returns
    the mapping that sends it to [null]: the mapping a store that never
    had the record returns. *)
Theorem keys_set_null_removes
    (st : AuthState) (category id : string) (v : value) (w : world) :
  id <> "__proto__" ->
  healthy (closure st) w = true ->
  truthy v = false ->
  exists rows w1 w2,
    table_at (closure st) w = Some rows /\
    keys_set st [(category, [(id, v)])] w = (Ok tt, w1) /\
    table_at (closure st) w1 = Some (delete (category ++ "-" ++ id) rows) /\
    keys_get st category [id] w1 = (Ok {[ id := VNull ]}, w2) /\
    forall w0,
      healthy (closure st) w0 = true ->
      stored_cell (closure st) (category ++ "-" ++ id) w0 = None ->
      fst (keys_get st category [id] w0) = Ok {[ id := VNull ]}.
Proof.
  intros Hid Hw Hv.
  pose proof Hw as (_ & _ & _ & _ & rows & Hrows)%healthy_spec.
  destruct (removeData_healthy (closure st) (category ++ "-" ++ id) w rows Hw Hrows)
    as (w1 & Hrm & _ & Hrows1 & _ & Hw1).
  assert (Hnone : stored_cell (closure st) (category ++ "-" ++ id) w1 = None).
  { unfold stored_cell. rewrite Hrows1. now rewrite lookup_delete_eq. }
  assert (Hone : assign id VNull ∅ = ({[ id := VNull ]} : gmap string value)).
  { rewrite (assign_entry _ _ _ Hid). apply insert_empty. }
  destruct (keys_get_absent st category id w1 Hw1 Hnone) as (w2 & Hget).
  rewrite Hone in Hget.
  exists rows, w1, w2. split; [exact Hrows|]. split.
  { unfold keys_set. cbn [keys_set_loop keys_set_category]. unfold bind.
    rewrite Hv, Hrm. reflexivity. }
  split; [exact Hrows1|]. split; [exact Hget|].
  intros w0 Hw0 Hnone0.
  destruct (keys_get_absent st category id w0 Hw0 Hnone0) as (w0' & ->).
  cbn [fst]. now rewrite Hone.
Qed.

(** A key of [keys.set] is never the id of the credentials. *)
Lemma has_dash_key (category id : string) :
  has_dash (category ++ "-" ++ id) = true.
Proof.
  change (has_dash (category ++ String "-"%char id) = true).
  induction category as [|c category IH].
  - reflexivity.
  - change (Ascii.eqb c "-"%char || has_dash (category ++ String "-"%char id) = true).
    rewrite IH. apply orb_true_r.
Qed.

Lemma key_not_creds (category id : string) : category ++ "-" ++ id <> "creds".
Proof.
  intros Heq. pose proof (has_dash_key category id) as Hdash.
  rewrite Heq in Hdash. discriminate.
Qed.

(** A statement that spares the credentials creates no ["creds"] row. *)
Lemma run_spares_creds (flag : bool) (t : string * Z * string) (tbl0 : string)
    (sql : statement) (db db' : tables) (r : sqlData) :
  spares_creds sql ->
  run flag t sql db = Some (r, db') ->
  (forall rows : table, db !! (t, tbl0) = Some rows -> rows !! "creds" = None) ->
  forall rows : table, db' !! (t, tbl0) = Some rows -> rows !! "creds" = None.
Proof.
  intros Hsafe Hrun Hdb rows' Hrows'.
  destruct sql as [tbl | tbl id | tbl id ins upd | tbl id | tbl | tbl | tbl | raw vals];
    cbn [run spares_creds] in Hrun, Hsafe; try contradiction.
  - (* CREATE TABLE *)
    destruct (db !! (t, tbl)) as [rows|] eqn:Hrows; injection Hrun as _ <-.
    + eauto.
    + destruct (decide ((t, tbl) = (t, tbl0))) as [Heq|Hne].
      * rewrite Heq, lookup_insert_eq in Hrows'. injection Hrows' as <-.
        apply lookup_empty.
      * rewrite lookup_insert_ne in Hrows' by exact Hne. eauto.
  - (* SELECT *)
    destruct (db !! (t, tbl)) as [rows|]; [|discriminate].
    destruct (rows !! id); injection Hrun as _ <-; eauto.
  - (* INSERT ... ON DUPLICATE KEY UPDATE *)
    destruct (db !! (t, tbl)) as [rows|] eqn:Hrows; [|discriminate].
    destruct (String.length id <=? 80)%nat; [|discriminate].
    destruct (JSON_parse_plain _) as [d|]; [|discriminate].
    injection Hrun as _ <-.
    destruct (decide ((t, tbl) = (t, tbl0))) as [Heq|Hne].
    + rewrite Heq, lookup_insert_eq in Hrows'. injection Hrows' as <-.
      rewrite lookup_insert_ne by exact Hsafe.
      apply (Hdb rows). now rewrite <- Heq.
    + rewrite lookup_insert_ne in Hrows' by exact Hne. eauto.
  - (* DELETE ... WHERE id = ? *)
    destruct (db !! (t, tbl)) as [rows|] eqn:Hrows; [|discriminate].
    injection Hrun as _ <-.
    destruct (decide ((t, tbl) = (t, tbl0))) as [Heq|Hne].
    + rewrite Heq, lookup_insert_eq in Hrows'. injection Hrows' as <-.
      apply lookup_delete_None. right. apply (Hdb rows). now rewrite <- Heq.
    + rewrite lookup_insert_ne in Hrows' by exact Hne. eauto.
  - (* DELETE ... WHERE id != 'creds' *)
    destruct (db !! (t, tbl)) as [rows|] eqn:Hrows; [|discriminate].
    injection Hrun as _ <-.
    destruct (decide ((t, tbl) = (t, tbl0))) as [Heq|Hne].
    + rewrite Heq, lookup_insert_eq in Hrows'. injection Hrows' as <-.
      apply map_lookup_filter_None. left. apply (Hdb rows). now rewrite <- Heq.
    + rewrite lookup_insert_ne in Hrows' by exact Hne. eauto.
  - (* DELETE *)
    destruct (db !! (t, tbl)) as [rows|] eqn:Hrows; [|discriminate].
    injection Hrun as _ <-.
    destruct (decide ((t, tbl) = (t, tbl0))) as [Heq|Hne].
    + rewrite Heq, lookup_insert_eq in Hrows'. injection Hrows' as <-.
      apply lookup_empty.
    + rewrite lookup_insert_ne in Hrows' by exact Hne. eauto.
  - (* DROP TABLE *)
    injection Hrun as _ <-.
    destruct (decide ((t, tbl) = (t, tbl0))) as [Heq|Hne].
    + rewrite Heq, lookup_delete_eq in Hrows'. discriminate.
    + rewrite lookup_delete_ne in Hrows' by exact Hne. eauto.
Qed.

Lemma no_creds_row_spec sc w :
  stored_cell sc "creds" w = None <->
  forall rows : table, table_at sc w = Some rows -> rows !! "creds" = None.
Proof.
  unfold stored_cell. destruct (table_at sc w) as [rows|]; split.
  - intros Hnone rows' [= <-]. now destruct (rows !! "creds").
  - intros Hall. now rewrite (Hall rows eq_refl).
  - intros _ rows' [=].
  - reflexivity.
Qed.

Lemma discard_spares_creds sc sql w :
  spares_creds sql ->
  stored_cell sc "creds" w = None ->
  stored_cell sc "creds" (snd ((let* _ := query sc sql in ret tt) w)) = None.
Proof.
  intros Hsafe Hnone.
  destruct (query_loop_cases sc sql (Z.to_nat (maxtRetries sc)) w)
    as (w' & Hsame & [[Hq Hdb] | (r & Hq & Hrun)]);
    unfold bind, query; rewrite Hq; cbn [ret snd].
  - apply no_creds_row_spec. unfold table_at. rewrite Hdb.
    now apply no_creds_row_spec.
  - apply no_creds_row_spec. unfold table_at.
    eapply run_spares_creds; [exact Hsafe | exact Hrun |].
    now apply no_creds_row_spec.
Qed.

Lemma keys_set_category_spares_creds sc (category : string)
    (entries : list (string * value)) :
  forall w,
    stored_cell sc "creds" w = None ->
    stored_cell sc "creds" (snd (keys_set_category sc category entries w)) = None.
Proof.
  induction entries as [|[id v] entries IH]; intros w Hnone.
  - exact Hnone.
  - cbn [keys_set_category]. unfold bind.
    assert (Hstep : stored_cell sc "creds"
                      (snd ((if truthy v
                             then writeData sc (category ++ "-" ++ id) v
                             else removeData sc (category ++ "-" ++ id)) w)) = None).
    { destruct (truthy v).
      - apply discard_spares_creds; [|exact Hnone]. apply key_not_creds.
      - apply discard_spares_creds; [exact I | exact Hnone]. }
    set (step := (if truthy v
                  then writeData sc (category ++ "-" ++ id) v
                  else removeData sc (category ++ "-" ++ id)) w) in *.
    destruct step as [[[]|e] w1]; cbn [snd] in Hstep.
    + now apply IH.
    + exact Hstep.
Qed.

Lemma keys_set_spares_creds (st : AuthState)
    (data : list (string * list (string * value))) :
  forall w,
    stored_cell (closure st) "creds" w = None ->
    stored_cell (closure st) "creds" (snd (keys_set st data w)) = None.
Proof.
  unfold keys_set.
  induction data as [|[category entries] data IH]; intros w Hnone.
  - exact Hnone.
  - cbn [keys_set_loop]. unfold bind.
    pose proof (keys_set_category_spares_creds (closure st) category entries w Hnone)
      as Hstep.
    destruct (keys_set_category (closure st) category entries w) as [[[]|e] w1];
      cbn [snd] in Hstep.
    + now apply IH.
    + exact Hstep.
Qed.

(** C7 (useMySQLAuthState, saveCreds): when the connection is made and
    the store's table holds no ["creds"] row, opening the store returns
    with the bundle of [initAuthCreds] as [state.creds], a value that is
    not [null]; opening writes no row, so the ["creds"] row is still
    missing; neither [keys.set] nor [clear] creates it; it is
    [saveCreds()] that writes the bundle. *)
Theorem open_defaults_creds
    (config : Config.t) (w w1 : world) (c : sqlConnection) :
  connection config false w = (Ok c, w1) ->
  stored_cell (scope_of config c) "creds" w = None ->
  exists st w2,
    useMySQLAuthState config w = (Ok st, w2) /\
    closure st = scope_of config c /\
    creds st = VObj (initAuthCreds_fields (entropy w)) /\
    creds st <> VNull /\
    server w2 = server w1 /\
    (forall ref : string * Z * string * string,
        server w2 !! ref = server w !! ref
        \/ (server w !! ref = None /\ server w2 !! ref = Some ∅)) /\
    stored_cell (closure st) "creds" w2 = None /\
    (forall data,
        stored_cell (closure st) "creds" (snd (keys_set st data w2)) = None) /\
    stored_cell (closure st) "creds" (snd (clear st w2)) = None /\
    (healthy (closure st) w2 = true ->
     exists w3 rows,
       saveCreds st w2 = (Ok tt, w3) /\
       table_at (closure st) w3 = Some rows /\
       rows !! "creds" = Some (Some (stringify (creds st)))).
Proof.
  intros Hconn Hnone.
  pose proof (connection_rows config false w) as (Hent & Hflag & Hrows).
  rewrite Hconn in Hent, Hflag, Hrows. cbn [snd] in Hent, Hflag, Hrows.
  set (sc := scope_of config c) in *.
  assert (Hnone1 : stored_cell sc "creds" w1 = None).
  { unfold stored_cell, table_at in *.
    destruct (Hrows (target_of (sqlConn sc), tableName sc)) as [-> | [_ ->]].
    - destruct (server w !! (target_of (sqlConn sc), tableName sc)) as [rows|];
        [|reflexivity].
      now destruct (rows !! "creds").
    - now rewrite lookup_empty. }
  destruct (readData_cases sc "creds" w1) as (w2 & Hdb & Hsame & Hread).
  assert (Hread' : readData sc "creds" w1 = (Ok VNull, w2)).
  { destruct Hread as [-> | ->]; [reflexivity|].
    unfold read_result. now rewrite Hnone1. }
  exists {| closure := sc; creds := VObj (initAuthCreds_fields (entropy w));
            captured_creds := VObj (initAuthCreds_fields (entropy w)) |},
         (set_entropy (S (entropy w2)) w2).
  assert (Hent2 : entropy w2 = entropy w).
  { destruct Hsame as (_&_&_&_&_&_&->). exact Hent. }
  assert (Hnone2 : stored_cell sc "creds" (set_entropy (S (entropy w2)) w2) = None).
  { unfold stored_cell, table_at in *. cbn [set_entropy server json_as_text].
    destruct Hsame as (_&_&_&Hflag2&_). now rewrite Hdb, Hflag2. }
  split.
  { unfold useMySQLAuthState, bind. rewrite Hconn. fold sc. rewrite Hread'.
    cbn [truthy]. unfold initAuthCreds, ret. now rewrite Hent2. }
  split; [reflexivity|]. split; [reflexivity|]. split; [discriminate|].
  cbn [closure creds].
  split; [exact Hdb|]. split.
  { intros ref. cbn [set_entropy server]. rewrite Hdb. apply Hrows. }
  split; [exact Hnone2|].
  split.
  { intros data.
    apply (keys_set_spares_creds
             {| closure := sc; creds := VObj (initAuthCreds_fields (entropy w));
                captured_creds := VObj (initAuthCreds_fields (entropy w)) |}).
    exact Hnone2. }
  split.
  { unfold clear, clearAll. cbn [closure].
    apply discard_spares_creds; [exact I | exact Hnone2]. }
  intros Hw2.
  pose proof Hw2 as (_ & _ & _ & _ & rows & Hrows2)%healthy_spec.
  destruct (writeData_healthy sc "creds"
              (VObj (initAuthCreds_fields (entropy w))) _ rows Hw2 Hrows2)
    as (w3 & Hwrite & _ & Hrows3 & _).
  { cbn. lia. }
  exists w3, (<[ "creds" := Some (stringify (VObj (initAuthCreds_fields (entropy w)))) ]> rows).
  split; [exact Hwrite|]. split; [exact Hrows3|]. apply lookup_insert_eq.
Qed.

End Facade.

(* ===================================================================== *)
(** * The theorems at work *)
(* ===================================================================== *)

(** The first open on an empty server returns [first_store]. *)
Example opened_first_store :
  fst (opened no_config []) = Ok first_store.
Proof. vm_compute. reflexivity. Qed.

(** The bundle survives the table: byte sequences come back as bytes. *)
Example sample_round_trip :
  revive (@BufferJSON_reviver plain_externals) (@stringify plain_externals sample)
  = Ok sample.
Proof. reflexivity. Qed.

(** Two failures and then a success: two waits of 200 ms, one row set. *)
Example query_after_two_faults :
  let r := @query plain_externals first_scope (Select "auth" "creds")
             (ready [true; true; false]) in
  fst r = Ok (RowSet []) /\
  skipn 3 (trace (snd r))
  = [EvStatement 0 (Select "auth" "creds") None; EvSleep 200;
     EvStatement 0 (Select "auth" "creds") None; EvSleep 200;
     EvStatement 0 (Select "auth" "creds") (Some (RowSet []))].
Proof. vm_compute. split; reflexivity. Qed.

(** The bundle is read back from a driver that parses JSON columns and
    from one that returns them as text. *)
Example read_sample_both_drivers :
  fst (@readData plain_externals first_scope "pre-key-17" (stocked [true]))
  = Ok sample /\
  fst (@readData plain_externals first_scope "pre-key-17"
         (with_text_driver (stocked [true])))
  = Ok sample.
Proof. vm_compute. split; reflexivity. Qed.

(** Before any open there is no table: every attempt fails, and the ten
    attempts end in the empty row set. *)
Example query_without_table :
  let r := @query plain_externals first_scope (Select "auth" "creds") (boot []) in
  fst r = Ok (RowSet []) /\ length (trace (snd r)) = 20%nat.
Proof. vm_compute. split; reflexivity. Qed.


(** ** C2 and C3: a plain object of the type ['Buffer'] is not read back *)

(** C3, counterexample: on a store that works, for an id with no row yet,
    a write of the plain object [{type: 'Buffer', data: [1, 2, 3]}]
    followed by a read returns the byte sequence 1, 2, 3, not the
    object. *)
Lemma write_then_read_marker_shaped :
  healthy first_scope (ready []) = true /\
  table_at first_scope (ready []) = Some ∅ /\
  is_object marker_shaped = true /\
  fst (@writeData plain_externals first_scope "session-abc" marker_shaped
         (ready [])) = Ok tt /\
  fst (@readData plain_externals first_scope "session-abc"
         (snd (@writeData plain_externals first_scope "session-abc" marker_shaped
                 (ready []))))
  = Ok (VBuf [x01; x02; x03]) /\
  VBuf [x01; x02; x03] <> marker_shaped.
Proof.
  split; [vm_compute; reflexivity|].
  split; [vm_compute; reflexivity|].
  split; [reflexivity|].
  split; [vm_compute; reflexivity|].
  split; [vm_compute; reflexivity | discriminate].
Qed.

(** C2, counterexample: on a store that works, two writes to one id, the
    second of the plain object [{type: 'Buffer', data: [1, 2, 3]}],
    followed by a read return the byte sequence 1, 2, 3, not the second
    value. *)
Lemma write_write_read_marker_shaped :
  healthy first_scope (ready []) = true /\
  is_object marker_shaped = true /\
  fst (@writeData plain_externals first_scope "session-abc" sample (ready []))
  = Ok tt /\
  fst (@writeData plain_externals first_scope "session-abc" marker_shaped
         (snd (@writeData plain_externals first_scope "session-abc" sample
                 (ready []))))
  = Ok tt /\
  fst (@readData plain_externals first_scope "session-abc"
         (snd (@writeData plain_externals first_scope "session-abc" marker_shaped
                 (snd (@writeData plain_externals first_scope "session-abc" sample
                         (ready []))))))
  = Ok (VBuf [x01; x02; x03]) /\
  VBuf [x01; x02; x03] <> marker_shaped.
Proof.
  split; [vm_compute; reflexivity|].
  split; [reflexivity|].
  split; [vm_compute; reflexivity|].
  split; [vm_compute; reflexivity|].
  split; [vm_compute; reflexivity | discriminate].
Qed.

(** The bundle written under a fresh id and read back, faults on the way. *)
Lemma write_then_read_witness :
  healthy first_scope (ready [true; false; true; true]) = true /\
  table_at first_scope (ready [true; false; true; true]) = Some ∅ /\
  (∅ : table) !! "pre-key-17" = None /\
  (String.length "pre-key-17" <= 80)%nat /\
  is_object sample = true /\
  marker_free sample = true /\
  exists w1 w2,
    @writeData plain_externals first_scope "pre-key-17" sample
      (ready [true; false; true; true]) = (Ok tt, w1) /\
    @readData plain_externals first_scope "pre-key-17" w1 = (Ok sample, w2).
Proof.
  assert (H1 : healthy first_scope (ready [true; false; true; true]) = true)
    by (vm_compute; reflexivity).
  assert (H2 : table_at first_scope (ready [true; false; true; true]) = Some ∅)
    by (vm_compute; reflexivity).
  assert (H3 : (∅ : table) !! "pre-key-17" = None) by reflexivity.
  assert (H4 : (String.length "pre-key-17" <= 80)%nat) by (simpl; lia).
  assert (H5 : is_object sample = true) by reflexivity.
  assert (H6 : marker_free sample = true) by reflexivity.
  repeat (split; [assumption|]).
  destruct (@write_then_read plain_externals first_scope "pre-key-17" sample
              (ready [true; false; true; true]) ∅ H1 H2 H3 H4 H5)
    as (w1 & w2 & Hwrite & _ & Hread & _).
  exists w1, w2. split; [exact Hwrite | exact (Hread H6)].
Defined.

(** The bundle written over another value and read back. *)
Lemma write_write_read_witness :
  healthy first_scope (ready [false; true; true]) = true /\
  table_at first_scope (ready [false; true; true]) = Some ∅ /\
  (String.length "session-abc" <= 80)%nat /\
  is_object sample = true /\
  marker_free sample = true /\
  exists w1 w2 w3,
    @writeData plain_externals first_scope "session-abc" marker_shaped
      (ready [false; true; true]) = (Ok tt, w1) /\
    @writeData plain_externals first_scope "session-abc" sample w1 = (Ok tt, w2) /\
    @readData plain_externals first_scope "session-abc" w2 = (Ok sample, w3) /\
    table_at first_scope w2
    = Some (<["session-abc" := Some (@stringify plain_externals sample)]> ∅).
Proof.
  assert (H1 : healthy first_scope (ready [false; true; true]) = true)
    by (vm_compute; reflexivity).
  assert (H2 : table_at first_scope (ready [false; true; true]) = Some ∅)
    by (vm_compute; reflexivity).
  assert (H3 : (String.length "session-abc" <= 80)%nat) by (simpl; lia).
  assert (H4 : is_object sample = true) by reflexivity.
  assert (H5 : marker_free sample = true) by reflexivity.
  repeat (split; [assumption|]).
  destruct (@write_write_read plain_externals first_scope "session-abc"
              marker_shaped sample (ready [false; true; true]) ∅ H1 H2 H3 H4)
    as (w1 & w2 & w3 & Hwrite1 & Hwrite2 & _ & Hread & _ & Hrows & _).
  exists w1, w2, w3.
  split; [exact Hwrite1|]. split; [exact Hwrite2|].
  split; [exact (Hread H5) | exact Hrows].
Defined.

(** ** The other theorems at concrete inputs *)

(** The read of a row the driver returns parsed, as an object: the bundle
    comes back, where [JSON.parse] of the object itself throws. *)
Lemma readData_decodes_witness :
  healthy first_scope (stocked [true; false]) = true /\
  stored_cell first_scope "pre-key-17" (stocked [true; false])
  = Some (CData (@stringify plain_externals sample)) /\
  (exists f, @stringify plain_externals sample = JObj f) /\
  fst (@readData plain_externals first_scope "pre-key-17" (stocked [true; false]))
  = Ok sample /\
  @JSON_parse_reviver plain_externals (CData (@stringify plain_externals sample))
  = Throw SyntaxError.
Proof.
  assert (H1 : healthy first_scope (stocked [true; false]) = true)
    by (vm_compute; reflexivity).
  assert (H2 : stored_cell first_scope "pre-key-17" (stocked [true; false])
               = Some (CData (@stringify plain_externals sample)))
    by (vm_compute; reflexivity).
  assert (H3 : exists f, @stringify plain_externals sample = JObj f)
    by (eexists; reflexivity).
  repeat (split; [assumption|]).
  destruct (@readData_decodes plain_externals first_scope "pre-key-17"
              (stocked [true; false])) as (_ & _ & Hfull & Hthrow).
  destruct (Hfull H1) as (_ & _ & Hdata & _).
  destruct (Hdata _ H2 (or_introl H3)) as [Hread _].
  split.
  - rewrite Hread. reflexivity.
  - destruct H3 as [f Hf]. rewrite Hf. apply Hthrow.
Defined.

(** The store holding the credentials and one key, then cleared. *)
Lemma clear_keeps_only_creds_witness :
  healthy (closure first_store) (stocked [true; true; false]) = true /\
  exists w1 (rows rows1 : table),
    @clear plain_externals first_store (stocked [true; true; false]) = (Ok tt, w1) /\
    table_at (closure first_store) (stocked [true; true; false]) = Some rows /\
    table_at (closure first_store) w1 = Some rows1 /\
    rows1 !! "creds" = rows !! "creds" /\
    fst (@readData plain_externals (closure first_store) "creds" w1)
    = fst (@readData plain_externals (closure first_store) "creds"
             (stocked [true; true; false])) /\
    forall id : string,
      id <> "creds" ->
      rows1 !! id = None /\
      fst (@readData plain_externals (closure first_store) id w1) = Ok VNull.
Proof.
  assert (H1 : healthy (closure first_store) (stocked [true; true; false]) = true)
    by (vm_compute; reflexivity).
  split; [assumption|].
  exact (@clear_keeps_only_creds plain_externals first_store
           (stocked [true; true; false]) H1).
Defined.

(** The key of the stocked store set to [null]. *)
Lemma keys_set_null_removes_witness :
  "17" <> "__proto__" /\
  healthy (closure first_store) (stocked [false; true]) = true /\
  truthy VNull = false /\
  exists rows w1 w2,
    table_at (closure first_store) (stocked [false; true]) = Some rows /\
    @keys_set plain_externals first_store [("pre-key", [("17", VNull)])]
      (stocked [false; true]) = (Ok tt, w1) /\
    table_at (closure first_store) w1 = Some (delete ("pre-key" ++ "-" ++ "17") rows) /\
    @keys_get plain_externals first_store "pre-key" ["17"] w1
    = (Ok {[ "17" := VNull ]}, w2) /\
    forall w0,
      healthy (closure first_store) w0 = true ->
      stored_cell (closure first_store) ("pre-key" ++ "-" ++ "17") w0 = None ->
      fst (@keys_get plain_externals first_store "pre-key" ["17"] w0)
      = Ok {[ "17" := VNull ]}.
Proof.
  assert (H0 : "17" <> "__proto__") by discriminate.
  assert (H1 : healthy (closure first_store) (stocked [false; true]) = true)
    by (vm_compute; reflexivity).
  assert (H2 : truthy VNull = false) by reflexivity.
  repeat (split; [assumption|]).
  exact (@keys_set_null_removes plain_externals first_store "pre-key" "17" VNull
           (stocked [false; true]) H0 H1 H2).
Defined.

(** C4, counterexample: on a store that works, a record of the id
    ["__proto__"] is set to [null] and asked for.  The object [keys.get]
    returns has no entry at all: it is not the mapping that sends the id
    to [null]. *)
Lemma keys_set_null_proto :
  healthy (closure first_store) (stocked []) = true /\
  fst (@keys_set plain_externals first_store [("session", [("__proto__", VNull)])]
         (stocked [])) = Ok tt /\
  fst (@keys_get plain_externals first_store "session" ["__proto__"]
         (snd (@keys_set plain_externals first_store
                 [("session", [("__proto__", VNull)])] (stocked []))))
  = Ok ∅ /\
  (∅ : gmap string value) <> {[ "__proto__" := VNull ]}.
Proof.
  split; [vm_compute; reflexivity|].
  split; [vm_compute; reflexivity|].
  split; [vm_compute; reflexivity|].
  intros Heq.
  assert (Hm : (∅ : gmap string value) !! "__proto__" = Some VNull)
    by (rewrite Heq; apply lookup_singleton_eq).
  discriminate.
Qed.

(** The first open, on an empty server. *)
Lemma open_defaults_creds_witness :
  @connection plain_externals no_config false (boot [])
  = (Ok (first_handle no_config),
     snd (@connection plain_externals no_config false (boot []))) /\
  stored_cell (scope_of no_config (first_handle no_config)) "creds" (boot []) = None /\
  exists st w2,
    @useMySQLAuthState plain_externals no_config (boot []) = (Ok st, w2) /\
    closure st = scope_of no_config (first_handle no_config) /\
    creds st = VObj (initAuthCreds_fields (Externals := plain_externals)
                       (entropy (boot []))) /\
    creds st <> VNull /\
    server w2 = server (snd (@connection plain_externals no_config false (boot []))) /\
    (forall ref : string * Z * string * string,
        server w2 !! ref = server (boot []) !! ref
        \/ (server (boot []) !! ref = None /\ server w2 !! ref = Some ∅)) /\
    stored_cell (closure st) "creds" w2 = None /\
    (forall data,
        stored_cell (closure st) "creds"
          (snd (@keys_set plain_externals st data w2)) = None) /\
    stored_cell (closure st) "creds" (snd (@clear plain_externals st w2)) = None /\
    (healthy (closure st) w2 = true ->
     exists w3 rows,
       @saveCreds plain_externals st w2 = (Ok tt, w3) /\
       table_at (closure st) w3 = Some rows /\
       rows !! "creds" = Some (Some (@stringify plain_externals (creds st)))).
Proof.
  assert (H1 : @connection plain_externals no_config false (boot [])
               = (Ok (first_handle no_config),
                  snd (@connection plain_externals no_config false (boot []))))
    by (vm_compute; reflexivity).
  assert (H2 : stored_cell (scope_of no_config (first_handle no_config)) "creds"
                 (boot []) = None)
    by (vm_compute; reflexivity).
  repeat (split; [assumption|]).
  exact (@open_defaults_creds plain_externals no_config (boot []) _ _ H1 H2).
Defined.

(** The facade during an outage, and [keys.get] before any table
    exists. *)
Lemma facade_swallows_failures_witness :
  (unreachable (closure first_store) outage = true /\
   (exists w', @keys_get plain_externals first_store "session" ["abc"; "def"] outage
               = (Ok (all_null ["abc"; "def"]), w') /\
               server w' = server outage) /\
   (exists w', @keys_set plain_externals first_store
                 [("session", [("abc", sample); ("def", VNull)])] outage
               = (Ok tt, w') /\ server w' = server outage) /\
   (exists w', @saveCreds plain_externals first_store outage = (Ok tt, w') /\
               server w' = server outage) /\
   (exists w', @clear plain_externals first_store outage = (Ok tt, w') /\
               server w' = server outage) /\
   (exists w', @removeCreds plain_externals first_store outage = (Ok tt, w') /\
               server w' = server outage) /\
   (exists w', @dropTable plain_externals first_store outage = (Ok tt, w') /\
               server w' = server outage) /\
   (exists w', @query plain_externals (closure first_store)
                 (Raw "SELECT 1" []) outage = (Ok (RowSet []), w') /\
               server w' = server outage)) /\
  (table_at (closure first_store) (boot [false; true]) = None /\
   exists w', @keys_get plain_externals first_store "session" ["abc"; "def"]
                (boot [false; true])
              = (Ok (all_null ["abc"; "def"]), w') /\
              server w' = server (boot [false; true])).
Proof.
  assert (H1 : unreachable (closure first_store) outage = true)
    by (vm_compute; reflexivity).
  assert (H2 : table_at (closure first_store) (boot [false; true]) = None)
    by (vm_compute; reflexivity).
  split; (split; [assumption|]).
  - exact (proj2 (proj2 (@facade_swallows_failures plain_externals first_store
                           outage "session" ["abc"; "def"]
                           [("session", [("abc", sample); ("def", VNull)])]
                           (Raw "SELECT 1" []))) H1).
  - exact (proj1 (proj2 (@facade_swallows_failures plain_externals first_store
                           (boot [false; true]) "session" ["abc"; "def"] []
                           (Raw "SELECT 1" []))) H2).
Defined.

(** ** C9: one handle for the process, not one per target *)

(** C9, counterexample: a store is opened for the host ["db-a"], then one
    for the host ["db-b"].  The second store gets the handle of the first,
    which talks to ["db-a"]: the credentials it saves land in the table of
    ["db-a"], and nothing is ever opened or created on ["db-b"]. *)
Lemma second_target_gets_first_handle :
  exists stA w1 stB w2 w3,
    @useMySQLAuthState plain_externals (config_for "db-a") (boot []) = (Ok stA, w1) /\
    @useMySQLAuthState plain_externals (config_for "db-b") w1 = (Ok stB, w2) /\
    target_of (first_handle (config_for "db-a"))
    <> target_of (first_handle (config_for "db-b")) /\
    sqlConn (closure stB) = sqlConn (closure stA) /\
    target_of (sqlConn (closure stB)) = ("db-a", 3306, "base") /\
    @saveCreds plain_externals stB w2 = (Ok tt, w3) /\
    (exists rows, server w3 !! ("db-a", 3306, "base", "auth") = Some rows /\
                  rows !! "creds"
                  = Some (Some (@stringify plain_externals (creds stB)))) /\
    server w3 !! ("db-b", 3306, "base", "auth") = None /\
    length (List.filter (fun e => match e with EvConnect _ _ => true | _ => false end)
              (trace w3)) = 1%nat.
Proof.
  eexists _, _, _, _, _.
  split; [vm_compute; reflexivity|].
  split; [vm_compute; reflexivity|].
  split; [discriminate|].
  split; [reflexivity|].
  split; [reflexivity|].
  split; [vm_compute; reflexivity|].
  split; [eexists; split; vm_compute; reflexivity|].
  split; vm_compute; reflexivity.
Qed.

(** The first open, for the host ["db-a"], and a second open, for the
    host ["db-b"], after it. *)
Lemma connection_is_process_wide_witness :
  conn (boot []) = None /\
  hd false (refused (boot [])) = false /\
  (exists c,
      conn (snd (@connection plain_externals (config_for "db-a") false (boot [])))
      = Some c /\
      conn_options c = connection_options (config_for "db-a") /\
      target_of c = ("db-a", 3306, "base")) /\
  conn (ready []) = Some (first_handle no_config) /\
  is_closing (first_handle no_config) (ready []) = false /\
  connection_enter (config_for "db-b") false (ready [])
  = (Ok (Returned (first_handle no_config)), ready []) /\
  @connection plain_externals (config_for "db-b") false (ready [])
  = (Ok (first_handle no_config), ready []) /\
  forall st w',
    @useMySQLAuthState plain_externals (config_for "db-b") (ready []) = (Ok st, w') ->
    sqlConn (closure st) = first_handle no_config.
Proof.
  assert (H1 : conn (boot []) = None) by reflexivity.
  assert (H2 : hd false (refused (boot [])) = false) by reflexivity.
  assert (H3 : conn (ready []) = Some (first_handle no_config))
    by (vm_compute; reflexivity).
  assert (H4 : is_closing (first_handle no_config) (ready []) = false)
    by (vm_compute; reflexivity).
  split; [exact H1|]. split; [exact H2|].
  split.
  { exact (proj1 (@connection_is_process_wide plain_externals (config_for "db-a")
                    (boot [])) H1 H2). }
  split; [exact H3|]. split; [exact H4|].
  exact (proj2 (@connection_is_process_wide plain_externals (config_for "db-b")
                  (ready [])) (first_handle no_config) H3 H4).
Defined.

(** ** C8: a handle that has closed, and the first call *)

(** The stocked store after its handle closed: the next call of the
    connection manager makes a new handle and sends no CREATE TABLE; on
    the process that has opened nothing, the call makes the first handle
    and sends CREATE TABLE on it. *)
Lemma connection_lifecycle_witness :
  conn (closed []) = Some (first_handle no_config) /\
  is_closing (first_handle no_config) (closed []) = true /\
  (trace (snd (@connection plain_externals no_config false (closed [])))
   = (trace (closed []) ++ [EvConnect (connection_options no_config) true])%list /\
   conn (snd (@connection plain_externals no_config false (closed [])))
   = Some {| conn_id := 1; conn_options := connection_options no_config |} /\
   fst (@connection plain_externals no_config false (closed []))
   = Ok {| conn_id := 1; conn_options := connection_options no_config |}) /\
  conn (boot []) = None /\
  (exists outcome,
      trace (snd (@connection plain_externals no_config false (boot [])))
      = [EvConnect (connection_options no_config) true;
         EvStatement 0 (CreateTable "auth") outcome] /\
      conn (snd (@connection plain_externals no_config false (boot [])))
      = Some (first_handle no_config) /\
      fst (@connection plain_externals no_config false (boot []))
      = match outcome with
        | Some _ => Ok (first_handle no_config)
        | None => Throw QueryError
        end).
Proof.
  assert (H1 : conn (closed []) = Some (first_handle no_config))
    by (vm_compute; reflexivity).
  assert (H2 : is_closing (first_handle no_config) (closed []) = true)
    by (vm_compute; reflexivity).
  assert (H3 : conn (boot []) = None) by reflexivity.
  assert (H4 : next_id (closed []) = 1%nat) by (vm_compute; reflexivity).
  split; [exact H1|]. split; [exact H2|]. split.
  { pose proof (proj1 (proj2 (@connection_lifecycle plain_externals no_config
                                false (closed [])))
                  (first_handle no_config) H1 (or_introl H2)) as Hclosed.
    rewrite H4 in Hclosed. exact Hclosed. }
  split; [exact H3|].
  exact (proj1 (@connection_lifecycle plain_externals no_config false (boot []))
           H3).
Defined.

(* ===================================================================== *)
(** * More of the module *)
(* ===================================================================== *)

(** ** The executor, statement by statement *)

Section Attempts.

Context `{Externals}.

Lemma healthy_steady sc w :
  healthy sc w = true <->
  steady sc w = true /\ exists rows, table_at sc w = Some rows.
Proof.
  unfold healthy, steady.
  destruct (table_at sc w) as [rows|]; rewrite ?andb_true_r, ?andb_false_r.
  - split; [intros Hs; split; eauto | now intros [Hs _]].
  - split; [discriminate | intros [_ [rows [=]]]].
Qed.

Lemma steady_spec sc w :
  steady sc w = true <->
  is_closing (sqlConn sc) w = false /\ 0 < maxtRetries sc /\
  runs_below (Z.to_nat (maxtRetries sc)) 0 (faults w) = true /\
  thereafter w = false.
Proof.
  unfold steady.
  rewrite !andb_true_iff, !negb_true_iff, Z.ltb_lt.
  split; [intros (((?&?)&?)&?) | intros (?&?&?&?)]; repeat split; assumption.
Qed.

(** A statement the server accepts gets through on a steady handle,
    whether the store's table exists or not. *)
Lemma query_steady (sc : scope) (sql : statement) (w : world) (r : sqlData)
    (db : tables) :
  steady sc w = true ->
  run (json_as_text w) (target_of (sqlConn sc)) sql (server w) = Some (r, db) ->
  exists w',
    query sc sql w = (Ok r, w') /\ server w' = db /\ same_process w w' /\
    steady sc w' = true.
Proof.
  intros (Hopen & Hmax & Hruns & Hlater)%steady_spec Hrun.
  destruct (query_loop_steady sc (Z.to_nat (maxtRetries sc)) sql r db
              (Z.to_nat (maxtRetries sc)) O w)
    as (w' & Hq & Hdb & Hsame & Hr'); try assumption; try lia.
  exists w'. split; [exact Hq|]. split; [exact Hdb|]. split; [exact Hsame|].
  apply steady_spec. rewrite (is_closing_same _ _ _ Hsame).
  destruct Hsame as (_&_&_&_&_&Hth&_). rewrite Hth.
  repeat split; assumption.
Qed.

(** A statement the server rejects fails at every attempt: the executor
    sends it as many times as it may, waits after each, and gives up with
    the empty row set; no table changes. *)
Lemma query_loop_rejected sc sql n :
  forall w,
    run (json_as_text w) (target_of (sqlConn sc)) sql (server w) = None ->
    exists w',
      query_loop sc n sql w = (Ok (RowSet []), w') /\
      server w' = server w /\ same_process w w' /\
      trace w'
      = (trace w ++ failed_attempts (conn_id (sqlConn sc))
                      (retryRequestDelayMs sc) sql n)%list.
Proof.
  induction n as [|n IH]; intros w Hrun.
  - exists w. cbn. rewrite app_nil_r. repeat split.
  - cbn [query_loop]. unfold try_catch.
    pose proof (send_trace (sqlConn sc) sql w) as Ht.
    destruct (send (sqlConn sc) sql w) as [[r|e] w1] eqn:Hsend; cbn [fst snd] in Ht.
    + apply send_ok in Hsend as (Hrun' & _). congruence.
    + apply send_throw in Hsend as (Hdb & Hsame & _).
      unfold bind, sleep.
      destruct (IH (emit (EvSleep (retryRequestDelayMs sc)) w1))
        as (w' & Hq & Hdb' & Hsame' & Htr).
      { cbn [emit json_as_text server].
        destruct Hsame as (_&_&_&Hflag&_). now rewrite Hdb, Hflag. }
      exists w'. split; [exact Hq|].
      split; [cbn [emit server] in Hdb'; congruence|].
      split.
      { eapply same_process_trans; [exact Hsame|].
        eapply same_process_trans; [|exact Hsame']. repeat split. }
      rewrite Htr. cbn [emit trace failed_attempts]. rewrite Ht.
      now rewrite <- !app_assoc.
Qed.

(** A statement the server accepts gets through at the first attempt when
    the handle is open and the driver does not fault on it. *)
Lemma query_first_attempt (sc : scope) (sql : statement) (w : world)
    (r : sqlData) (db : tables) (l : list bool) :
  is_closing (sqlConn sc) w = false ->
  0 < maxtRetries sc ->
  faults w = false :: l ->
  run (json_as_text w) (target_of (sqlConn sc)) sql (server w) = Some (r, db) ->
  exists w',
    query sc sql w = (Ok r, w') /\ server w' = db /\ same_process w w' /\
    faults w' = l.
Proof.
  intros Hopen Hmax Hf Hrun. unfold query.
  destruct (Z.to_nat (maxtRetries sc)) as [|n] eqn:Hn; [lia|].
  cbn [query_loop]. unfold try_catch, send, next_fault.
  rewrite Hopen, Hf. cbn [set_faults json_as_text server]. rewrite Hrun.
  eexists. split; [reflexivity|]. cbn. repeat split.
Qed.

End Attempts.

(** ** Deleting, and writing what the server will not take *)

Section Deleting.

Context `{Externals}.

(** X16 (writeData, removeData, clearAll, removeAll): on a store that
    works, doing one of these a second time leaves the table as the first
    left it. *)
Theorem repeating_changes_nothing
    (sc : scope) (id : string) (v : value) (w : world) :
  healthy sc w = true ->
  (String.length id <= 80)%nat ->
  (exists w1 w2,
      writeData sc id v w = (Ok tt, w1) /\ writeData sc id v w1 = (Ok tt, w2) /\
      table_at sc w2 = table_at sc w1) /\
  (exists w1 w2,
      removeData sc id w = (Ok tt, w1) /\ removeData sc id w1 = (Ok tt, w2) /\
      table_at sc w2 = table_at sc w1) /\
  (exists w1 w2,
      clearAll sc w = (Ok tt, w1) /\ clearAll sc w1 = (Ok tt, w2) /\
      table_at sc w2 = table_at sc w1) /\
  (exists w1 w2,
      removeAll sc w = (Ok tt, w1) /\ removeAll sc w1 = (Ok tt, w2) /\
      table_at sc w2 = table_at sc w1).
Proof.
  intros Hw Hlen.
  pose proof Hw as (_ & _ & _ & _ & rows & Hrows)%healthy_spec.
  split; [|split; [|split]].
  - destruct (writeData_healthy sc id v w rows Hw Hrows Hlen)
      as (w1 & Hwrite1 & _ & Hrows1 & _ & Hw1).
    destruct (writeData_healthy sc id v w1 _ Hw1 Hrows1 Hlen)
      as (w2 & Hwrite2 & _ & Hrows2 & _).
    exists w1, w2. split; [exact Hwrite1|]. split; [exact Hwrite2|].
    rewrite Hrows1, Hrows2. now rewrite insert_insert_eq.
  - destruct (removeData_healthy sc id w rows Hw Hrows)
      as (w1 & Hrm1 & _ & Hrows1 & _ & Hw1).
    destruct (removeData_healthy sc id w1 _ Hw1 Hrows1)
      as (w2 & Hrm2 & _ & Hrows2 & _).
    exists w1, w2. split; [exact Hrm1|]. split; [exact Hrm2|].
    rewrite Hrows1, Hrows2. now rewrite delete_delete_eq.
  - destruct (clearAll_healthy sc w rows Hw Hrows)
      as (w1 & Hclear1 & Hrows1 & _ & Hw1).
    destruct (clearAll_healthy sc w1 _ Hw1 Hrows1)
      as (w2 & Hclear2 & Hrows2 & _).
    exists w1, w2. split; [exact Hclear1|]. split; [exact Hclear2|].
    rewrite Hrows1, Hrows2. f_equal.
    apply map_filter_id. intros i x Hix.
    now apply map_lookup_filter_Some in Hix as [_ Hi].
  - destruct (removeAll_healthy sc w rows Hw Hrows)
      as (w1 & Hrm1 & Hrows1 & _ & Hw1).
    destruct (removeAll_healthy sc w1 _ Hw1 Hrows1)
      as (w2 & Hrm2 & Hrows2 & _).
    exists w1, w2. split; [exact Hrm1|]. split; [exact Hrm2|].
    now rewrite Hrows1, Hrows2.
Qed.

(** X15 (writeData, query): a write under an id longer than the 80
    characters of the column is refused at every attempt by a server in
    strict SQL mode, as [run] has it;
    the executor uses up its attempts, waiting after each, and
    [writeData] returns normally with nothing stored: a read of the id
    gives [null]. *)
Theorem long_id_write_is_lost
    (sc : scope) (id : string) (v : value) (w : world) :
  (80 < String.length id)%nat ->
  stored_cell sc id w = None ->
  exists w1 w2,
    writeData sc id v w = (Ok tt, w1) /\
    server w1 = server w /\
    trace w1
    = (trace w
         ++ failed_attempts (conn_id (sqlConn sc)) (retryRequestDelayMs sc)
              (Upsert (tableName sc) id (JSON_stringify_replacer v)
                 (JSON_stringify_replacer v))
              (Z.to_nat (maxtRetries sc)))%list /\
    readData sc id w1 = (Ok VNull, w2).
Proof.
  intros Hlen Hnone.
  destruct (query_loop_rejected sc
              (Upsert (tableName sc) id (JSON_stringify_replacer v)
                 (JSON_stringify_replacer v))
              (Z.to_nat (maxtRetries sc)) w)
    as (w1 & Hq & Hdb & Hsame & Htr).
  { cbn [run].
    destruct (server w !! (target_of (sqlConn sc), tableName sc)); [|reflexivity].
    apply Nat.leb_gt in Hlen. now rewrite Hlen. }
  destruct (readData_cases sc id w1) as (w2 & _ & _ & Hread).
  exists w1, w2. split.
  { unfold writeData, bind, query. now rewrite Hq. }
  split; [exact Hdb|]. split; [exact Htr|].
  destruct Hread as [-> | ->]; [reflexivity|].
  f_equal. unfold read_result, stored_cell, table_at in *.
  destruct Hsame as (_&_&_&Hflag&_). now rewrite Hdb, Hflag, Hnone.
Qed.

(** X3 (dropTable): on a store that works, [dropTable()] removes the
    table, and the store has none from then on: every read returns
    [null], every write returns normally and stores nothing, and a second
    [dropTable()] returns normally too. *)
Theorem dropTable_is_final (st : AuthState) (w : world) :
  healthy (closure st) w = true ->
  exists w1,
    dropTable st w = (Ok tt, w1) /\
    table_at (closure st) w1 = None /\
    (forall id : string,
        exists w2, readData (closure st) id w1 = (Ok VNull, w2) /\
                   server w2 = server w1) /\
    (forall (id : string) (v : value),
        exists w2, writeData (closure st) id v w1 = (Ok tt, w2) /\
                   server w2 = server w1) /\
    (exists w2, dropTable st w1 = (Ok tt, w2) /\ server w2 = server w1).
Proof.
  intros (Hs & _)%healthy_steady.
  destruct (query_steady (closure st) (DropTable (tableName (closure st))) w
              ResultSetHeader
              (delete (target_of (sqlConn (closure st)), tableName (closure st))
                 (server w)) Hs eq_refl)
    as (w1 & Hq & Hdb & _ & Hs1).
  assert (Hnone : table_at (closure st) w1 = None).
  { unfold table_at. rewrite Hdb. apply lookup_delete_eq. }
  exists w1. split.
  { unfold dropTable, bind. now rewrite Hq. }
  split; [exact Hnone|]. split; [|split].
  - intros id. now apply readData_no_table.
  - intros id v.
    destruct (query_loop_rejected (closure st)
                (Upsert (tableName (closure st)) id (JSON_stringify_replacer v)
                   (JSON_stringify_replacer v))
                (Z.to_nat (maxtRetries (closure st))) w1)
      as (w2 & Hq2 & Hdb2 & _).
    { cbn [run]. unfold table_at in Hnone. now rewrite Hnone. }
    exists w2. split; [|exact Hdb2].
    unfold writeData, bind, query. now rewrite Hq2.
  - destruct (query_steady (closure st) (DropTable (tableName (closure st))) w1
                ResultSetHeader (server w1) Hs1)
      as (w2 & Hq2 & Hdb2 & _).
    { cbn [run]. f_equal. f_equal. now apply delete_id. }
    exists w2. split; [|exact Hdb2].
    unfold dropTable, bind. now rewrite Hq2.
Qed.

End Deleting.

(** ** Opening a store, again and when things fail *)

Section Opening.

Context `{Externals}.

(** What [useMySQLAuthState] does once it has its handle and the read of
    ["creds"] gave [null]. *)
Lemma open_with_null (config : Config.t) (w w1 : world) (c : sqlConnection) :
  connection config false w = (Ok c, w) ->
  readData (scope_of config c) "creds" w = (Ok VNull, w1) ->
  useMySQLAuthState config w
  = (Ok {| closure := scope_of config c;
           creds := VObj (initAuthCreds_fields (entropy w1));
           captured_creds := VObj (initAuthCreds_fields (entropy w1)) |},
     set_entropy (S (entropy w1)) w1).
Proof.
  intros Hconn Hread. unfold useMySQLAuthState, bind.
  now rewrite Hconn, Hread.
Qed.

(** X4 (connection, useMySQLAuthState): when the process already has a
    live handle, opening a store whose table does not exist creates no
    table: the store comes back with the default credentials, and
    [saveCreds()] on it returns normally and stores nothing. *)
Theorem open_creates_no_table
    (config : Config.t) (w : world) (c : sqlConnection) :
  conn w = Some c ->
  is_closing c w = false ->
  table_at (scope_of config c) w = None ->
  exists st w1 w2,
    useMySQLAuthState config w = (Ok st, w1) /\
    closure st = scope_of config c /\
    creds st = VObj (initAuthCreds_fields (entropy w)) /\
    server w1 = server w /\
    saveCreds st w1 = (Ok tt, w2) /\
    server w2 = server w.
Proof.
  intros Hc Hopen Hnone.
  pose proof (connection_live config w c Hc Hopen) as Hconn.
  set (sc := scope_of config c) in *.
  destruct (readData_cases sc "creds" w) as (w1 & Hdb & Hsame & Hread).
  assert (Hread' : readData sc "creds" w = (Ok VNull, w1)).
  { destruct Hread as [-> | ->]; [reflexivity|].
    unfold read_result, stored_cell. now rewrite Hnone. }
  assert (Hent : entropy w1 = entropy w) by apply Hsame.
  set (st := {| closure := sc; creds := VObj (initAuthCreds_fields (entropy w1));
                captured_creds := VObj (initAuthCreds_fields (entropy w1)) |}).
  destruct (query_loop_rejected sc
              (Upsert (tableName sc) "creds"
                 (JSON_stringify_replacer (captured_creds st))
                 (JSON_stringify_replacer (captured_creds st)))
              (Z.to_nat (maxtRetries sc)) (set_entropy (S (entropy w1)) w1))
    as (w2 & Hq & Hdb2 & _).
  { cbn [run set_entropy server json_as_text]. unfold table_at in Hnone.
    now rewrite Hdb, Hnone. }
  exists st, (set_entropy (S (entropy w1)) w1), w2.
  subst st. cbn [closure creds] in *.
  split; [now apply open_with_null|].
  split; [reflexivity|]. split; [cbn; now rewrite Hent|].
  split; [exact Hdb|]. split.
  - unfold saveCreds, writeData, bind, query. cbn [closure creds].
    now rewrite Hq.
  - rewrite Hdb2. exact Hdb.
Qed.

(** X5 (connection, useMySQLAuthState): a connection that cannot be made
    is not retried.  When a handle has to be created and
    [createConnection] fails, [useMySQLAuthState] throws that failure
    after the one call: no statement is sent, and the module's handle is
    what it was. *)
Theorem refused_connection_propagates
    (config : Config.t) (w : world) (l : list bool) :
  conn w = None \/ ended w = true ->
  refused w = true :: l ->
  exists w',
    useMySQLAuthState config w = (Throw ConnectionError, w') /\
    conn w' = conn w /\
    server w' = server w /\
    refused w' = l /\
    trace w' = (trace w ++ [EvConnect (connection_options config) false])%list.
Proof.
  intros Hneed Href.
  exists (emit (EvConnect (connection_options config) false) (set_refused l w)).
  split; [|repeat split].
  unfold useMySQLAuthState, bind.
  rewrite (connection_refused config false w l); [reflexivity | tauto | exact Href].
Qed.

(** X6 (connection): the CREATE TABLE statement is sent once per process
    and not retried.  When the first open makes its connection and the
    statement then fails, [useMySQLAuthState] throws; the handle stays as
    the module's handle, so the connection manager hands it out from then
    on without sending the statement again. *)
Theorem failed_create_table_is_not_retried
    (config : Config.t) (w : world) (l : list bool) :
  let fresh := {| conn_id := next_id w;
                  conn_options := connection_options config |} in
  let tbl := or_string (Config.tableName config) "auth" in
  conn w = None ->
  hd false (refused w) = false ->
  is_closing fresh w = false ->
  faults w = true :: l ->
  exists w',
    useMySQLAuthState config w = (Throw QueryError, w') /\
    conn w' = Some fresh /\
    server w' = server w /\
    trace w'
    = (trace w ++ [EvConnect (connection_options config) true;
                   EvStatement (next_id w) (CreateTable tbl) None])%list /\
    forall config', connection config' false w' = (Ok fresh, w').
Proof.
  intros fresh tbl Hnone Href Hopen Hf.
  pose proof (connection_first config false w Hnone Href) as Hconn.
  fold tbl in Hconn. change (fresh_handle config w) with fresh in Hconn.
  assert (Hsend : send fresh (CreateTable tbl) (connected config w)
                  = (Throw QueryError,
                     emit (EvStatement (next_id w) (CreateTable tbl) None)
                       (set_faults l (connected config w)))).
  { unfold send, next_fault.
    change (is_closing fresh (connected config w)) with (is_closing fresh w).
    change (faults (connected config w)) with (faults w).
    now rewrite Hopen, Hf. }
  rewrite Hsend in Hconn. cbn [fst snd] in Hconn.
  eexists. split.
  { unfold useMySQLAuthState, bind. rewrite Hconn. reflexivity. }
  cbn. split; [reflexivity|]. split; [reflexivity|].
  split; [now rewrite <- app_assoc|].
  intros config'. apply connection_live; [reflexivity | exact Hopen].
Qed.

(** X7 (connection, query): a reconnect does not reach the stores that
    are already open.  When the module's handle reports itself closed,
    the connection manager replaces it by a new handle, with no CREATE
    TABLE; a store that captured the old handle stays cut off, and its
    reads return [null] whatever the table holds. *)
Theorem reconnect_leaves_old_store_cut_off
    (config : Config.t) (sc : scope) (w : world) :
  let fresh := {| conn_id := next_id w;
                  conn_options := connection_options config |} in
  conn w = Some (sqlConn sc) ->
  is_closing (sqlConn sc) w = true ->
  hd false (refused w) = false ->
  exists w',
    connection config false w = (Ok fresh, w') /\
    conn w' = Some fresh /\
    server w' = server w /\
    trace w' = (trace w ++ [EvConnect (connection_options config) true])%list /\
    unreachable sc w' = true /\
    forall id : string,
      exists w'', readData sc id w' = (Ok VNull, w'') /\ server w'' = server w.
Proof.
  intros fresh Hc Hclosed Href.
  set (w' := set_conn (Some fresh)
               (emit (EvConnect (connection_options config) true)
                  (set_next_id (S (next_id w)) (set_refused (tl (refused w)) w)))).
  assert (Hconn : connection config false w = (Ok fresh, w')).
  { exact (connection_reconnect config false w (sqlConn sc) Hc
             (or_introl Hclosed) Href). }
  assert (Hdown : unreachable sc w' = true).
  { unfold unreachable, is_closing in *. cbn. now rewrite Hclosed. }
  exists w'. split; [exact Hconn|]. repeat split; try exact Hdown.
  intros id.
  destruct (readData_unreachable sc id w' Hdown) as (w'' & Hread & Hdb & _).
  now exists w''.
Qed.

(** X8 (saveCreds, useMySQLAuthState): on a store that works,
    [saveCreds()] writes the bundle its closure captured at open, with the
    updates made to it in place, whatever has been assigned to
    [state.creds] since; that bundle is the [state.creds] of the next
    open, which draws no new one.  This for a bundle that holds no plain
    object of the type ['Buffer']. *)
Theorem saveCreds_then_reopen
    (config : Config.t) (st : AuthState) (w : world) (c : sqlConnection) :
  conn w = Some c ->
  closure st = scope_of config c ->
  healthy (closure st) w = true ->
  is_object (captured_creds st) = true ->
  marker_free (captured_creds st) = true ->
  exists w1 st' w2,
    saveCreds st w = (Ok tt, w1) /\
    table_at (closure st) w1
    = Some (<["creds" := Some (stringify (captured_creds st))]>
              (default ∅ (table_at (closure st) w))) /\
    useMySQLAuthState config w1 = (Ok st', w2) /\
    closure st' = closure st /\
    creds st' = captured_creds st /\
    captured_creds st' = captured_creds st /\
    entropy w2 = entropy w.
Proof.
  intros Hc Hclosure Hw Hobj Hfree.
  pose proof Hw as (Hopen & _ & _ & _ & rows & Hrows)%healthy_spec.
  destruct (writeData_healthy (closure st) "creds" (captured_creds st) w rows
              Hw Hrows)
    as (w1 & Hwrite & _ & Hrows1 & Hsame & Hw1).
  { cbn. lia. }
  destruct (readData_healthy (closure st) "creds" w1 Hw1)
    as (w2 & Hread & _ & Hsame2 & _).
  rewrite (read_back _ _ w1 _ (captured_creds st) Hrows1
             (lookup_insert_eq _ _ _) Hobj),
    (revive_stringify _ Hfree) in Hread.
  assert (Hconn : connection config false w1 = (Ok c, w1)).
  { apply connection_live.
    - destruct Hsame as (-> & _). exact Hc.
    - rewrite (is_closing_same _ _ _ Hsame).
      rewrite Hclosure in Hopen. exact Hopen. }
  assert (Ht : truthy (captured_creds st) = true)
    by (destruct (captured_creds st); try discriminate; reflexivity).
  exists w1,
         {| closure := closure st; creds := captured_creds st;
            captured_creds := captured_creds st |}, w2.
  split; [exact Hwrite|]. split; [now rewrite Hrows1, Hrows|]. split.
  { unfold useMySQLAuthState, bind. rewrite Hconn, <- Hclosure, Hread.
    now rewrite Ht. }
  cbn [closure creds captured_creds]. repeat split.
  destruct Hsame as (_&_&_&_&_&_&He1).
  destruct Hsame2 as (_&_&_&_&_&_&He2). congruence.
Qed.

(** X9 (useMySQLAuthState, query): an open during an outage does not see
    the stored credentials.  When the handle is live and the driver fails
    on every statement, [useMySQLAuthState] returns with a new default
    bundle as [state.creds], whatever the ["creds"] row holds, and throws
    nothing. *)
Theorem outage_hides_stored_creds
    (config : Config.t) (w : world) (c : sqlConnection) :
  conn w = Some c ->
  is_closing c w = false ->
  forallb id (faults w) = true ->
  thereafter w = true ->
  exists st w',
    useMySQLAuthState config w = (Ok st, w') /\
    closure st = scope_of config c /\
    creds st = VObj (initAuthCreds_fields (entropy w)) /\
    server w' = server w.
Proof.
  intros Hc Hopen Hall Hlater.
  pose proof (connection_live config w c Hc Hopen) as Hconn.
  destruct (readData_unreachable (scope_of config c) "creds" w)
    as (w1 & Hread & Hdb & Hsame & _).
  { unfold unreachable. now rewrite Hall, Hlater, orb_true_r. }
  assert (Hent : entropy w1 = entropy w) by apply Hsame.
  eexists _, _.
  split; [exact (open_with_null config w w1 c Hconn Hread)|].
  cbn. rewrite Hent. repeat split. exact Hdb.
Qed.

End Opening.

(** ** Calls of the connection manager that overlap *)

Section Overlap.

Context `{Externals}.



End Overlap.

(** ** Batches of keys *)

Section Keys.

Context `{Externals}.

Lemma keys_get_entry_same sc (type : string) (w w0 : world) (id : string) :
  server w = server w0 -> json_as_text w = json_as_text w0 ->
  keys_get_entry sc type w id = keys_get_entry sc type w0 id.
Proof.
  intros Hdb Hflag. unfold keys_get_entry.
  now rewrite (read_result_same sc _ w0 w Hdb Hflag).
Qed.

(** The loop of [keys.get] on a store that works, when every read
    decodes: one entry per id, in turn. *)
Lemma keys_get_loop_healthy sc (type : string) (w0 : world) (ids : list string) :
  (forall id, id ∈ ids -> exists v, read_result sc (type ++ "-" ++ id) w0 = Ok v) ->
  forall (data : gmap string value) w,
    healthy sc w = true ->
    server w = server w0 -> json_as_text w = json_as_text w0 ->
    exists w',
      keys_get_loop sc type ids data w
      = (Ok (foldl (fun d id => assign id (keys_get_entry sc type w0 id) d)
               data ids), w') /\
      server w' = server w0.
Proof.
  induction ids as [|id ids IH]; intros Hreads data w Hw Hdb Hflag.
  - now exists w.
  - destruct (Hreads id) as (v & Hv); [apply list_elem_of_here|].
    destruct (readData_healthy sc (type ++ "-" ++ id) w Hw)
      as (w1 & Hread & Hdb1 & Hsame & Hw1).
    rewrite (read_result_same sc _ w0 w Hdb Hflag) in Hread.
    destruct (IH (fun i Hi => Hreads i (list_elem_of_further _ _ _ Hi))
                (assign id (keys_get_entry sc type w0 id) data) w1 Hw1)
      as (w' & Hloop & Hdb').
    { congruence. }
    { destruct Hsame as (_&_&_&Hf&_). congruence. }
    assert (Hentry : keys_get_entry sc type w0 id = keys_get_value type v).
    { unfold keys_get_entry. now rewrite Hv. }
    exists w'. split; [|exact Hdb'].
    cbn [keys_get_loop foldl]. unfold bind. rewrite Hread, Hv.
    rewrite Hentry in Hloop |- *. exact Hloop.
Qed.

(** Assignments under ids other than ["__proto__"] are entries. *)
Lemma filled_entries (f : string -> value) (ids : list string) :
  "__proto__" ∉ ids ->
  forall data : gmap string value,
    foldl (fun d id => assign id (f id) d) data ids
    = foldl (fun d id => <[id := f id]> d) data ids.
Proof.
  induction ids as [|id ids IH]; intros Hids data; [reflexivity|].
  apply not_elem_of_cons in Hids as [Hid Hids].
  cbn [foldl]. rewrite assign_entry by congruence. now apply IH.
Qed.

(** What a mapping filled id by id holds. *)
Lemma filled_lookup (f : string -> value) (ids : list string) :
  forall (data : gmap string value) (k : string),
    foldl (fun d id => <[id := f id]> d) data ids !! k
    = if decide (k ∈ ids) then Some (f k) else data !! k.
Proof.
  induction ids as [|id ids IH]; intros data k.
  - cbn. destruct (decide (k ∈ [])) as [Hin|]; [|reflexivity].
    now apply not_elem_of_nil in Hin.
  - cbn [foldl]. rewrite IH.
    destruct (decide (k ∈ ids)) as [Hin|Hout].
    + destruct (decide (k ∈ id :: ids)) as [|Hn]; [reflexivity|].
      exfalso. apply Hn. now apply list_elem_of_further.
    + destruct (decide (k = id)) as [->|Hne].
      * rewrite lookup_insert_eq.
        destruct (decide (id ∈ id :: ids)) as [|Hn]; [reflexivity|].
        exfalso. apply Hn. apply list_elem_of_here.
      * rewrite lookup_insert_ne by congruence.
        destruct (decide (k ∈ id :: ids)) as [Hin|]; [|reflexivity].
        apply elem_of_cons in Hin as [? | ?]; contradiction.
Qed.

(** [keys.get] on a store that works, when every read decodes. *)
Lemma keys_get_healthy (st : AuthState) (type : string) (ids : list string)
    (w : world) :
  healthy (closure st) w = true ->
  (forall id, id ∈ ids ->
              exists v, read_result (closure st) (type ++ "-" ++ id) w = Ok v) ->
  exists w',
    keys_get st type ids w
    = (Ok (foldl (fun d id => assign id (keys_get_entry (closure st) type w id) d)
             ∅ ids), w') /\
    server w' = server w.
Proof.
  intros Hw Hreads.
  exact (keys_get_loop_healthy (closure st) type w ids Hreads ∅ w Hw
           eq_refl eq_refl).
Qed.

(** X10 (keys.get): on a store that works, when every read decodes,
    [keys.get(type, ids)] returns a mapping that holds exactly the ids
    asked for; each is sent to the value read under [`${type}-${id}`],
    passed through [fromObject] when the type is ['app-state-sync-key']
    and the value is truthy.  No table changes.  This for ids other than
    ["__proto__"], which an assignment to a JS object does not add as an
    entry. *)
Theorem keys_get_reads_each_id
    (st : AuthState) (type : string) (ids : list string) (w : world) :
  "__proto__" ∉ ids ->
  healthy (closure st) w = true ->
  (forall id, id ∈ ids ->
              exists v, read_result (closure st) (type ++ "-" ++ id) w = Ok v) ->
  exists (m : gmap string value) w',
    keys_get st type ids w = (Ok m, w') /\
    server w' = server w /\
    (forall id v,
        id ∈ ids ->
        read_result (closure st) (type ++ "-" ++ id) w = Ok v ->
        m !! id
        = Some (if String.eqb type "app-state-sync-key" && truthy v
                then fromObject v else v)) /\
    (forall id, id ∉ ids -> m !! id = None).
Proof.
  intros Hids Hw Hreads.
  destruct (keys_get_healthy st type ids w Hw Hreads) as (w' & Hget & Hdb).
  rewrite (filled_entries _ ids Hids) in Hget.
  eexists _, w'. split; [exact Hget|]. split; [exact Hdb|]. split.
  - intros id v Hin Hv. rewrite filled_lookup.
    destruct (decide (id ∈ ids)); [|contradiction].
    unfold keys_get_entry. now rewrite Hv.
  - intros id Hout. rewrite filled_lookup.
    destruct (decide (id ∈ ids)); [contradiction|]. apply lookup_empty.
Qed.

(** X11 (keys.get): the order of the ids and their repetitions do not
    matter to what each id is sent to: on a store that works, when every
    read decodes, two lists with the same ids, ["__proto__"] not among
    them, get the same mapping. *)
Theorem keys_get_ignores_order
    (st : AuthState) (type : string) (ids ids' : list string) (w : world) :
  "__proto__" ∉ ids ->
  healthy (closure st) w = true ->
  (forall id, id ∈ ids ->
              exists v, read_result (closure st) (type ++ "-" ++ id) w = Ok v) ->
  (forall id, id ∈ ids <-> id ∈ ids') ->
  fst (keys_get st type ids' w) = fst (keys_get st type ids w).
Proof.
  intros Hids Hw Hreads Hsame.
  destruct (keys_get_healthy st type ids w Hw Hreads) as (w1 & -> & _).
  destruct (keys_get_healthy st type ids' w Hw) as (w2 & -> & _).
  { intros id Hin. apply Hreads. now apply Hsame. }
  rewrite (filled_entries _ ids Hids), (filled_entries _ ids').
  2: { intros Hin. apply Hids. now apply Hsame. }
  cbn [fst]. f_equal. apply map_eq. intros k. rewrite !filled_lookup.
  destruct (decide (k ∈ ids)) as [Hin|Hout];
    destruct (decide (k ∈ ids')) as [Hin'|Hout']; try reflexivity.
  - exfalso. apply Hout'. now apply Hsame.
  - exfalso. apply Hout. now apply Hsame.
Qed.

(** X12 (readData, keys.get): a stored value that does not parse makes
    the read throw, and [keys.get] with it: when the driver returns a
    non-empty string that is not JSON text, [readData] throws the
    SyntaxError of [JSON.parse], and a [keys.get] that starts with that
    id throws it too, without reading the other ids. *)
Theorem decode_failure_propagates
    (st : AuthState) (type id : string) (ids : list string) (s : string)
    (w : world) (rows : table) :
  healthy (closure st) w = true ->
  json_as_text w = false ->
  table_at (closure st) w = Some rows ->
  rows !! (type ++ "-" ++ id) = Some (Some (JStr s)) ->
  s <> "" ->
  JSON_parse_string s = None ->
  exists w',
    readData (closure st) (type ++ "-" ++ id) w = (Throw SyntaxError, w') /\
    keys_get st type (id :: ids) w = (Throw SyntaxError, w') /\
    server w' = server w.
Proof.
  intros Hw Hflag Hrows Hrow Hs Hparse.
  destruct (readData_healthy (closure st) (type ++ "-" ++ id) w Hw)
    as (w' & Hread & Hdb & _).
  assert (Hres : read_result (closure st) (type ++ "-" ++ id) w = Throw SyntaxError).
  { unfold read_result, stored_cell. rewrite Hrows, Hrow, Hflag.
    cbn [cell_of cell_truthy].
    apply String.eqb_neq in Hs. rewrite Hs. cbn [negb].
    unfold raw_of, JSON_parse_reviver. cbn. now rewrite Hparse. }
  rewrite Hres in Hread.
  exists w'. split; [exact Hread|]. split; [|exact Hdb].
  unfold keys_get. cbn [keys_get_loop]. unfold bind. now rewrite Hread.
Qed.

(** X13 (keys.set, keys.get): the records of all categories share one
    namespace, that of the strings [`${category}-${id}`].  On a store
    that works, a value set under one category and id is what [keys.get]
    returns under any category and id that make the same string; this
    for an object value that holds no plain object of the type ['Buffer']
    and an id asked for that is not ["__proto__"], which a JS object does
    not take as an entry. *)
Theorem keys_share_one_namespace
    (st : AuthState) (category1 id1 category2 id2 : string) (v : value)
    (w : world) :
  id1 <> "__proto__" ->
  healthy (closure st) w = true ->
  category1 ++ "-" ++ id1 = category2 ++ "-" ++ id2 ->
  (String.length (category2 ++ "-" ++ id2) <= 80)%nat ->
  is_object v = true ->
  marker_free v = true ->
  exists w1 w2,
    keys_set st [(category2, [(id2, v)])] w = (Ok tt, w1) /\
    keys_get st category1 [id1] w1
    = (Ok {[ id1 := if String.eqb category1 "app-state-sync-key" && truthy v
                    then fromObject v else v ]}, w2).
Proof.
  intros Hid Hw Hkey Hlen Hobj Hfree.
  pose proof Hw as (_ & _ & _ & _ & rows & Hrows)%healthy_spec.
  destruct (writeData_healthy (closure st) (category2 ++ "-" ++ id2) v w rows
              Hw Hrows Hlen)
    as (w1 & Hwrite & _ & Hrows1 & _ & Hw1).
  destruct (readData_healthy (closure st) (category1 ++ "-" ++ id1) w1 Hw1)
    as (w2 & Hread & _).
  rewrite Hkey in Hread.
  rewrite (read_back _ _ w1 _ v Hrows1 (lookup_insert_eq _ _ _) Hobj),
    (revive_stringify _ Hfree) in Hread.
  assert (Ht : truthy v = true)
    by (destruct v; try discriminate; reflexivity).
  exists w1, w2. split.
  - unfold keys_set. cbn [keys_set_loop keys_set_category]. unfold bind.
    now rewrite Ht, Hwrite.
  - unfold keys_get. cbn [keys_get_loop]. unfold bind.
    rewrite Hkey, Hread. unfold ret.
    rewrite (assign_entry _ _ _ Hid). now rewrite insert_empty.
Qed.

(** X14 (keys.set, query): a batch is not atomic and reports nothing.
    When the first statement of a batch gets through and the driver fails
    on every statement after it, [keys.set] returns normally, the first
    record is stored and none of the others is. *)
Theorem batch_is_not_atomic
    (st : AuthState) (category id1 : string) (v1 : value)
    (entries : list (string * value)) (w : world) (rows : table)
    (l : list bool) :
  is_closing (sqlConn (closure st)) w = false ->
  0 < maxtRetries (closure st) ->
  faults w = false :: l ->
  forallb id l = true ->
  thereafter w = true ->
  table_at (closure st) w = Some rows ->
  (String.length (category ++ "-" ++ id1) <= 80)%nat ->
  truthy v1 = true ->
  exists w',
    keys_set st [(category, (id1, v1) :: entries)] w = (Ok tt, w') /\
    table_at (closure st) w'
    = Some (<[category ++ "-" ++ id1 := Some (stringify v1)]> rows).
Proof.
  intros Hopen Hmax Hf Hall Hlater Hrows Hlen Ht.
  set (sc := closure st) in *.
  destruct (query_first_attempt sc
              (Upsert (tableName sc) (category ++ "-" ++ id1)
                 (JSON_stringify_replacer v1) (JSON_stringify_replacer v1))
              w ResultSetHeader
              (<[(target_of (sqlConn sc), tableName sc)
                 := <[category ++ "-" ++ id1 := Some (stringify v1)]> rows]>
                 (server w)) l Hopen Hmax Hf)
    as (w1 & Hq & Hdb & Hsame & Hf1).
  { cbn [run]. unfold table_at in Hrows. rewrite Hrows.
    apply Nat.leb_le in Hlen. rewrite Hlen.
    now destruct (rows !! (category ++ "-" ++ id1)). }
  assert (Hdown : unreachable sc w1 = true).
  { unfold unreachable. rewrite Hf1, Hall.
    destruct Hsame as (_&_&_&_&_&->&_). rewrite Hlater. apply orb_true_r. }
  destruct (keys_set_category_unreachable sc category entries w1 Hdown)
    as (w' & Hrest & Hdb' & _).
  exists w'. split.
  - unfold keys_set. fold sc. cbn [keys_set_loop keys_set_category].
    unfold bind, writeData, bind. rewrite Ht, Hq. unfold ret at 1.
    now rewrite Hrest.
  - unfold table_at. rewrite Hdb', Hdb. apply lookup_insert_eq.
Qed.

End Keys.

(** ** Counting the failures *)

Section Budget.

Context `{Externals}.

(** The loop against [k] faults in a row, with more iterations to run
    than that. *)
Lemma query_loop_absorbs (sc : scope) (sql : statement) (r : sqlData)
    (db : tables) (l : list bool) (k : nat) :
  forall (n : nat) (w : world),
    is_closing (sqlConn sc) w = false ->
    faults w = (repeat true k ++ false :: l)%list ->
    (k < n)%nat ->
    run (json_as_text w) (target_of (sqlConn sc)) sql (server w) = Some (r, db) ->
    exists w',
      query_loop sc n sql w = (Ok r, w') /\ server w' = db /\ faults w' = l /\
      trace w'
      = (trace w
           ++ failed_attempts (conn_id (sqlConn sc)) (retryRequestDelayMs sc) sql k
           ++ [EvStatement (conn_id (sqlConn sc)) sql (Some r)])%list.
Proof.
  induction k as [|k IH]; intros n w Hopen Hf Hlt Hrun;
    (destruct n as [|n]; [lia|]);
    cbn [query_loop]; unfold try_catch, send, next_fault;
    rewrite Hopen, Hf; cbn [repeat app].
  - cbn [set_faults json_as_text server]. rewrite Hrun.
    eexists. split; [reflexivity|]. cbn. repeat split.
  - unfold bind, sleep.
    edestruct (IH n) as (w' & Hq & Hdb & Hf' & Htr); cycle 4.
    { exists w'. split; [exact Hq|]. split; [exact Hdb|]. split; [exact Hf'|].
      rewrite Htr. cbn. now rewrite <- !app_assoc. }
    all: cbn; try assumption; try reflexivity; lia.
Qed.

(** The loop against as many faults in a row as it has iterations. *)
Lemma query_loop_exhausts (sc : scope) (sql : statement) (l : list bool) (n : nat) :
  forall w : world,
    is_closing (sqlConn sc) w = false ->
    faults w = (repeat true n ++ l)%list ->
    exists w',
      query_loop sc n sql w = (Ok (RowSet []), w') /\
      server w' = server w /\ faults w' = l /\
      trace w'
      = (trace w
           ++ failed_attempts (conn_id (sqlConn sc)) (retryRequestDelayMs sc) sql n)%list.
Proof.
  induction n as [|n IH]; intros w Hopen Hf.
  - exists w. cbn. rewrite app_nil_r. repeat split. exact Hf.
  - cbn [query_loop]. unfold try_catch, send, next_fault.
    rewrite Hopen, Hf. cbn [repeat app]. unfold bind, sleep.
    edestruct IH as (w' & Hq & Hdb & Hf' & Htr); cycle 2.
    { exists w'. split; [exact Hq|]. split; [exact Hdb|]. split; [exact Hf'|].
      rewrite Htr. cbn. now rewrite <- !app_assoc. }
    all: cbn; try assumption; reflexivity.
Qed.

(** X1 (query): what the retries buy and what they cost.  On an open
    handle, a statement the server accepts that meets [k] driver failures
    in a row and then none is executed once, after [k] failed attempts and
    [k] waits, when [k] is less than [maxtRetries]; when the failures in a
    row are as many as [maxtRetries], the statement is never executed and
    the caller gets the empty row set. *)
Theorem transient_failures_are_absorbed
    (sc : scope) (sql : statement) (w : world) (r : sqlData) (db : tables)
    (l : list bool) (k : nat) :
  is_closing (sqlConn sc) w = false ->
  run (json_as_text w) (target_of (sqlConn sc)) sql (server w) = Some (r, db) ->
  ((k < Z.to_nat (maxtRetries sc))%nat ->
   faults w = (repeat true k ++ false :: l)%list ->
   exists w',
     query sc sql w = (Ok r, w') /\ server w' = db /\ faults w' = l /\
     trace w'
     = (trace w
          ++ failed_attempts (conn_id (sqlConn sc)) (retryRequestDelayMs sc) sql k
          ++ [EvStatement (conn_id (sqlConn sc)) sql (Some r)])%list) /\
  (faults w = (repeat true (Z.to_nat (maxtRetries sc)) ++ l)%list ->
   exists w',
     query sc sql w = (Ok (RowSet []), w') /\ server w' = server w /\
     faults w' = l /\
     trace w'
     = (trace w
          ++ failed_attempts (conn_id (sqlConn sc)) (retryRequestDelayMs sc) sql
               (Z.to_nat (maxtRetries sc)))%list).
Proof.
  intros Hopen Hrun. split.
  - intros Hlt Hf. now apply (query_loop_absorbs sc sql r db l k).
  - intros Hf. now apply query_loop_exhausts.
Qed.

End Budget.

(** ** The facade and the connection *)

Section Untouched.

Context `{Externals}.

Lemma connects_app (l l' : list event) :
  connects (l ++ l') = (connects l + connects l')%nat.
Proof.
  induction l as [|[] l IH]; cbn; rewrite ?IH; reflexivity.
Qed.

Lemma quiet_refl w : quiet w w.
Proof. split; [apply same_process_refl | reflexivity]. Qed.

Lemma quiet_trans w1 w2 w3 : quiet w1 w2 -> quiet w2 w3 -> quiet w1 w3.
Proof.
  intros [Hs1 Hc1] [Hs2 Hc2]. split.
  - eapply same_process_trans; eassumption.
  - congruence.
Qed.

Lemma Quiet_ret {A : Type} (a : A) : Quiet (ret a).
Proof. intros w. apply quiet_refl. Qed.

Lemma Quiet_lift {A : Type} (r : result A) : Quiet (lift r).
Proof. intros w. apply quiet_refl. Qed.

Lemma Quiet_bind {A B : Type} (m : M A) (k : A -> M B) :
  Quiet m -> (forall a, Quiet (k a)) -> Quiet (bind m k).
Proof.
  intros Hm Hk w. unfold bind. specialize (Hm w).
  destruct (m w) as [[a|e] w1]; cbn [snd] in *.
  - eapply quiet_trans; [exact Hm | apply Hk].
  - exact Hm.
Qed.

Lemma Quiet_try_catch {A : Type} (m : M A) (h : error -> M A) :
  Quiet m -> (forall e, Quiet (h e)) -> Quiet (try_catch m h).
Proof.
  intros Hm Hh w. unfold try_catch. specialize (Hm w).
  destruct (m w) as [[a|e] w1]; cbn [snd] in *.
  - exact Hm.
  - eapply quiet_trans; [exact Hm | apply Hh].
Qed.

Lemma Quiet_send c s : Quiet (send c s).
Proof.
  intros w. pose proof (send_trace c s w) as Ht.
  destruct (send c s w) as [[r|e] w1] eqn:Hsend; cbn [fst snd] in *.
  - apply send_ok in Hsend as (_ & Hsame & _). split; [exact Hsame|].
    rewrite Ht, connects_app. cbn. lia.
  - apply send_throw in Hsend as (_ & Hsame & _). split; [exact Hsame|].
    rewrite Ht, connects_app. cbn. lia.
Qed.

Lemma Quiet_sleep ms : Quiet (sleep ms).
Proof.
  intros w. split; [repeat split|].
  cbn. rewrite connects_app. cbn. lia.
Qed.

Lemma Quiet_query_loop sc sql n : Quiet (query_loop sc n sql).
Proof.
  induction n as [|n IH]; cbn [query_loop].
  - apply Quiet_ret.
  - apply Quiet_try_catch; [apply Quiet_send|].
    intros _. apply Quiet_bind; [apply Quiet_sleep | intros _; exact IH].
Qed.

Lemma Quiet_query sc sql : Quiet (query sc sql).
Proof. apply Quiet_query_loop. Qed.

Lemma Quiet_discard sc sql : Quiet (let* _ := query sc sql in ret tt).
Proof. apply Quiet_bind; [apply Quiet_query | intros _; apply Quiet_ret]. Qed.

Lemma Quiet_readData sc (id : string) : Quiet (readData sc id).
Proof.
  apply Quiet_bind; [apply Quiet_query|].
  intros data. destruct (first_value data) as [c|]; [|apply Quiet_ret].
  destruct (cell_truthy c); [apply Quiet_lift | apply Quiet_ret].
Qed.

Lemma Quiet_keys_get_loop sc (type : string) (ids : list string) :
  forall data : gmap string value, Quiet (keys_get_loop sc type ids data).
Proof.
  induction ids as [|id ids IH]; intros data; cbn [keys_get_loop].
  - apply Quiet_ret.
  - apply Quiet_bind; [apply Quiet_readData | intros v; apply IH].
Qed.

Lemma Quiet_keys_set_category sc (category : string)
    (entries : list (string * value)) :
  Quiet (keys_set_category sc category entries).
Proof.
  induction entries as [|[id v] entries IH]; cbn [keys_set_category].
  - apply Quiet_ret.
  - apply Quiet_bind; [|intros _; exact IH].
    destruct (truthy v); apply Quiet_discard.
Qed.

Lemma Quiet_keys_set_loop sc (data : list (string * list (string * value))) :
  Quiet (keys_set_loop sc data).
Proof.
  induction data as [|[category entries] data IH]; cbn [keys_set_loop].
  - apply Quiet_ret.
  - apply Quiet_bind; [apply Quiet_keys_set_category | intros _; exact IH].
Qed.

(** X2 (the facade): no operation of the facade touches the connection.
    However it ends, [keys.get], [keys.set], [saveCreds], [clear],
    [removeCreds], [dropTable] and the raw [query] leave the module's
    handle and the handles' flags as they were and never call
    [createConnection]: every statement goes to the handle captured at
    open, and a store whose handle has closed is not reconnected by using
    it. *)
Theorem facade_leaves_connection_alone
    (st : AuthState) (type : string) (ids : list string)
    (data : list (string * list (string * value))) (sql : statement)
    (w : world) :
  let untouched (w' : world) :=
    conn w' = conn w /\ closing w' = closing w /\ next_id w' = next_id w /\
    connects (trace w') = connects (trace w) in
  untouched (snd (keys_get st type ids w)) /\
  untouched (snd (keys_set st data w)) /\
  untouched (snd (saveCreds st w)) /\
  untouched (snd (clear st w)) /\
  untouched (snd (removeCreds st w)) /\
  untouched (snd (dropTable st w)) /\
  untouched (snd (query (closure st) sql w)).
Proof.
  intros untouched.
  assert (Hq : forall w', quiet w w' -> untouched w').
  { intros w' [(Hc & Hn & Hcl & _) Hconn]. repeat split; assumption. }
  split; [apply Hq, (Quiet_keys_get_loop (closure st) type ids ∅)|].
  split; [apply Hq, (Quiet_keys_set_loop (closure st) data)|].
  split; [apply Hq, Quiet_discard|].
  split; [apply Hq, Quiet_discard|].
  split; [apply Hq, Quiet_discard|].
  split; [apply Hq, Quiet_discard|].
  apply Hq, Quiet_query.
Qed.

End Untouched.

(** ** One record at a time *)

Section Frames.

Context `{Externals}.

(** The read of [id'] from the store's table when it is [rows']. *)
Lemma read_result_rows sc (id' : string) (w w' : world) (rows rows' : table) :
  table_at sc w = Some rows ->
  table_at sc w' = Some rows' ->
  json_as_text w' = json_as_text w ->
  rows' !! id' = rows !! id' ->
  read_result sc id' w' = read_result sc id' w.
Proof.
  intros Hrows Hrows' Hflag Hrow. unfold read_result, stored_cell.
  now rewrite Hrows, Hrows', Hflag, Hrow.
Qed.

(** X17 (removeData): on a store that works, [remove(id)] makes the read
    of [id] [null] and leaves the read of every other id as it was. *)
Theorem remove_only_that_id (sc : scope) (id : string) (w : world) :
  healthy sc w = true ->
  exists w1,
    removeData sc id w = (Ok tt, w1) /\
    fst (readData sc id w1) = Ok VNull /\
    forall id' : string,
      id' <> id -> fst (readData sc id' w1) = fst (readData sc id' w).
Proof.
  intros Hw.
  pose proof Hw as (_ & _ & _ & _ & rows & Hrows)%healthy_spec.
  destruct (removeData_healthy sc id w rows Hw Hrows)
    as (w1 & Hrm & _ & Hrows1 & Hsame & Hw1).
  exists w1. split; [exact Hrm|]. split.
  - destruct (readData_healthy sc id w1 Hw1) as (w2 & -> & _). cbn [fst].
    apply (read_absent _ _ _ _ Hrows1), lookup_delete_eq.
  - intros id' Hne.
    destruct (readData_healthy sc id' w1 Hw1) as (w2 & -> & _).
    destruct (readData_healthy sc id' w Hw) as (w3 & -> & _).
    cbn [fst]. apply (read_result_rows sc id' w w1 rows _ Hrows Hrows1).
    + apply Hsame.
    + apply lookup_delete_ne. congruence.
Qed.

(** X18 (writeData): on a store that works, a write under an id of at
    most 80 characters leaves the read of every other id as it was. *)
Theorem write_only_that_id
    (sc : scope) (id : string) (v : value) (w : world) :
  healthy sc w = true ->
  (String.length id <= 80)%nat ->
  exists w1,
    writeData sc id v w = (Ok tt, w1) /\
    forall id' : string,
      id' <> id -> fst (readData sc id' w1) = fst (readData sc id' w).
Proof.
  intros Hw Hlen.
  pose proof Hw as (_ & _ & _ & _ & rows & Hrows)%healthy_spec.
  destruct (writeData_healthy sc id v w rows Hw Hrows Hlen)
    as (w1 & Hwrite & _ & Hrows1 & Hsame & Hw1).
  exists w1. split; [exact Hwrite|].
  intros id' Hne.
  destruct (readData_healthy sc id' w1 Hw1) as (w2 & -> & _).
  destruct (readData_healthy sc id' w Hw) as (w3 & -> & _).
  cbn [fst]. apply (read_result_rows sc id' w w1 rows _ Hrows Hrows1).
  - apply Hsame.
  - apply lookup_insert_ne. congruence.
Qed.

(** X19 (removeCreds, useMySQLAuthState): on a store that works,
    [removeCreds()] empties the table, the credentials included: every
    read returns [null], and the next open comes back with a new default
    bundle. *)
Theorem removeCreds_forgets_everything
    (config : Config.t) (st : AuthState) (w : world) (c : sqlConnection) :
  conn w = Some c ->
  closure st = scope_of config c ->
  healthy (closure st) w = true ->
  exists w1,
    removeCreds st w = (Ok tt, w1) /\
    table_at (closure st) w1 = Some ∅ /\
    (forall id : string, fst (readData (closure st) id w1) = Ok VNull) /\
    exists st' w2,
      useMySQLAuthState config w1 = (Ok st', w2) /\
      closure st' = closure st /\
      creds st' = VObj (initAuthCreds_fields (entropy w)).
Proof.
  intros Hc Hclosure Hw.
  pose proof Hw as (Hopen & _ & _ & _ & rows & Hrows)%healthy_spec.
  destruct (removeAll_healthy (closure st) w rows Hw Hrows)
    as (w1 & Hrm & Hrows1 & Hsame & Hw1).
  assert (Hnull : forall id : string,
             exists w2, readData (closure st) id w1 = (Ok VNull, w2) /\
                        same_process w1 w2).
  { intros id.
    destruct (readData_healthy (closure st) id w1 Hw1)
      as (w2 & Hread & _ & Hsame2 & _).
    exists w2. split; [|exact Hsame2]. rewrite Hread. f_equal.
    apply (read_absent _ _ _ _ Hrows1), lookup_empty. }
  exists w1. split; [exact Hrm|]. split; [exact Hrows1|]. split.
  - intros id. destruct (Hnull id) as (w2 & -> & _). reflexivity.
  - destruct (Hnull "creds") as (w2 & Hread & Hsame2).
    assert (Hconn : connection config false w1 = (Ok c, w1)).
    { apply connection_live.
      - destruct Hsame as (-> & _). exact Hc.
      - rewrite (is_closing_same _ _ _ Hsame).
        rewrite Hclosure in Hopen. exact Hopen. }
    rewrite Hclosure in Hread.
    eexists _, _.
    split; [exact (open_with_null config w1 w2 c Hconn Hread)|].
    cbn [closure creds]. split; [now rewrite Hclosure|].
    destruct Hsame as (_&_&_&_&_&_&He1).
    destruct Hsame2 as (_&_&_&_&_&_&He2). congruence.
Qed.

End Frames.

(** ** The further theorems at work *)

(** Two driver failures before a delete, and ten. *)
Lemma transient_failures_are_absorbed_witness :
  is_closing (sqlConn first_scope) (ready [true; true; false]) = false /\
  @run plain_externals (json_as_text (ready [true; true; false]))
    (target_of (sqlConn first_scope)) (Delete "auth" "pre-key-1")
    (server (ready [true; true; false]))
  = Some (ResultSetHeader, server (ready [])) /\
  (exists w',
      @query plain_externals first_scope (Delete "auth" "pre-key-1")
        (ready [true; true; false]) = (Ok ResultSetHeader, w') /\
      server w' = server (ready []) /\ faults w' = [] /\
      trace w'
      = (trace (ready [true; true; false])
           ++ failed_attempts (conn_id (sqlConn first_scope))
                (retryRequestDelayMs first_scope) (Delete "auth" "pre-key-1") 2
           ++ [EvStatement (conn_id (sqlConn first_scope))
                 (Delete "auth" "pre-key-1") (Some ResultSetHeader)])%list) /\
  (exists w',
      @query plain_externals first_scope (Delete "auth" "pre-key-1")
        (ready (repeat true 10 ++ [false])) = (Ok (RowSet []), w') /\
      server w' = server (ready (repeat true 10 ++ [false])) /\
      faults w' = [false] /\
      trace w'
      = (trace (ready (repeat true 10 ++ [false]))
           ++ failed_attempts (conn_id (sqlConn first_scope))
                (retryRequestDelayMs first_scope) (Delete "auth" "pre-key-1")
                (Z.to_nat (maxtRetries first_scope)))%list).
Proof.
  assert (H1 : is_closing (sqlConn first_scope) (ready [true; true; false]) = false)
    by (vm_compute; reflexivity).
  assert (H2 : @run plain_externals (json_as_text (ready [true; true; false]))
                 (target_of (sqlConn first_scope)) (Delete "auth" "pre-key-1")
                 (server (ready [true; true; false]))
               = Some (ResultSetHeader, server (ready [])))
    by (vm_cast_no_check
          (eq_refl (Some (ResultSetHeader, server (ready []))))).
  assert (H3 : (2 < Z.to_nat (maxtRetries first_scope))%nat)
    by (vm_compute; lia).
  assert (H4 : is_closing (sqlConn first_scope) (ready (repeat true 10 ++ [false]))
               = false)
    by (vm_compute; reflexivity).
  assert (H5 : @run plain_externals (json_as_text (ready (repeat true 10 ++ [false])))
                 (target_of (sqlConn first_scope)) (Delete "auth" "pre-key-1")
                 (server (ready (repeat true 10 ++ [false])))
               = Some (ResultSetHeader, server (ready [])))
    by (vm_cast_no_check
          (eq_refl (Some (ResultSetHeader, server (ready []))))).
  split; [exact H1|]. split; [exact H2|]. split.
  - exact (proj1 (@transient_failures_are_absorbed plain_externals first_scope
                    (Delete "auth" "pre-key-1") (ready [true; true; false])
                    ResultSetHeader (server (ready [])) [] 2%nat H1 H2)
             H3 eq_refl).
  - exact (proj2 (@transient_failures_are_absorbed plain_externals first_scope
                    (Delete "auth" "pre-key-1") (ready (repeat true 10 ++ [false]))
                    ResultSetHeader (server (ready [])) [false] 0%nat H4 H5)
             eq_refl).
Defined.

(** Each change of the stocked store, done twice. *)
Lemma repeating_changes_nothing_witness :
  healthy first_scope (stocked []) = true /\
  (String.length "pre-key-17" <= 80)%nat /\
  (exists w1 w2,
      @writeData plain_externals first_scope "pre-key-17" sample (stocked [])
      = (Ok tt, w1) /\
      @writeData plain_externals first_scope "pre-key-17" sample w1 = (Ok tt, w2) /\
      table_at first_scope w2 = table_at first_scope w1) /\
  (exists w1 w2,
      @removeData plain_externals first_scope "pre-key-17" (stocked [])
      = (Ok tt, w1) /\
      @removeData plain_externals first_scope "pre-key-17" w1 = (Ok tt, w2) /\
      table_at first_scope w2 = table_at first_scope w1) /\
  (exists w1 w2,
      @clearAll plain_externals first_scope (stocked []) = (Ok tt, w1) /\
      @clearAll plain_externals first_scope w1 = (Ok tt, w2) /\
      table_at first_scope w2 = table_at first_scope w1) /\
  (exists w1 w2,
      @removeAll plain_externals first_scope (stocked []) = (Ok tt, w1) /\
      @removeAll plain_externals first_scope w1 = (Ok tt, w2) /\
      table_at first_scope w2 = table_at first_scope w1).
Proof.
  assert (H1 : healthy first_scope (stocked []) = true)
    by (vm_compute; reflexivity).
  assert (H2 : (String.length "pre-key-17" <= 80)%nat) by (vm_compute; lia).
  split; [exact H1|]. split; [exact H2|].
  exact (@repeating_changes_nothing plain_externals first_scope "pre-key-17"
           sample (stocked []) H1 H2).
Defined.

(** The bundle written under an id of 81 characters. *)
Lemma long_id_write_is_lost_witness :
  (80 < String.length long_id)%nat /\
  stored_cell first_scope long_id (stocked []) = None /\
  exists w1 w2,
    @writeData plain_externals first_scope long_id sample (stocked [])
    = (Ok tt, w1) /\
    server w1 = server (stocked []) /\
    trace w1
    = (trace (stocked [])
         ++ failed_attempts (conn_id (sqlConn first_scope))
              (retryRequestDelayMs first_scope)
              (Upsert (tableName first_scope) long_id
                 (@JSON_stringify_replacer plain_externals sample)
                 (@JSON_stringify_replacer plain_externals sample))
              (Z.to_nat (maxtRetries first_scope)))%list /\
    @readData plain_externals first_scope long_id w1 = (Ok VNull, w2).
Proof.
  assert (H1 : (80 < String.length long_id)%nat) by (vm_compute; lia).
  assert (H2 : stored_cell first_scope long_id (stocked []) = None)
    by (vm_compute; reflexivity).
  split; [exact H1|]. split; [exact H2|].
  exact (@long_id_write_is_lost plain_externals first_scope long_id sample
           (stocked []) H1 H2).
Defined.

(** The table of the stocked store dropped. *)
Lemma dropTable_is_final_witness :
  healthy (closure first_store) (stocked []) = true /\
  exists w1,
    @dropTable plain_externals first_store (stocked []) = (Ok tt, w1) /\
    table_at (closure first_store) w1 = None /\
    (forall id : string,
        exists w2,
          @readData plain_externals (closure first_store) id w1 = (Ok VNull, w2) /\
          server w2 = server w1) /\
    (forall (id : string) (v : value),
        exists w2,
          @writeData plain_externals (closure first_store) id v w1 = (Ok tt, w2) /\
          server w2 = server w1) /\
    (exists w2,
        @dropTable plain_externals first_store w1 = (Ok tt, w2) /\
        server w2 = server w1).
Proof.
  assert (H1 : healthy (closure first_store) (stocked []) = true)
    by (vm_compute; reflexivity).
  split; [exact H1|].
  exact (@dropTable_is_final plain_externals first_store (stocked []) H1).
Defined.

(** A second store of the process, on a table that was never created. *)
Lemma open_creates_no_table_witness :
  conn (stocked []) = Some (first_handle no_config) /\
  is_closing (first_handle no_config) (stocked []) = false /\
  table_at (scope_of (config_table "other") (first_handle no_config)) (stocked [])
  = None /\
  exists st w1 w2,
    @useMySQLAuthState plain_externals (config_table "other") (stocked [])
    = (Ok st, w1) /\
    closure st = scope_of (config_table "other") (first_handle no_config) /\
    creds st = VObj (@initAuthCreds_fields plain_externals (entropy (stocked []))) /\
    server w1 = server (stocked []) /\
    @saveCreds plain_externals st w1 = (Ok tt, w2) /\
    server w2 = server (stocked []).
Proof.
  assert (H1 : conn (stocked []) = Some (first_handle no_config))
    by (vm_compute; reflexivity).
  assert (H2 : is_closing (first_handle no_config) (stocked []) = false)
    by (vm_compute; reflexivity).
  assert (H3 : table_at (scope_of (config_table "other") (first_handle no_config))
                 (stocked []) = None)
    by (vm_compute; reflexivity).
  split; [exact H1|]. split; [exact H2|]. split; [exact H3|].
  exact (@open_creates_no_table plain_externals (config_table "other")
           (stocked []) (first_handle no_config) H1 H2 H3).
Defined.

(** The first open against a server that refuses the connection. *)
Lemma refused_connection_propagates_witness :
  (conn refusing = None \/ ended refusing = true) /\
  refused refusing = [true] /\
  exists w',
    @useMySQLAuthState plain_externals no_config refusing
    = (Throw ConnectionError, w') /\
    conn w' = conn refusing /\
    server w' = server refusing /\
    refused w' = [] /\
    trace w'
    = (trace refusing ++ [EvConnect (connection_options no_config) false])%list.
Proof.
  assert (H1 : conn refusing = None \/ ended refusing = true)
    by (left; reflexivity).
  assert (H2 : refused refusing = [true]) by reflexivity.
  split; [exact H1|]. split; [exact H2|].
  exact (@refused_connection_propagates plain_externals no_config refusing []
           H1 H2).
Defined.

(** The first open when the driver fails on the CREATE TABLE statement. *)
Lemma failed_create_table_is_not_retried_witness :
  conn (boot [true]) = None /\
  hd false (refused (boot [true])) = false /\
  is_closing (first_handle no_config) (boot [true]) = false /\
  faults (boot [true]) = [true] /\
  exists w',
    @useMySQLAuthState plain_externals no_config (boot [true])
    = (Throw QueryError, w') /\
    conn w' = Some (first_handle no_config) /\
    server w' = server (boot [true]) /\
    trace w'
    = (trace (boot [true])
         ++ [EvConnect (connection_options no_config) true;
             EvStatement (next_id (boot [true])) (CreateTable "auth") None])%list /\
    forall config',
      @connection plain_externals config' false w'
      = (Ok (first_handle no_config), w').
Proof.
  assert (H1 : conn (boot [true]) = None) by reflexivity.
  assert (H2 : hd false (refused (boot [true])) = false) by reflexivity.
  assert (H3 : is_closing (first_handle no_config) (boot [true]) = false)
    by reflexivity.
  assert (H4 : faults (boot [true]) = [true]) by reflexivity.
  split; [exact H1|]. split; [exact H2|]. split; [exact H3|]. split; [exact H4|].
  exact (@failed_create_table_is_not_retried plain_externals no_config
           (boot [true]) [] H1 H2 H3 H4).
Defined.

(** The stocked store after its handle closed and another open replaced
    it. *)
Lemma reconnect_leaves_old_store_cut_off_witness :
  conn (closed []) = Some (sqlConn first_scope) /\
  is_closing (sqlConn first_scope) (closed []) = true /\
  hd false (refused (closed [])) = false /\
  exists w',
    @connection plain_externals no_config false (closed [])
    = (Ok {| conn_id := next_id (closed []);
             conn_options := connection_options no_config |}, w') /\
    conn w' = Some {| conn_id := next_id (closed []);
                      conn_options := connection_options no_config |} /\
    server w' = server (closed []) /\
    trace w'
    = (trace (closed []) ++ [EvConnect (connection_options no_config) true])%list /\
    unreachable first_scope w' = true /\
    forall id : string,
      exists w'',
        @readData plain_externals first_scope id w' = (Ok VNull, w'') /\
        server w'' = server (closed []).
Proof.
  assert (H1 : conn (closed []) = Some (sqlConn first_scope))
    by (vm_compute; reflexivity).
  assert (H2 : is_closing (sqlConn first_scope) (closed []) = true)
    by (vm_compute; reflexivity).
  assert (H3 : hd false (refused (closed [])) = false) by reflexivity.
  split; [exact H1|]. split; [exact H2|]. split; [exact H3|].
  exact (@reconnect_leaves_old_store_cut_off plain_externals no_config
           first_scope (closed []) H1 H2 H3).
Defined.

(** The bundle saved as credentials by a store whose [state.creds] was
    assigned another value, and the store opened again. *)
Lemma saveCreds_then_reopen_witness :
  conn (stocked []) = Some (first_handle no_config) /\
  first_scope = scope_of no_config (first_handle no_config) /\
  healthy first_scope (stocked []) = true /\
  is_object sample = true /\
  marker_free sample = true /\
  exists w1 st' w2,
    @saveCreds plain_externals
      {| closure := first_scope; creds := VStr "assigned since";
         captured_creds := sample |} (stocked []) = (Ok tt, w1) /\
    table_at first_scope w1
    = Some (<["creds" := Some (@stringify plain_externals sample)]>
              (default ∅ (table_at first_scope (stocked [])))) /\
    @useMySQLAuthState plain_externals no_config w1 = (Ok st', w2) /\
    closure st' = first_scope /\
    creds st' = sample /\
    captured_creds st' = sample /\
    entropy w2 = entropy (stocked []).
Proof.
  assert (H1 : conn (stocked []) = Some (first_handle no_config))
    by (vm_compute; reflexivity).
  assert (H2 : first_scope = scope_of no_config (first_handle no_config))
    by reflexivity.
  assert (H3 : healthy first_scope (stocked []) = true)
    by (vm_compute; reflexivity).
  assert (H4 : is_object sample = true) by reflexivity.
  assert (H5 : marker_free sample = true) by (vm_compute; reflexivity).
  split; [exact H1|]. split; [exact H2|]. split; [exact H3|].
  split; [exact H4|]. split; [exact H5|].
  exact (@saveCreds_then_reopen plain_externals no_config
           {| closure := first_scope; creds := VStr "assigned since";
              captured_creds := sample |} (stocked [])
           (first_handle no_config) H1 H2 H3 H4 H5).
Defined.

(** The stocked store opened again while every statement fails. *)
Lemma outage_hides_stored_creds_witness :
  conn stocked_outage = Some (first_handle no_config) /\
  is_closing (first_handle no_config) stocked_outage = false /\
  forallb id (faults stocked_outage) = true /\
  thereafter stocked_outage = true /\
  stored_cell first_scope "creds" stocked_outage
  = Some (CData (@stringify plain_externals (creds first_store))) /\
  exists st w',
    @useMySQLAuthState plain_externals no_config stocked_outage = (Ok st, w') /\
    closure st = scope_of no_config (first_handle no_config) /\
    creds st = VObj (@initAuthCreds_fields plain_externals (entropy stocked_outage)) /\
    server w' = server stocked_outage.
Proof.
  assert (H1 : conn stocked_outage = Some (first_handle no_config))
    by (vm_compute; reflexivity).
  assert (H2 : is_closing (first_handle no_config) stocked_outage = false)
    by (vm_compute; reflexivity).
  assert (H3 : forallb id (faults stocked_outage) = true) by reflexivity.
  assert (H4 : thereafter stocked_outage = true) by reflexivity.
  split; [exact H1|]. split; [exact H2|]. split; [exact H3|]. split; [exact H4|].
  split; [vm_compute; reflexivity|].
  exact (@outage_hides_stored_creds plain_externals no_config stocked_outage
           (first_handle no_config) H1 H2 H3 H4).
Defined.

(** A key that is stored and one that is not, asked for together. *)
Lemma keys_get_reads_each_id_witness :
  ("__proto__" ∉ ["17"; "99"]) /\
  healthy (closure first_store) (stocked []) = true /\
  (forall id : string,
      id ∈ ["17"; "99"] ->
      exists v,
        @read_result plain_externals (closure first_store) ("pre-key" ++ "-" ++ id)
          (stocked []) = Ok v) /\
  exists (m : gmap string value) w',
    @keys_get plain_externals first_store "pre-key" ["17"; "99"] (stocked [])
    = (Ok m, w') /\
    server w' = server (stocked []) /\
    (forall id v,
        id ∈ ["17"; "99"] ->
        @read_result plain_externals (closure first_store) ("pre-key" ++ "-" ++ id)
          (stocked []) = Ok v ->
        m !! id
        = Some (if String.eqb "pre-key" "app-state-sync-key" && truthy v
                then @fromObject plain_externals v else v)) /\
    (forall id, id ∉ ["17"; "99"] -> m !! id = None).
Proof.
  assert (H1 : healthy (closure first_store) (stocked []) = true)
    by (vm_compute; reflexivity).
  assert (H2 : forall id : string,
             id ∈ ["17"; "99"] ->
             exists v,
               @read_result plain_externals (closure first_store)
                 ("pre-key" ++ "-" ++ id) (stocked []) = Ok v).
  { intros id Hin.
    apply elem_of_cons in Hin as [-> | Hin];
      [exists sample; vm_compute; reflexivity|].
    apply elem_of_cons in Hin as [-> | Hin];
      [exists VNull; vm_compute; reflexivity|].
    now apply not_elem_of_nil in Hin. }
  assert (H0 : "__proto__" ∉ ["17"; "99"]).
  { rewrite !not_elem_of_cons. repeat split; [discriminate..|apply not_elem_of_nil]. }
  split; [exact H0|]. split; [exact H1|]. split; [exact H2|].
  exact (@keys_get_reads_each_id plain_externals first_store "pre-key"
           ["17"; "99"] (stocked []) H0 H1 H2).
Defined.

(** The same two keys asked for in another order, one of them twice. *)
Lemma keys_get_ignores_order_witness :
  ("__proto__" ∉ ["17"; "99"]) /\
  healthy (closure first_store) (stocked []) = true /\
  (forall id : string,
      id ∈ ["17"; "99"] ->
      exists v,
        @read_result plain_externals (closure first_store) ("pre-key" ++ "-" ++ id)
          (stocked []) = Ok v) /\
  (forall id : string, id ∈ ["17"; "99"] <-> id ∈ ["99"; "17"; "99"]) /\
  fst (@keys_get plain_externals first_store "pre-key" ["99"; "17"; "99"]
         (stocked []))
  = fst (@keys_get plain_externals first_store "pre-key" ["17"; "99"] (stocked [])).
Proof.
  assert (H1 : healthy (closure first_store) (stocked []) = true)
    by (vm_compute; reflexivity).
  assert (H2 : forall id : string,
             id ∈ ["17"; "99"] ->
             exists v,
               @read_result plain_externals (closure first_store)
                 ("pre-key" ++ "-" ++ id) (stocked []) = Ok v).
  { intros id Hin.
    apply elem_of_cons in Hin as [-> | Hin];
      [exists sample; vm_compute; reflexivity|].
    apply elem_of_cons in Hin as [-> | Hin];
      [exists VNull; vm_compute; reflexivity|].
    now apply not_elem_of_nil in Hin. }
  assert (H3 : forall id : string, id ∈ ["17"; "99"] <-> id ∈ ["99"; "17"; "99"]).
  { intros id. rewrite !elem_of_cons, !elem_of_nil. tauto. }
  assert (H0 : "__proto__" ∉ ["17"; "99"]).
  { rewrite !not_elem_of_cons. repeat split; [discriminate..|apply not_elem_of_nil]. }
  split; [exact H0|]. split; [exact H1|]. split; [exact H2|]. split; [exact H3|].
  exact (@keys_get_ignores_order plain_externals first_store "pre-key"
           ["17"; "99"] ["99"; "17"; "99"] (stocked []) H0 H1 H2 H3).
Defined.

(** A row that holds the JSON string ["abc"]. *)
Lemma decode_failure_propagates_witness :
  healthy (closure first_store) with_string_row = true /\
  json_as_text with_string_row = false /\
  table_at (closure first_store) with_string_row
  = Some (default ∅ (table_at (closure first_store) with_string_row)) /\
  default ∅ (table_at (closure first_store) with_string_row)
    !! ("session" ++ "-" ++ "bad") = Some (Some (JStr "abc")) /\
  "abc" <> "" /\
  @JSON_parse_string plain_externals "abc" = None /\
  exists w',
    @readData plain_externals (closure first_store) ("session" ++ "-" ++ "bad")
      with_string_row = (Throw SyntaxError, w') /\
    @keys_get plain_externals first_store "session" ["bad"; "17"] with_string_row
    = (Throw SyntaxError, w') /\
    server w' = server with_string_row.
Proof.
  assert (H1 : healthy (closure first_store) with_string_row = true)
    by (vm_compute; reflexivity).
  assert (H2 : json_as_text with_string_row = false)
    by (vm_compute; reflexivity).
  assert (H3 : table_at (closure first_store) with_string_row
               = Some (default ∅ (table_at (closure first_store) with_string_row)))
    by (vm_compute; reflexivity).
  assert (H4 : default ∅ (table_at (closure first_store) with_string_row)
                 !! ("session" ++ "-" ++ "bad") = Some (Some (JStr "abc")))
    by (vm_compute; reflexivity).
  assert (H5 : "abc" <> "") by discriminate.
  assert (H6 : @JSON_parse_string plain_externals "abc" = None) by reflexivity.
  split; [exact H1|]. split; [exact H2|]. split; [exact H3|].
  split; [exact H4|]. split; [exact H5|]. split; [exact H6|].
  exact (@decode_failure_propagates plain_externals first_store "session" "bad"
           ["17"] "abc" with_string_row
           (default ∅ (table_at (closure first_store) with_string_row))
           H1 H2 H3 H4 H5 H6).
Defined.

(** Two categories and ids that make the same string. *)
Lemma keys_share_one_namespace_witness :
  "memory-x" <> "__proto__" /\
  healthy (closure first_store) (stocked []) = true /\
  "sender-key" ++ "-" ++ "memory-x" = "sender-key-memory" ++ "-" ++ "x" /\
  (String.length ("sender-key-memory" ++ "-" ++ "x") <= 80)%nat /\
  is_object sample = true /\
  marker_free sample = true /\
  exists w1 w2,
    @keys_set plain_externals first_store [("sender-key-memory", [("x", sample)])]
      (stocked []) = (Ok tt, w1) /\
    @keys_get plain_externals first_store "sender-key" ["memory-x"] w1
    = (Ok {[ "memory-x" :=
               if String.eqb "sender-key" "app-state-sync-key" && truthy sample
               then @fromObject plain_externals sample else sample ]}, w2).
Proof.
  assert (H1 : healthy (closure first_store) (stocked []) = true)
    by (vm_compute; reflexivity).
  assert (H2 : "sender-key" ++ "-" ++ "memory-x" = "sender-key-memory" ++ "-" ++ "x")
    by reflexivity.
  assert (H3 : (String.length ("sender-key-memory" ++ "-" ++ "x") <= 80)%nat)
    by (vm_compute; lia).
  assert (H4 : is_object sample = true) by reflexivity.
  assert (H5 : marker_free sample = true) by (vm_compute; reflexivity).
  assert (H0 : "memory-x" <> "__proto__") by discriminate.
  split; [exact H0|]. split; [exact H1|]. split; [exact H2|]. split; [exact H3|].
  split; [exact H4|]. split; [exact H5|].
  exact (@keys_share_one_namespace plain_externals first_store "sender-key"
           "memory-x" "sender-key-memory" "x" sample (stocked []) H0 H1 H2 H3 H4 H5).
Defined.

(** A batch of three keys when the driver fails after the first. *)
Lemma batch_is_not_atomic_witness :
  is_closing (sqlConn (closure first_store)) last_gasp = false /\
  0 < maxtRetries (closure first_store) /\
  faults last_gasp = [false; true] /\
  forallb id [true] = true /\
  thereafter last_gasp = true /\
  table_at (closure first_store) last_gasp
  = Some (default ∅ (table_at (closure first_store) last_gasp)) /\
  (String.length ("pre-key" ++ "-" ++ "1") <= 80)%nat /\
  truthy sample = true /\
  exists w',
    @keys_set plain_externals first_store
      [("pre-key", [("1", sample); ("2", sample); ("3", sample)])] last_gasp
    = (Ok tt, w') /\
    table_at (closure first_store) w'
    = Some (<["pre-key" ++ "-" ++ "1" := Some (@stringify plain_externals sample)]>
              (default ∅ (table_at (closure first_store) last_gasp))).
Proof.
  assert (H1 : is_closing (sqlConn (closure first_store)) last_gasp = false)
    by (vm_compute; reflexivity).
  assert (H2 : 0 < maxtRetries (closure first_store)) by (vm_compute; reflexivity).
  assert (H3 : faults last_gasp = [false; true]) by reflexivity.
  assert (H4 : forallb id [true] = true) by reflexivity.
  assert (H5 : thereafter last_gasp = true) by reflexivity.
  assert (H6 : table_at (closure first_store) last_gasp
               = Some (default ∅ (table_at (closure first_store) last_gasp)))
    by (vm_compute; reflexivity).
  assert (H7 : (String.length ("pre-key" ++ "-" ++ "1") <= 80)%nat)
    by (vm_compute; lia).
  assert (H8 : truthy sample = true) by reflexivity.
  split; [exact H1|]. split; [exact H2|]. split; [exact H3|].
  split; [exact H4|]. split; [exact H5|]. split; [exact H6|].
  split; [exact H7|]. split; [exact H8|].
  exact (@batch_is_not_atomic plain_externals first_store "pre-key" "1" sample
           [("2", sample); ("3", sample)] last_gasp
           (default ∅ (table_at (closure first_store) last_gasp)) [true]
           H1 H2 H3 H4 H5 H6 H7 H8).
Defined.

(** The key of the stocked store removed; the credentials stay. *)
Lemma remove_only_that_id_witness :
  healthy first_scope (stocked []) = true /\
  exists w1,
    @removeData plain_externals first_scope "pre-key-17" (stocked []) = (Ok tt, w1) /\
    fst (@readData plain_externals first_scope "pre-key-17" w1) = Ok VNull /\
    forall id' : string,
      id' <> "pre-key-17" ->
      fst (@readData plain_externals first_scope id' w1)
      = fst (@readData plain_externals first_scope id' (stocked [])).
Proof.
  assert (H1 : healthy first_scope (stocked []) = true)
    by (vm_compute; reflexivity).
  split; [exact H1|].
  exact (@remove_only_that_id plain_externals first_scope "pre-key-17"
           (stocked []) H1).
Defined.

(** Another key written to the stocked store. *)
Lemma write_only_that_id_witness :
  healthy first_scope (stocked []) = true /\
  (String.length "pre-key-18" <= 80)%nat /\
  exists w1,
    @writeData plain_externals first_scope "pre-key-18" sample (stocked [])
    = (Ok tt, w1) /\
    forall id' : string,
      id' <> "pre-key-18" ->
      fst (@readData plain_externals first_scope id' w1)
      = fst (@readData plain_externals first_scope id' (stocked [])).
Proof.
  assert (H1 : healthy first_scope (stocked []) = true)
    by (vm_compute; reflexivity).
  assert (H2 : (String.length "pre-key-18" <= 80)%nat) by (vm_compute; lia).
  split; [exact H1|]. split; [exact H2|].
  exact (@write_only_that_id plain_externals first_scope "pre-key-18" sample
           (stocked []) H1 H2).
Defined.

(** The stocked store emptied and opened again. *)
Lemma removeCreds_forgets_everything_witness :
  conn (stocked []) = Some (first_handle no_config) /\
  closure first_store = scope_of no_config (first_handle no_config) /\
  healthy (closure first_store) (stocked []) = true /\
  exists w1,
    @removeCreds plain_externals first_store (stocked []) = (Ok tt, w1) /\
    table_at (closure first_store) w1 = Some ∅ /\
    (forall id : string,
        fst (@readData plain_externals (closure first_store) id w1) = Ok VNull) /\
    exists st' w2,
      @useMySQLAuthState plain_externals no_config w1 = (Ok st', w2) /\
      closure st' = closure first_store /\
      creds st'
      = VObj (@initAuthCreds_fields plain_externals (entropy (stocked []))).
Proof.
  assert (H1 : conn (stocked []) = Some (first_handle no_config))
    by (vm_compute; reflexivity).
  assert (H2 : closure first_store = scope_of no_config (first_handle no_config))
    by reflexivity.
  assert (H3 : healthy (closure first_store) (stocked []) = true)
    by (vm_compute; reflexivity).
  split; [exact H1|]. split; [exact H2|]. split; [exact H3|].
  exact (@removeCreds_forgets_everything plain_externals no_config first_store
           (stocked []) (first_handle no_config) H1 H2 H3).
Defined.

